(** * mlProject.utils.common: a shallow embedding

    The module [src/mlProject/utils/common.py] is a set of helpers around the
    filesystem, YAML/JSON/pickle codecs, the [ensure] annotation checker, the
    [Box] mapping class and scikit-learn's search and scoring routines.

    The helpers are embedded as functions in an exception-and-state monad over
    a small model of the Python runtime they run on.  The parts of the runtime
    that are small and decide a property (path splitting, directory creation,
    [open], [isinstance] on annotations, [Box.__init__], true division and
    [round], the JSON encoder and decoder) are modelled concretely after
    CPython 3.11 / python-box / ensure; the parts that are large (the YAML
    reader, the pickle formats, the estimators) are parameters.

    The file has five parts: the model of the runtime and of the helpers,
    the vocabulary the properties are stated in, sample inputs, the
    properties of the helpers with their proofs, and further properties of
    their edge cases and of how they compose. *)

From stdpp Require Import gmap strings list.
From Stdlib Require Import ZArith Lia Ascii.
From Stdlib Require Import DecimalString.
From Stdlib Require DecimalPos DecimalFacts.

Local Open Scope string_scope.
Local Open Scope list_scope.
Local Open Scope Z_scope.
Set Warnings "-register-all,-clear-no-such-hyp".

(** * The model *)

(** ** Exceptions and results

    [OutsideModel] is not an exception of Python: the model raises it where
    Python would go on with a value the model has no room for (a float, a
    code point above 255). *)

Inductive exn : Type :=
| FileNotFoundError
| IsADirectoryError
| NotADirectoryError
| FileExistsError
| KeyError (key : string)
| IndexError
| ValueError (msg : string)
| TypeError (msg : string)
| BoxValueError (msg : string)
| EnsureError (msg : string)
| YAMLError (msg : string)
| JSONDecodeError (msg : string)
| OutsideModel (what : string)
| PicklingError (msg : string).

Inductive result (A : Type) : Type :=
| Ok (a : A)
| Raise (e : exn).
Arguments Ok {A} a.
Arguments Raise {A} e.

#[global] Instance exn_eq_dec : EqDecision exn.
Proof. solve_decision. Defined.

(** ** The filesystem and the log *)

Inductive node : Type :=
| Dir
| File (content : string).

(** What the process emits: records of the logger, and lines printed to
    standard output. *)
Inductive log_level : Type := INFO | ERROR | PRINTED.

(** A record: level, format text, and the interpolated argument. *)
Inductive log_arg : Type :=
| ArgPath (p : string)
| ArgExn (e : exn).

Record log_record : Type := LogRecord {
  lvl : log_level;
  text : string;
  arg : log_arg
}.

(** Directory entries are keyed by their absolute component list; the root
    is the empty list and always a directory.  [dir_size] is the [st_size]
    the filesystem reports for a directory. *)
Record world : Type := World {
  tree : gmap (list string) node;
  cwd : list string;
  dir_size : Z;
  logs : list log_record
}.

Definition set_tree (t : gmap (list string) node) (w : world) : world :=
  World t (cwd w) (dir_size w) (logs w).

Definition add_log (r : log_record) (w : world) : world :=
  World (tree w) (cwd w) (dir_size w) (logs w ++ [r]).

Definition node_at (t : gmap (list string) node) (k : list string) : option node :=
  match k with
  | [] => Some Dir
  | _ => t !! k
  end.

(** ** The monad of the helpers: exceptions over a threaded world *)

Definition IO (A : Type) : Type := world → result A * world.

Definition ret {A} (a : A) : IO A := λ w, (Ok a, w).
Definition raise {A} (e : exn) : IO A := λ w, (Raise e, w).
Definition bind {A B} (m : IO A) (f : A → IO B) : IO B :=
  λ w, match m w with
       | (Ok a, w') => f a w'
       | (Raise e, w') => (Raise e, w')
       end.
Definition lift {A} (r : result A) : IO A := λ w, (r, w).

(** [try: m except h] runs [h] on the exception [m] raised, in the state
    [m] left. *)
Definition try_except {A} (m : IO A) (h : exn → IO A) : IO A :=
  λ w, match m w with
       | (Ok a, w') => (Ok a, w')
       | (Raise e, w') => h e w'
       end.

#[global] Instance io_ret : MRet IO := @ret.
#[global] Instance io_bind : MBind IO := λ A B f m, bind m f.

Definition logger_info (text : string) (p : string) : IO unit :=
  λ w, (Ok tt, add_log (LogRecord INFO text (ArgPath p)) w).
Definition logger_error (text : string) (e : exn) : IO unit :=
  λ w, (Ok tt, add_log (LogRecord ERROR text (ArgExn e)) w).
Definition print (text : string) (p : string) : IO unit :=
  λ w, (Ok tt, add_log (LogRecord PRINTED text (ArgPath p)) w).

(** ** Paths

    [pathlib.Path] keeps an anchor and the list of components; [fspath] is
    what [os.fspath] / [str] return and what every [os] call receives. *)

Record Path : Type := MkPath {
  anchor : bool;
  parts : list string
}.

Definition join_slash (l : list string) : string := String.concat "/" l.

Definition fspath (p : Path) : string :=
  match parts p with
  | [] => if anchor p then "/" else "."
  | _ => (if anchor p then "/" else "") +:+ join_slash (parts p)
  end.

Definition is_slash (c : ascii) : bool := Ascii.eqb c "/"%char.

(** [p[:p.rfind('/') + 1]]: the prefix up to and including the last slash. *)
Fixpoint upto_last_slash (s : string) : string :=
  match s with
  | EmptyString => EmptyString
  | String c s' =>
      match upto_last_slash s' with
      | EmptyString => if is_slash c then String c EmptyString else EmptyString
      | h => String c h
      end
  end.

(** [p[p.rfind('/') + 1:]] *)
Fixpoint after_last_slash (s : string) : string :=
  match s with
  | EmptyString => EmptyString
  | String c s' =>
      match upto_last_slash s' with
      | EmptyString => if is_slash c then s' else s
      | _ => after_last_slash s'
      end
  end.

Fixpoint all_slashes (s : string) : bool :=
  match s with
  | EmptyString => true
  | String c s' => is_slash c && all_slashes s'
  end.

(** [s.rstrip('/')] *)
Fixpoint rstrip_slash (s : string) : string :=
  match s with
  | EmptyString => EmptyString
  | String c s' =>
      match rstrip_slash s' with
      | EmptyString => if is_slash c then EmptyString else String c EmptyString
      | r => String c r
      end
  end.

Definition is_empty (s : string) : bool :=
  match s with EmptyString => true | _ => false end.

(** [posixpath.dirname] *)
Definition os_path_dirname (p : string) : string :=
  let head := upto_last_slash p in
  if negb (is_empty head) && negb (all_slashes head) then rstrip_slash head else head.

(** Splitting at every slash, as the kernel does when it walks a path. *)
Fixpoint split_slash (s : string) : list string :=
  match s with
  | EmptyString => [EmptyString]
  | String c s' =>
      if is_slash c then EmptyString :: split_slash s'
      else match split_slash s' with
           | x :: xs => String c x :: xs
           | [] => [String c EmptyString]
           end
  end.

Definition real_component (c : string) : bool :=
  negb (String.eqb c "") && negb (String.eqb c ".").

Definition components (s : string) : list string :=
  List.filter real_component (split_slash s).

Definition is_absolute (s : string) : bool :=
  match s with
  | String c _ => is_slash c
  | EmptyString => false
  end.

Definition parent_key (k : list string) : list string := removelast k.

Definition step_key (cur : list string) (c : string) : list string :=
  if String.eqb c ".." then parent_key cur else cur ++ [c].

(** Path resolution: every component is looked up in a directory, so all
    keys before the last one must be directories.  The result is the key
    the path names, whether or not something exists there. *)
Fixpoint walk (t : gmap (list string) node) (cur : list string) (cs : list string)
  : result (list string) :=
  match cs with
  | [] => Ok cur
  | c :: cs' =>
      match node_at t cur with
      | Some Dir => walk t (step_key cur c) cs'
      | Some (File _) => Raise NotADirectoryError
      | None => Raise FileNotFoundError
      end
  end.

Definition resolve (w : world) (p : string) : result (list string) :=
  if is_empty p then Raise FileNotFoundError
  else walk (tree w) (if is_absolute p then [] else cwd w) (components p).

(** ** System calls used by the helpers *)

(** [os.path.getsize]: [st_size] of whatever the path names. *)
Definition os_path_getsize (p : string) : IO Z :=
  λ w, match resolve w p with
       | Raise e => (Raise e, w)
       | Ok k =>
           match node_at (tree w) k with
           | None => (Raise FileNotFoundError, w)
           | Some Dir => (Ok (dir_size w), w)
           | Some (File c) => (Ok (Z.of_nat (String.length c)), w)
           end
       end.

(** [with open(p) as f: f.read()] *)
Definition read_file (p : string) : IO string :=
  λ w, match resolve w p with
       | Raise e => (Raise e, w)
       | Ok k =>
           match node_at (tree w) k with
           | None => (Raise FileNotFoundError, w)
           | Some Dir => (Raise IsADirectoryError, w)
           | Some (File c) => (Ok c, w)
           end
       end.

(** [open(p, "w")] / [open(p, "wb")]: creates or truncates the file. *)
Definition open_write (p : string) : IO (list string) :=
  λ w, match resolve w p with
       | Raise e => (Raise e, w)
       | Ok k =>
           match node_at (tree w) k with
           | Some Dir => (Raise IsADirectoryError, w)
           | _ => (Ok k, set_tree (<[k := File ""]> (tree w)) w)
           end
       end.

(** Writing through the handle [open_write] returned, then closing it. *)
Definition write_handle (k : list string) (data : string) : IO unit :=
  λ w, (Ok tt, set_tree (<[k := File data]> (tree w)) w).

(** [os.makedirs(name, exist_ok=True)]: every missing directory on the way
    is created; an existing directory is accepted, a regular file is not. *)
Fixpoint mkdir_p (t : gmap (list string) node) (cur : list string) (cs : list string)
  : result (gmap (list string) node) :=
  match cs with
  | [] => Ok t
  | c :: cs' =>
      let next := step_key cur c in
      match node_at t next with
      | Some Dir => mkdir_p t next cs'
      | Some (File _) =>
          Raise (match cs' with [] => FileExistsError | _ => NotADirectoryError end)
      | None => mkdir_p (<[next := Dir]> t) next cs'
      end
  end.

Definition os_makedirs_exist_ok (name : string) : IO unit :=
  λ w, if is_empty name then (Raise FileNotFoundError, w)
       else match mkdir_p (tree w) (if is_absolute name then [] else cwd w)
                          (components name) with
            | Ok t => (Ok tt, set_tree t w)
            | Raise e => (Raise e, w)
            end.

(** ** [ensure_annotations]

    The decorator checks each annotated argument, and the return value when
    the function has a return annotation, with [isinstance(value, template)].
    [isinstance] needs a class as its second argument: [typing.Any] and the
    builtin function [any] both make it raise [TypeError]. *)

Inductive pyclass : Type :=
| CObject | CPath | CStr | CInt | CBool | CNoneType | CList | CTuple | CDict | CBox.

#[global] Instance pyclass_eq_dec : EqDecision pyclass.
Proof. solve_decision. Defined.

(** [issubclass c d] on the classes above: [Box] derives from [dict],
    [bool] from [int], everything from [object]. *)
Definition issubclass (c d : pyclass) : bool :=
  match d with
  | CObject => true
  | CDict => bool_decide (c = CDict) || bool_decide (c = CBox)
  | CInt => bool_decide (c = CInt) || bool_decide (c = CBool)
  | _ => bool_decide (c = d)
  end.

Inductive annotation : Type :=
| AClass (c : pyclass)
| ATypingAny     (* [typing.Any] *)
| ABuiltinAny.   (* the builtin function [any] *)

Definition any_message : string := "typing.Any cannot be used with isinstance()".
Definition builtin_any_message : string :=
  "isinstance() arg 2 must be a type, a tuple of types, or a union".

Definition isinstance (c : pyclass) (a : annotation) : result bool :=
  match a with
  | AClass d => Ok (issubclass c d)
  | ATypingAny => Raise (TypeError any_message)
  | ABuiltinAny => Raise (TypeError builtin_any_message)
  end.

Definition ensure_arg (c : pyclass) (a : annotation) : IO unit :=
  b ← lift (isinstance c a) ;
  if b : bool then ret tt
  else raise (EnsureError "Argument does not match annotation type").

Definition ensure_return (c : pyclass) (a : annotation) : IO unit :=
  b ← lift (isinstance c a) ;
  if b : bool then ret tt
  else raise (EnsureError "Return value does not match annotation type").

(** ** [create_directories]

    The paths of the list are given by their strings. *)

Fixpoint create_directories_body (path_to_directories : list string) (verbose : bool)
  : IO unit :=
  match path_to_directories with
  | [] => ret tt
  | path :: rest =>
      _ ← os_makedirs_exist_ok path;
      _ ← (if verbose then print "Dizin oluşturuldu: " path else ret tt);
      create_directories_body rest verbose
  end.

(** [path_to_directories: list]; [verbose] has a default and no annotation. *)
Definition create_directories (path_to_directories : list string) (verbose : bool)
  : IO unit :=
  _ ← ensure_arg CList (AClass CList);
  create_directories_body path_to_directories verbose.

(** ** [get_size] *)

(** [str(n)] for an integer. *)
Definition py_int_str (z : Z) : string := NilZero.string_of_int (Z.to_int z).

(** [int / int]: the quotient correctly rounded to binary64.  Dividing by
    [1024] only changes the exponent, so the result is [m / 1024] where [m]
    is [n] rounded to 53 significant bits, ties to even. *)
Definition round_to_53_bits (n : Z) : Z :=
  let s := Z.log2 n - 52 in
  if s <=? 0 then n
  else
    let q := Z.shiftr n s in
    let r := Z.land n (Z.ones s) in
    let half := Z.shiftl 1 (s - 1) in
    let q' := if r <? half then q
              else if half <? r then q + 1
              else if Z.even q then q else q + 1 in
    Z.shiftl q' s.

(** A binary64 value [kb_num / 1024]. *)
Record kb_float : Type := KbFloat { kb_num : Z }.

Definition truediv_1024 (n : Z) : kb_float := KbFloat (round_to_53_bits n).

(** [round(x)] with no [ndigits]: nearest integer, ties to even. *)
Definition py_round (x : kb_float) : Z :=
  let q := kb_num x / 1024 in
  let r := kb_num x mod 1024 in
  if r <? 512 then q
  else if 512 <? r then q + 1
  else if Z.even q then q else q + 1.

Definition get_size_body (path : Path) : IO string :=
  n ← os_path_getsize (fspath path);
  let size_in_kb := py_round (truediv_1024 n) in
  ret ("~ " +:+ py_int_str size_in_kb +:+ " KB").

Definition get_size (path : Path) : IO string :=
  _ ← ensure_arg CPath (AClass CPath);
  r ← get_size_body path;
  _ ← ensure_return CStr (AClass CStr);
  ret r.

(** ** Binary artifacts: [save_object], [save_bin], [load_bin]

    The byte formats of [pickle] and [joblib] are parameters: what
    [pickle.dump] and [joblib.dump] write for an object (or the exception
    they raise for one that cannot be pickled) and what [joblib.load] makes
    of a file's bytes. *)

Class Pickling : Type := {
  pyobj : Type;
  pickle_dumps : pyobj → result string;
  joblib_dumps : pyobj → result string;
  joblib_loads : string → result pyobj
}.

Section Artifacts.
Context `{Pickling}.

(** [pickle.dump] and [joblib.dump] write into a file that [open] has
    already created; when pickling raises, the file stays as [open] left
    it. *)
Definition save_object_body (file_path : Path) (obj : pyobj) : IO unit :=
  try_except
    (let dir_path := os_path_dirname (fspath file_path) in
     _ ← os_makedirs_exist_ok dir_path;
     file_obj ← open_write (fspath file_path);
     b ← lift (pickle_dumps obj);
     write_handle file_obj b)
    (λ e, raise e).

(** [file_path: Path] is the only annotated argument. *)
Definition save_object (file_path : Path) (obj : pyobj) : IO unit :=
  _ ← ensure_arg CPath (AClass CPath);
  save_object_body file_path obj.

Definition save_bin_body (data : pyobj) (path : Path) : IO unit :=
  try_except
    (f ← open_write (fspath path);
     b ← lift (joblib_dumps data);
     _ ← write_handle f b;
     logger_info "Binary dosya şu konumda kaydedildi: " (fspath path))
    (λ e,
     _ ← logger_error "Binary dosya kaydedilirken hata oluştu: " e;
     raise e).

(** [data: Any, path: Path]: the arguments are checked in this order. *)
Definition save_bin (data : pyobj) (path : Path) : IO unit :=
  _ ← ensure_arg CObject ATypingAny;
  _ ← ensure_arg CPath (AClass CPath);
  save_bin_body data path.

Definition load_bin_body (path : Path) : IO pyobj :=
  c ← read_file (fspath path);
  data ← lift (joblib_loads c);
  _ ← logger_info "Binary dosya yüklendi: " (fspath path);
  mret data.

(** [path: Path] and the return annotation [any], the builtin function. *)
Definition load_bin (path : Path) : IO pyobj :=
  _ ← ensure_arg CPath (AClass CPath);
  r ← load_bin_body path;
  _ ← ensure_return CObject ABuiltinAny;
  mret r.
End Artifacts.

(** ** Python values, as YAML and JSON documents load them

    Floating-point scalars are outside this model, and a character of a
    string stands for the code point of the same number (0 to 255). *)

Inductive pyvalue : Type :=
| PNone
| PBool (b : bool)
| PInt (z : Z)
| PStr (s : string)
| PList (items : list pyvalue)
| PTuple (items : list pyvalue)
| PDict (items : list (pyvalue * pyvalue)).

Definition class_of (v : pyvalue) : pyclass :=
  match v with
  | PNone => CNoneType
  | PBool _ => CBool
  | PInt _ => CInt
  | PStr _ => CStr
  | PList _ => CList
  | PTuple _ => CTuple
  | PDict _ => CDict
  end.

(** Scalars: what is neither a sequence nor a mapping. *)
Definition is_scalar (v : pyvalue) : bool :=
  match v with
  | PNone | PBool _ | PInt _ | PStr _ => true
  | PList _ | PTuple _ | PDict _ => false
  end.

(** Lists and dicts cannot be dictionary keys; a tuple can when all its
    elements can. *)
Fixpoint hashable (v : pyvalue) : bool :=
  match v with
  | PNone | PBool _ | PInt _ | PStr _ => true
  | PTuple l => forallb hashable l
  | PList _ | PDict _ => false
  end.

(** [==] on keys: booleans compare as the integers 0 and 1. *)
Fixpoint key_eqb (a b : pyvalue) : bool :=
  let fix all2 (l1 l2 : list pyvalue) : bool :=
    match l1, l2 with
    | [], [] => true
    | x :: l1', y :: l2' => key_eqb x y && all2 l1' l2'
    | _, _ => false
    end in
  match a, b with
  | PNone, PNone => true
  | PBool x, PBool y => Bool.eqb x y
  | PBool x, PInt z | PInt z, PBool x => Z.eqb z (if x then 1 else 0)
  | PInt x, PInt y => Z.eqb x y
  | PStr x, PStr y => String.eqb x y
  | PTuple l1, PTuple l2 => all2 l1 l2
  | _, _ => false
  end.

(** [d[k] = v]: an equal key keeps its place and takes the new value, a new
    key goes last. *)
Fixpoint dict_setitem (items : list (pyvalue * pyvalue)) (k v : pyvalue)
  : list (pyvalue * pyvalue) :=
  match items with
  | [] => [(k, v)]
  | (k', v') :: rest =>
      if key_eqb k' k then (k', v) :: rest else (k', v') :: dict_setitem rest k v
  end.

(** ** [Box]

    [Box] is a [dict] subclass; a box is given by its items.  Nested
    dictionaries become boxes and nested lists box lists, which compare
    equal to what they were made from, so the items keep their values. *)

Record Box : Type := MkBox { box_items : list (pyvalue * pyvalue) }.

(** [k, v = e] *)
Definition unpack_pair (e : pyvalue) : result (pyvalue * pyvalue) :=
  let wrong_length (n : nat) : exn :=
    if (n <? 2)%nat then ValueError "not enough values to unpack (expected 2)"
    else ValueError "too many values to unpack (expected 2)" in
  match e with
  | PNone | PBool _ | PInt _ => Raise (TypeError "cannot unpack non-iterable object")
  | PStr s =>
      match s with
      | String a (String b EmptyString) =>
          Ok (PStr (String a EmptyString), PStr (String b EmptyString))
      | _ => Raise (wrong_length (String.length s))
      end
  | PList l | PTuple l =>
      match l with
      | [k; v] => Ok (k, v)
      | _ => Raise (wrong_length (length l))
      end
  | PDict items =>
      match items with
      | [(k1, _); (k2, _)] => Ok (k1, k2)
      | _ => Raise (wrong_length (length items))
      end
  end.

(** [for k, v in iterable: self.__setitem__(k, v)] *)
Fixpoint box_from_pairs (acc : list (pyvalue * pyvalue)) (l : list pyvalue)
  : result (list (pyvalue * pyvalue)) :=
  match l with
  | [] => Ok acc
  | e :: l' =>
      match unpack_pair e with
      | Raise x => Raise x
      | Ok (k, v) =>
          if hashable k then box_from_pairs (dict_setitem acc k v) l'
          else Raise (TypeError "unhashable type")
      end
  end.

(** [Box(content)], after [Box.__init__] of python-box: a string is
    refused, a mapping is copied, any other iterable is read as pairs, and
    anything else is refused. *)
Definition Box_init (content : pyvalue) : result Box :=
  match content with
  | PStr _ => Raise (BoxValueError "Cannot extrapolate Box from string")
  | PDict items => Ok (MkBox items)
  | PList l | PTuple l =>
      match box_from_pairs [] l with
      | Ok items => Ok (MkBox items)
      | Raise e => Raise e
      end
  | PNone | PBool _ | PInt _ =>
      Raise (BoxValueError "First argument must be mapping or iterable")
  end.

(** ** JSON text: [json.dump(data, f, indent=4)] and [json.load(f)] *)

Definition quote : ascii := "034"%char.
Definition backslash : ascii := "092"%char.
Definition newline : ascii := "010"%char.

Fixpoint spaces_onto (n : nat) (tail : string) : string :=
  match n with
  | O => tail
  | S n' => String " "%char (spaces_onto n' tail)
  end.

(** ['\n' + ' ' * (indent * level)], in front of [tail]. *)
Definition newline_indent (indent level : nat) (tail : string) : string :=
  String newline (spaces_onto (indent * level) tail).

Definition hex_digit (n : N) : ascii :=
  match n with
  | 0 => "0" | 1 => "1" | 2 => "2" | 3 => "3" | 4 => "4" | 5 => "5" | 6 => "6"
  | 7 => "7" | 8 => "8" | 9 => "9" | 10 => "a" | 11 => "b" | 12 => "c"
  | 13 => "d" | 14 => "e" | _ => "f"
  end%N%char.

(** One character of a string under [ensure_ascii=True]: the two-character
    escapes, [\u00XX] for what is left outside the printable ASCII range,
    and the character itself otherwise. *)
Definition escape_char (c : ascii) (tail : string) : string :=
  let n := N_of_ascii c in
  if Ascii.eqb c quote then String backslash (String quote tail)
  else if Ascii.eqb c backslash then String backslash (String backslash tail)
  else if (n =? 10)%N then String backslash (String "n" tail)
  else if (n =? 13)%N then String backslash (String "r" tail)
  else if (n =? 9)%N then String backslash (String "t" tail)
  else if (n =? 8)%N then String backslash (String "b" tail)
  else if (n =? 12)%N then String backslash (String "f" tail)
  else if (n <? 32)%N || (126 <? n)%N then
    String backslash (String "u" (String "0" (String "0"
      (String (hex_digit (n / 16)) (String (hex_digit (n mod 16)) tail)))))
  else String c tail.

Fixpoint escape_onto (s : string) (tail : string) : string :=
  match s with
  | EmptyString => tail
  | String c s' => escape_char c (escape_onto s' tail)
  end.

Definition render_string (s : string) (tail : string) : string :=
  String quote (escape_onto s (String quote tail)).

(** Dictionary keys are coerced to strings; a key of another type is a
    [TypeError]. *)
Definition json_key (k : pyvalue) : result string :=
  match k with
  | PStr s => Ok s
  | PBool true => Ok "true"
  | PBool false => Ok "false"
  | PNone => Ok "null"
  | PInt z => Ok (py_int_str z)
  | _ => Raise (TypeError "keys must be str, int, float, bool or None")
  end.

Definition json_key_text (k : pyvalue) : string :=
  match json_key k with Ok s => s | Raise _ => "" end.

(** The elements of a non-empty list or dictionary: each is followed by
    the separator when another one comes and by [close] when it is the
    last. *)
Definition render_sequence {A} (render_one : A → string → string)
    (sep : string → string) : list A → string → string :=
  fix go (l : list A) (close : string) : string :=
    match l with
    | [] => close
    | x :: l' =>
        render_one x (match l' with [] => close | _ => String "," (sep (go l' close)) end)
    end.

(** A dictionary entry: the key as a string literal, [": "], the value. *)
Definition render_member (render_value : pyvalue → string → string)
    (kv : pyvalue * pyvalue) (tail : string) : string :=
  render_string (json_key_text kv.1) (String ":" (String " " (render_value kv.2 tail))).

(** The text the encoder produces for [v] at nesting depth [level], in
    front of [tail]. *)
Fixpoint render (indent level : nat) (v : pyvalue) (tail : string) {struct v} : string :=
  match v with
  | PNone => "null" +:+ tail
  | PBool true => "true" +:+ tail
  | PBool false => "false" +:+ tail
  | PInt z => py_int_str z +:+ tail
  | PStr s => render_string s tail
  | PList l | PTuple l =>
      match l with
      | [] => "[]" +:+ tail
      | _ =>
          String "[" (newline_indent indent (S level)
            (render_sequence (render indent (S level)) (newline_indent indent (S level)) l
               (newline_indent indent level (String "]" tail))))
      end
  | PDict items =>
      match items with
      | [] => "{}" +:+ tail
      | _ =>
          String "{" (newline_indent indent (S level)
            (render_sequence (render_member (render indent (S level)))
               (newline_indent indent (S level)) items
               (newline_indent indent level (String "}" tail))))
      end
  end.

(** The encoder raises [TypeError] at the first dictionary key it cannot
    coerce. *)
Fixpoint json_check (v : pyvalue) : result unit :=
  let check_all {A} (check : A → result unit) : list A → result unit :=
    fix go (l : list A) : result unit :=
      match l with
      | [] => Ok tt
      | x :: l' => match check x with Ok _ => go l' | Raise e => Raise e end
      end in
  match v with
  | PNone | PBool _ | PInt _ | PStr _ => Ok tt
  | PList l | PTuple l => check_all json_check l
  | PDict items =>
      check_all (λ kv : pyvalue * pyvalue,
                   match json_key kv.1 with
                   | Ok _ => json_check kv.2
                   | Raise e => Raise e
                   end) items
  end.

Definition json_dumps (indent : nat) (v : pyvalue) : result string :=
  match json_check v with
  | Ok _ => Ok (render indent 0 v "")
  | Raise e => Raise e
  end.

(** *** The decoder *)

Definition is_ws (c : ascii) : bool :=
  let n := N_of_ascii c in
  (n =? 32)%N || (n =? 9)%N || (n =? 10)%N || (n =? 13)%N.

Fixpoint skip_ws (s : string) : string :=
  match s with
  | String c s' => if is_ws c then skip_ws s' else s
  | EmptyString => EmptyString
  end.

Definition hex_value (c : ascii) : option N :=
  let n := N_of_ascii c in
  if (48 <=? n)%N && (n <=? 57)%N then Some (n - 48)%N
  else if (97 <=? n)%N && (n <=? 102)%N then Some (n - 87)%N
  else if (65 <=? n)%N && (n <=? 70)%N then Some (n - 55)%N
  else None.

(** [\uXXXX]: the code point, when it is one a byte string can hold. *)
Definition unicode_escape (a b c d : ascii) : result ascii :=
  match hex_value a, hex_value b, hex_value c, hex_value d with
  | Some x, Some y, Some z, Some w =>
      if (x =? 0)%N && (y =? 0)%N then Ok (ascii_of_N (16 * z + w))
      else Raise (OutsideModel "code point above 255")
  | _, _, _, _ => Raise (JSONDecodeError "Invalid \uXXXX escape")
  end.

Definition simple_escape (e : ascii) : option ascii :=
  if Ascii.eqb e quote then Some quote
  else if Ascii.eqb e backslash then Some backslash
  else if Ascii.eqb e "/" then Some "/"%char
  else if Ascii.eqb e "b" then Some "008"%char
  else if Ascii.eqb e "f" then Some "012"%char
  else if Ascii.eqb e "n" then Some "010"%char
  else if Ascii.eqb e "r" then Some "013"%char
  else if Ascii.eqb e "t" then Some "009"%char
  else None.

Definition prepend (c : ascii) (r : result (string * string)) : result (string * string) :=
  match r with
  | Ok (s, rest) => Ok (String c s, rest)
  | Raise e => Raise e
  end.

(** The characters of a string literal after its opening quote, and what
    follows the closing quote. *)
Fixpoint scan_string (s : string) : result (string * string) :=
  match s with
  | EmptyString => Raise (JSONDecodeError "Unterminated string")
  | String c s1 =>
      if Ascii.eqb c quote then Ok (EmptyString, s1)
      else if Ascii.eqb c backslash then
        match s1 with
        | EmptyString => Raise (JSONDecodeError "Unterminated string")
        | String e s2 =>
            if Ascii.eqb e "u" then
              match s2 with
              | String x1 (String x2 (String x3 (String x4 s3))) =>
                  match unicode_escape x1 x2 x3 x4 with
                  | Ok ch => prepend ch (scan_string s3)
                  | Raise err => Raise err
                  end
              | _ => Raise (JSONDecodeError "Invalid \uXXXX escape")
              end
            else
              match simple_escape e with
              | Some ch => prepend ch (scan_string s2)
              | None => Raise (JSONDecodeError "Invalid \escape")
              end
        end
      else if (N_of_ascii c <? 32)%N then
        Raise (JSONDecodeError "Invalid control character")
      else prepend c (scan_string s1)
  end.

Definition is_digit (c : ascii) : bool :=
  let n := N_of_ascii c in (48 <=? n)%N && (n <=? 57)%N.

Fixpoint scan_digits (s : string) : string * string :=
  match s with
  | String c s' =>
      if is_digit c then let (d, r) := scan_digits s' in (String c d, r)
      else (EmptyString, s)
  | EmptyString => (EmptyString, EmptyString)
  end.

(** A number with a fraction or an exponent is a float. *)
Definition starts_fraction (s : string) : bool :=
  match s with
  | String c _ => Ascii.eqb c "." || Ascii.eqb c "e" || Ascii.eqb c "E"
  | EmptyString => false
  end.

(** An integer literal: an optional minus sign, then a single zero or a
    run of digits that does not start with zero. *)
Definition scan_number (s : string) : result (Z * string) :=
  let (negative, s1) :=
    match s with
    | String c s' => if Ascii.eqb c "-" then (true, s') else (false, s)
    | EmptyString => (false, s)
    end in
  let (digits, rest) :=
    match s1 with
    | String c s2 => if Ascii.eqb c "0" then ("0", s2) else scan_digits s1
    | EmptyString => (EmptyString, EmptyString)
    end in
  match NilZero.uint_of_string digits with
  | None => Raise (JSONDecodeError "Expecting value")
  | Some d =>
      if starts_fraction rest then Raise (OutsideModel "float")
      else Ok (if negative then - Z.of_uint d else Z.of_uint d, rest)
  end.

(** [s] after the literal [word], when [s] starts with it. *)
Fixpoint strip_prefix (word s : string) : option string :=
  match word, s with
  | EmptyString, _ => Some s
  | String a word', String b s' => if Ascii.eqb a b then strip_prefix word' s' else None
  | _, _ => None
  end.

Definition expecting_value : exn := JSONDecodeError "Expecting value".

(** Recursive descent, as [scan_once], [JSONArray] and [JSONObject] do it;
    every call consumes a character, so a fuel of the length of the text
    is never used up. *)
Fixpoint json_parse (fuel : nat) (s : string) : result (pyvalue * string) :=
  match fuel with
  | O => Raise expecting_value
  | S fuel' =>
      match s with
      | EmptyString => Raise expecting_value
      | String c s1 =>
          if Ascii.eqb c quote then
            match scan_string s1 with
            | Ok (str, rest) => Ok (PStr str, rest)
            | Raise e => Raise e
            end
          else if Ascii.eqb c "{" then
            match skip_ws s1 with
            | String c2 rest =>
                if Ascii.eqb c2 "}" then Ok (PDict [], rest)
                else parse_members fuel' (String c2 rest) []
            | EmptyString => Raise (JSONDecodeError "Expecting property name")
            end
          else if Ascii.eqb c "[" then
            match skip_ws s1 with
            | String c2 rest =>
                if Ascii.eqb c2 "]" then Ok (PList [], rest)
                else parse_elements fuel' (String c2 rest) []
            | EmptyString => Raise expecting_value
            end
          else if Ascii.eqb c "n" then
            match strip_prefix "ull" s1 with
            | Some rest => Ok (PNone, rest)
            | None => Raise expecting_value
            end
          else if Ascii.eqb c "t" then
            match strip_prefix "rue" s1 with
            | Some rest => Ok (PBool true, rest)
            | None => Raise expecting_value
            end
          else if Ascii.eqb c "f" then
            match strip_prefix "alse" s1 with
            | Some rest => Ok (PBool false, rest)
            | None => Raise expecting_value
            end
          else if Ascii.eqb c "-" || is_digit c then
            match scan_number s with
            | Ok (z, rest) => Ok (PInt z, rest)
            | Raise e => Raise e
            end
          else if Ascii.eqb c "N" || Ascii.eqb c "I" then
            Raise (OutsideModel "float")
          else Raise expecting_value
      end
  end
with parse_elements (fuel : nat) (s : string) (acc : list pyvalue)
  : result (pyvalue * string) :=
  match fuel with
  | O => Raise expecting_value
  | S fuel' =>
      match json_parse fuel' s with
      | Raise e => Raise e
      | Ok (v, rest) =>
          match skip_ws rest with
          | String c rest' =>
              if Ascii.eqb c "]" then Ok (PList (acc ++ [v]), rest')
              else if Ascii.eqb c "," then
                parse_elements fuel' (skip_ws rest') (acc ++ [v])
              else Raise (JSONDecodeError "Expecting ',' delimiter")
          | EmptyString => Raise (JSONDecodeError "Expecting ',' delimiter")
          end
      end
  end
with parse_members (fuel : nat) (s : string) (acc : list (pyvalue * pyvalue))
  : result (pyvalue * string) :=
  match fuel with
  | O => Raise expecting_value
  | S fuel' =>
      match s with
      | String c s1 =>
          if Ascii.eqb c quote then
            match scan_string s1 with
            | Raise e => Raise e
            | Ok (key, rest) =>
                match skip_ws rest with
                | String c2 rest2 =>
                    if Ascii.eqb c2 ":" then
                      match json_parse fuel' (skip_ws rest2) with
                      | Raise e => Raise e
                      | Ok (v, rest3) =>
                          let acc' := dict_setitem acc (PStr key) v in
                          match skip_ws rest3 with
                          | String c3 rest4 =>
                              if Ascii.eqb c3 "}" then Ok (PDict acc', rest4)
                              else if Ascii.eqb c3 "," then
                                parse_members fuel' (skip_ws rest4) acc'
                              else Raise (JSONDecodeError "Expecting ',' delimiter")
                          | EmptyString =>
                              Raise (JSONDecodeError "Expecting ',' delimiter")
                          end
                      end
                    else Raise (JSONDecodeError "Expecting ':' delimiter")
                | EmptyString => Raise (JSONDecodeError "Expecting ':' delimiter")
                end
            end
          else Raise (JSONDecodeError "Expecting property name enclosed in double quotes")
      | EmptyString =>
          Raise (JSONDecodeError "Expecting property name enclosed in double quotes")
      end
  end.

Definition json_loads (s : string) : result pyvalue :=
  let s1 := skip_ws s in
  match json_parse (S (String.length s1)) s1 with
  | Raise e => Raise e
  | Ok (v, rest) =>
      match skip_ws rest with
      | EmptyString => Ok v
      | _ => Raise (JSONDecodeError "Extra data")
      end
  end.

(** A document as [json.load] returns it: no tuple, every dictionary key a
    string, no key twice in a dictionary. *)
Definition plain_entry (plain : pyvalue → bool) (kv : pyvalue * pyvalue) : bool :=
  match kv.1 with PStr _ => plain kv.2 | _ => false end.

Definition key_texts (items : list (pyvalue * pyvalue)) : list string :=
  map (λ kv : pyvalue * pyvalue, json_key_text kv.1) items.

Fixpoint json_plain (v : pyvalue) : bool :=
  match v with
  | PNone | PBool _ | PInt _ | PStr _ => true
  | PList l => forallb json_plain l
  | PTuple _ => false
  | PDict items =>
      forallb (plain_entry json_plain) items && bool_decide (NoDup (key_texts items))
  end.
(** ** [save_json] and [load_json]

    [json.dump] writes as it encodes; what it had written when the encoder
    raised is not modelled, the file is left as [open] made it. *)

Definition save_json_body (path : Path) (data : pyvalue) : IO unit :=
  f ← open_write (fspath path);
  text ← lift (json_dumps 4 data);
  _ ← write_handle f text;
  logger_info "json dosyası kaydedildi: " (fspath path).

(** [path: Path, data: dict] *)
Definition save_json (path : Path) (data : pyvalue) : IO unit :=
  _ ← ensure_arg CPath (AClass CPath);
  _ ← ensure_arg (class_of data) (AClass CDict);
  save_json_body path data.

Definition load_json_body (path : Path) : IO Box :=
  f ← read_file (fspath path);
  content ← lift (json_loads f);
  _ ← logger_info "JSON dosyası başarıyla yüklendi: " (fspath path);
  lift (Box_init content).

Definition load_json (path : Path) : IO Box :=
  _ ← ensure_arg CPath (AClass CPath);
  r ← load_json_body path;
  _ ← ensure_return CBox (AClass CBox);
  mret r.

(** ** [read_yaml]

    [yaml.safe_load] on the text of a file is a parameter. *)

Class YamlLoader : Type := {
  yaml_safe_load : string → result pyvalue
}.

Definition empty_yaml_message : string := "yaml dosyası boş".

Section ReadYaml.
Context `{YamlLoader}.

Definition read_yaml_body (path_to_yaml : Path) : IO Box :=
  try_except
    (yaml_file ← read_file (fspath path_to_yaml);
     content ← lift (yaml_safe_load yaml_file);
     lift (Box_init content))
    (λ e, match e with
          | BoxValueError _ => raise (ValueError empty_yaml_message)
          | _ => raise e
          end).

Definition read_yaml (path_to_yaml : Path) : IO Box :=
  _ ← ensure_arg CPath (AClass CPath);
  r ← read_yaml_body path_to_yaml;
  _ ← ensure_return CBox (AClass CBox);
  mret r.
End ReadYaml.

(** ** [evaluate_model]

    The estimators and the routines of scikit-learn are parameters.  An
    [estimator] value is the state of a model object: its parameters and
    what fitting has stored in it.  [search_best_params] is
    [RandomizedSearchCV(model, para, cv=3).fit(X, y).best_params_]: the
    search works on clones, so it reads the model and leaves it alone; it
    draws from the global random state, which is threaded as [rng].
    [set_params] and [fit] are methods that change the object they are
    called on. *)

Class Sklearn : Type := {
  estimator : Type;
  params : Type;
  param_space : Type;
  dataset : Type;
  target : Type;
  prediction : Type;
  score : Type;
  rng : Type;
  search_best_params :
    estimator → param_space → dataset → target → rng → result (params * rng);
  set_params : estimator → params → result estimator;
  fit : estimator → dataset → target → rng → result (estimator * rng);
  predict : estimator → dataset → result prediction;
  r2_score : target → prediction → result score
}.

Definition loc : Type := nat.

Section EvaluateModel.
Context `{Sklearn}.

(** The objects [evaluate_model] reaches: model instances, and the [models]
    dictionary, whose values are references to model instances. *)
Inductive pyobject : Type :=
| OEstimator (e : estimator)
| ODict (items : list (string * loc)).

Record store : Type := Store {
  heap : gmap loc pyobject;
  rng_state : rng
}.

(** State after an exception is not tracked. *)
Definition Eval (A : Type) : Type := store → result (A * store).

Definition eval_ret {A} (a : A) : Eval A := λ st, Ok (a, st).
Definition eval_bind {A B} (m : Eval A) (f : A → Eval B) : Eval B :=
  λ st, match m st with
        | Ok (a, st') => f a st'
        | Raise e => Raise e
        end.
Definition eval_raise {A} (e : exn) : Eval A := λ _, Raise e.
Definition eval_lift {A} (r : result A) : Eval A :=
  λ st, match r with Ok a => Ok (a, st) | Raise e => Raise e end.

#[local] Instance eval_mret : MRet Eval := @eval_ret.
#[local] Instance eval_mbind : MBind Eval := λ A B f m, eval_bind m f.

Definition not_an_estimator : exn :=
  TypeError "estimator should be an estimator implementing 'fit' method".
Definition not_a_dict : exn := TypeError "object is not iterable".

Definition read_estimator (l : loc) : Eval estimator :=
  λ st, match heap st !! l with
        | Some (OEstimator e) => Ok (e, st)
        | _ => Raise not_an_estimator
        end.

Definition write_estimator (l : loc) (e : estimator) : Eval unit :=
  λ st, Ok (tt, Store (<[l := OEstimator e]> (heap st)) (rng_state st)).

Definition read_dict (l : loc) : Eval (list (string * loc)) :=
  λ st, match heap st !! l with
        | Some (ODict items) => Ok (items, st)
        | _ => Raise not_a_dict
        end.

(** A library routine that draws from the global random state. *)
Definition with_rng {A} (f : rng → result (A * rng)) : Eval A :=
  λ st, match f (rng_state st) with
        | Ok (a, r) => Ok (a, Store (heap st) r)
        | Raise x => Raise x
        end.

(** [RandomizedSearchCV(model, para, cv=3)] followed by [rc.fit(X, y)];
    the result is [rc.best_params_]. *)
Definition randomized_search_fit (model : loc) (para : param_space)
    (X : dataset) (y : target) : Eval params :=
  e ← read_estimator model;
  with_rng (search_best_params e para X y).

(** [model.set_params], given the best parameters as keywords *)
Definition call_set_params (model : loc) (best : params) : Eval unit :=
  e ← read_estimator model;
  e' ← eval_lift (set_params e best);
  write_estimator model e'.

(** [model.fit(X, y)] *)
Definition call_fit (model : loc) (X : dataset) (y : target) : Eval unit :=
  e ← read_estimator model;
  e' ← with_rng (fit e X y);
  write_estimator model e'.

(** [model.predict(X)] *)
Definition call_predict (model : loc) (X : dataset) : Eval prediction :=
  e ← read_estimator model;
  eval_lift (predict e X).

(** [list(d)[i]] *)
Definition list_index {A} (l : list A) (i : nat) : result A :=
  match l !! i with
  | Some x => Ok x
  | None => Raise IndexError
  end.

(** [param[key]] *)
Definition dict_getitem (param : gmap string param_space) (key : string)
  : result param_space :=
  match param !! key with
  | Some v => Ok v
  | None => Raise (KeyError key)
  end.

(** One turn of the loop, for the index [i]. *)
Definition evaluate_step (X_train : dataset) (y_train : target)
    (X_test : dataset) (y_test : target)
    (models : loc) (param : gmap string param_space)
    (report : gmap string score) (i : nat) : Eval (gmap string score) :=
  values ← read_dict models;
  model ← eval_lift (list_index values.*2 i);
  keys ← read_dict models;
  key ← eval_lift (list_index keys.*1 i);
  para ← eval_lift (dict_getitem param key);
  best_params ← randomized_search_fit model para X_train y_train;
  _ ← call_set_params model best_params;
  _ ← call_fit model X_train y_train;
  y_test_pred ← call_predict model X_test;
  test_model_score ← eval_lift (r2_score y_test y_test_pred);
  keys' ← read_dict models;
  key' ← eval_lift (list_index keys'.*1 i);
  mret (<[key' := test_model_score]> report).

(** [for i in range(0, n)] *)
Fixpoint evaluate_loop (X_train : dataset) (y_train : target)
    (X_test : dataset) (y_test : target)
    (models : loc) (param : gmap string param_space)
    (report : gmap string score) (range : list nat) : Eval (gmap string score) :=
  match range with
  | [] => mret report
  | i :: range' =>
      report' ← evaluate_step X_train y_train X_test y_test models param report i;
      evaluate_loop X_train y_train X_test y_test models param report' range'
  end.

(** The [try] block re-raises what it catches, so an exception leaves
    [evaluate_model] as it was raised. *)
Definition evaluate_model (X_train : dataset) (y_train : target)
    (X_test : dataset) (y_test : target)
    (models : loc) (param : gmap string param_space) : Eval (gmap string score) :=
  λ st,
    match (items ← read_dict models;
           evaluate_loop X_train y_train X_test y_test models param ∅
                         (seq 0 (length items))) st with
    | Ok r => Ok r
    | Raise e => Raise e
    end.

(** *** The procedure as the specification words it

    For each model of the registry, in order: run the search against its
    parameter space, refit with the best parameters found, score against the
    held-out set, and record the score. *)

Definition score_one (X_train : dataset) (y_train : target)
    (X_test : dataset) (y_test : target)
    (model : loc) (para : param_space) : Eval score :=
  λ st,
    match heap st !! model with
    | Some (OEstimator e) =>
        match search_best_params e para X_train y_train (rng_state st) with
        | Raise x => Raise x
        | Ok (best, r1) =>
            match set_params e best with
            | Raise x => Raise x
            | Ok e1 =>
                match fit e1 X_train y_train r1 with
                | Raise x => Raise x
                | Ok (e2, r2) =>
                    match predict e2 X_test with
                    | Raise x => Raise x
                    | Ok pred =>
                        match r2_score y_test pred with
                        | Raise x => Raise x
                        | Ok sc =>
                            Ok (sc, Store (<[model := OEstimator e2]> (heap st)) r2)
                        end
                    end
                end
            end
        end
    | _ => Raise not_an_estimator
    end.

Fixpoint score_models (X_train : dataset) (y_train : target)
    (X_test : dataset) (y_test : target)
    (param : gmap string param_space)
    (items : list (string * loc)) (report : gmap string score)
  : Eval (gmap string score) :=
  match items with
  | [] => λ st, Ok (report, st)
  | (name, model) :: rest =>
      λ st,
        match param !! name with
        | None => Raise (KeyError name)
        | Some para =>
            match score_one X_train y_train X_test y_test model para st with
            | Raise x => Raise x
            | Ok (sc, st') =>
                score_models X_train y_train X_test y_test param rest
                             (<[name := sc]> report) st'
            end
        end
  end.

(** [chain_scored X_train y_train X_test y_test st model para sc e2 r2]:
    in the state [st], the randomized search for the model over [para] on
    the training data, the refit with the best parameters found and the
    scoring of the predictions on the test data succeed; [sc] is the score,
    [e2] the refitted model and [r2] the random state afterwards. *)
Definition chain_scored (X_train : dataset) (y_train : target)
    (X_test : dataset) (y_test : target) (st : store) (model : loc) (para : param_space)
    (sc : score) (e2 : estimator) (r2 : rng) : Prop :=
  ∃ e best r1 e1 pred,
    heap st !! model = Some (OEstimator e)
    ∧ search_best_params e para X_train y_train (rng_state st) = Ok (best, r1)
    ∧ set_params e best = Ok e1
    ∧ fit e1 X_train y_train r1 = Ok (e2, r2)
    ∧ predict e2 X_test = Ok pred
    ∧ r2_score y_test pred = Ok sc.
End EvaluateModel.

(** * Vocabulary of the properties *)

(** [file_at w p c]: the path string [p] names a regular file holding [c]. *)
Definition file_at (w : world) (p : string) (c : string) : Prop :=
  ∃ k, resolve w p = Ok k ∧ node_at (tree w) k = Some (File c).

(** [dir_at w p]: the path string [p] names a directory. *)
Definition dir_at (w : world) (p : string) : Prop :=
  ∃ k, resolve w p = Ok k ∧ node_at (tree w) k = Some Dir.

(** [k] is the integer nearest to [n / d], a tie going to the even one. *)
Definition nearest_ties_even (n d k : Z) : Prop :=
  2 * Z.abs (d * k - n) ≤ d ∧ (2 * Z.abs (d * k - n) = d → Z.even k = true).

(** [t1] keeps every directory and every regular file of [t]. *)
Definition extends (t t1 : gmap (list string) node) : Prop :=
  (∀ k, node_at t k = Some Dir → node_at t1 k = Some Dir)
  ∧ (∀ k c, node_at t k = Some (File c) → node_at t1 k = Some (File c)).

(** Path strings with a slash somewhere, and runs of slashes. *)
Fixpoint has_slash (s : string) : bool :=
  match s with
  | EmptyString => false
  | String c s' => is_slash c || has_slash s'
  end.

Fixpoint slashes (n : nat) : string :=
  match n with
  | O => EmptyString
  | S n' => String "/"%char (slashes n')
  end.

(** The fuel the decoder needs for a value: one unit for the value and one
    for each element on the way to it. *)
Fixpoint weight (v : pyvalue) : nat :=
  match v with
  | PList l | PTuple l => S (S (list_sum (map (λ x, S (weight x)) l)))
  | PDict items => S (S (list_sum (map (λ kv : pyvalue * pyvalue, S (weight kv.2)) items)))
  | _ => 1
  end.

(** What may follow a value in an encoded document. *)
Definition terminator (s : string) : bool :=
  match s with
  | EmptyString => true
  | String c _ => Ascii.eqb c "," || Ascii.eqb c newline
  end.

(** What may follow an integer literal: no further digit, no fraction and
    no exponent. *)
Definition not_digit_head (s : string) : bool :=
  match s with
  | EmptyString => true
  | String c _ => negb (is_digit c)
  end.

Definition number_follows (rest : string) : bool :=
  not_digit_head rest && negb (starts_fraction rest).

(** An integer literal starts with a minus sign or a digit. *)
Definition number_head (c : ascii) : bool := Ascii.eqb c "-" || is_digit c.

(** A value's text starts with a character that is neither whitespace nor
    a closing bracket. *)
Definition value_head (c : ascii) : bool :=
  negb (is_ws c) && negb (Ascii.eqb c "]") && negb (Ascii.eqb c "}").

(** [decodes v]: the decoder reads [v] back from its text, whatever the
    indentation, the depth and what follows. *)
Definition decodes (v : pyvalue) : Prop :=
  json_plain v = true →
  ∀ (fuel indent level : nat) (rest : string),
    (weight v ≤ fuel)%nat →
    terminator rest = true →
    json_parse fuel (render indent level v rest) = Ok (v, rest).

(** [missing_at w p]: the path string [p] names nothing, because a
    directory on the way or the last component is not there. *)
Definition missing_at (w : world) (p : string) : Prop :=
  resolve w p = Raise FileNotFoundError
  ∨ ∃ k, resolve w p = Ok k ∧ node_at (tree w) k = None.

(** [blocked_by_file w p]: the path string [p] names a regular file, or
    passes through one. *)
Definition blocked_by_file (w : world) (p : string) : Prop :=
  (∃ c, file_at w p c) ∨ resolve w p = Raise NotADirectoryError.

(** The lines [create_directories] prints for a list of paths. *)
Definition printed_lines (paths : list string) : list log_record :=
  map (λ p, LogRecord PRINTED "Dizin oluşturuldu: " (ArgPath p)) paths.

(** The records [save_json] and [load_json] log for a path. *)
Definition saved_record (path : Path) : log_record :=
  LogRecord INFO "json dosyası kaydedildi: " (ArgPath (fspath path)).
Definition loaded_record (path : Path) : log_record :=
  LogRecord INFO "JSON dosyası başarıyla yüklendi: " (ArgPath (fspath path)).

(** The number [get_size] reports for a file of [n] bytes. *)
Definition kb_of (n : nat) : Z := py_round (truediv_1024 (Z.of_nat n)).

(** What a value is once it has been through JSON text: tuples are lists,
    and every dictionary key is the string the encoder wrote for it. *)
Fixpoint json_normal (v : pyvalue) : pyvalue :=
  match v with
  | PList l | PTuple l => PList (map json_normal l)
  | PDict items =>
      PDict (map (λ kv : pyvalue * pyvalue,
                    (PStr (json_key_text kv.1), json_normal kv.2)) items)
  | _ => v
  end.

Definition coerced_items (items : list (pyvalue * pyvalue)) : list (pyvalue * pyvalue) :=
  map (λ kv : pyvalue * pyvalue, (PStr (json_key_text kv.1), json_normal kv.2)) items.

(** No two keys of a dictionary of [v] are written as the same text. *)
Definition keys_stay_apart (v : pyvalue) : bool := json_plain (json_normal v).

(** A component as [pathlib] keeps it in [parts] and that names an entry
    of its directory: not empty, no slash, neither [.] nor [..]. *)
Definition plain_name (c : string) : bool :=
  real_component c && negb (has_slash c) && negb (String.eqb c "..").

(** * Sample inputs *)

(** [n] bytes of content. *)
Fixpoint filler (n : nat) : string :=
  match n with
  | O => EmptyString
  | S n' => String "x"%char (filler n')
  end.

(** A working directory [/home] with a file of 1536 bytes (one and a half
    kilobytes: the tie goes to the even neighbour 2). *)
Definition bytes_1536 : string := filler 1536.
Definition world_1536 : world :=
  World (list_to_map [(["home"], Dir); (["home"; "blob.bin"], File bytes_1536)])
        ["home"] 4096 [].

(** A toy pickling: the objects are byte strings, or [None] for an object
    that cannot be pickled; a dump is the bytes behind a two-byte header. *)
Definition toy_dumps (o : option string) : result string :=
  match o with
  | Some b => Ok ("PK" +:+ b)
  | None => Raise (PicklingError "cannot pickle object")
  end.
Definition toy_loads (b : string) : result (option string) :=
  match b with
  | String "P" (String "K" rest) => Ok (Some rest)
  | _ => Raise (PicklingError "invalid load key")
  end.
Definition toy_pickling : Pickling :=
  {| pyobj := option string;
     pickle_dumps := toy_dumps;
     joblib_dumps := toy_dumps;
     joblib_loads := toy_loads |}.

(** A project directory [/proj] holding an empty [artifacts] directory. *)
Definition world_proj : world :=
  World (list_to_map [(["proj"], Dir); (["proj"; "artifacts"], Dir)]) ["proj"] 4096 [].

(** [Path("artifacts/models/model.joblib")], whose parent is not there yet,
    and [Path("model.pkl")], which has no directory part. *)
Definition deep_path : Path := MkPath false ["artifacts"; "models"; "model.joblib"].
Definition bare_path : Path := MkPath false ["model.pkl"].


(** [Path("artifacts/metrics.json")] and the metrics of a run; the same
    metrics keyed by fold number; [Path("reports/metrics.json")], whose
    directory is not there. *)
Definition metrics_path : Path := MkPath false ["artifacts"; "metrics.json"].
Definition reports_path : Path := MkPath false ["reports"; "metrics.json"].
Definition metrics : list (pyvalue * pyvalue) :=
  [(PStr "model", PStr "ridge"); (PStr "folds", PList [PInt 3; PInt (-1)]);
   (PStr "best", PDict [(PStr "alpha", PInt 10)])].
Definition metrics_by_fold : list (pyvalue * pyvalue) := [(PInt 1, PStr "a")].

(** [yaml.safe_load] on a few documents. *)
Definition sample_documents : list (string * pyvalue) :=
  [ ("", PNone);
    ("42", PInt 42);
    ("hello", PStr "hello");
    ("[]", PList []);
    ("[1, 2, 3]", PList [PInt 1; PInt 2; PInt 3]);
    ("[[a, 1], [b, 2]]",
     PList [PList [PStr "a"; PInt 1]; PList [PStr "b"; PInt 2]]);
    ("a: 1", PDict [(PStr "a", PInt 1)]) ].

Fixpoint lookup_document (docs : list (string * pyvalue)) (text : string)
  : result pyvalue :=
  match docs with
  | [] => Raise (YAMLError "not one of the sample documents")
  | (t, v) :: docs' => if String.eqb t text then Ok v else lookup_document docs' text
  end.

Definition sample_yaml : YamlLoader :=
  {| yaml_safe_load := lookup_document sample_documents |}.

(** A project directory with one configuration file. *)
Definition world_config (text : string) : world :=
  World (list_to_map [(["proj"], Dir); (["proj"; "config.yaml"], File text)])
        ["proj"] 4096 [].
Definition config_path : Path := MkPath false ["config.yaml"].

(** A toy scikit-learn.  A model has one hyperparameter [alpha] and, once
    fitted, one coefficient.  A parameter space lists candidate values of
    [alpha]; the search needs three training rows for its three folds and
    picks the candidate the random state points at.  Scores are integers:
    the negated sum of squared errors. *)
Record toy_estimator : Type := ToyEstimator { alpha : Z; coef : option Z }.

Definition toy_search (e : toy_estimator) (space : list Z) (X y : list Z) (r : nat)
  : result (Z * nat) :=
  if (length X <? 3)%nat
  then Raise (ValueError "Cannot have number of splits n_splits=3 greater than the number of samples")
  else match space !! (r `mod` length space)%nat with
       | Some a => Ok (a, S r)
       | None => Raise (ValueError "empty parameter grid")
       end.

Definition toy_set_params (e : toy_estimator) (a : Z) : result toy_estimator :=
  Ok (ToyEstimator a (coef e)).

Definition toy_fit (e : toy_estimator) (X y : list Z) (r : nat)
  : result (toy_estimator * nat) :=
  if (length X =? length y)%nat
  then Ok (ToyEstimator (alpha e) (Some (foldr Z.add 0 y + alpha e)), r)
  else Raise (ValueError "Found input variables with inconsistent numbers of samples").

Definition toy_predict (e : toy_estimator) (X : list Z) : result (list Z) :=
  match coef e with
  | Some c => Ok (map (λ _, c) X)
  | None => Raise (ValueError "This estimator instance is not fitted yet")
  end.

Fixpoint squared_error (y p : list Z) : Z :=
  match y, p with
  | a :: y', b :: p' => (a - b) * (a - b) + squared_error y' p'
  | _, _ => 0
  end.

Definition toy_r2_score (y p : list Z) : result Z :=
  if (length y =? length p)%nat then Ok (- squared_error y p)
  else Raise (ValueError "Found input variables with inconsistent numbers of samples").

Definition toy_sklearn : Sklearn :=
  {| estimator := toy_estimator;
     params := Z;
     param_space := list Z;
     dataset := list Z;
     target := list Z;
     prediction := list Z;
     score := Z;
     rng := nat;
     search_best_params := toy_search;
     set_params := toy_set_params;
     fit := toy_fit;
     predict := toy_predict;
     r2_score := toy_r2_score |}.

(** Two fresh models, registered as ["ridge"] and ["lasso"] in the
    dictionary at location 0. *)
Definition toy_items : list (string * loc) := [("ridge", 1%nat); ("lasso", 2%nat)].
Definition toy_store : @store toy_sklearn :=
  Store (list_to_map [(0%nat, @ODict toy_sklearn toy_items);
                      (1%nat, @OEstimator toy_sklearn (ToyEstimator 0 None));
                      (2%nat, @OEstimator toy_sklearn (ToyEstimator 0 None))])
        (0%nat : @rng toy_sklearn).
(** [toy_store] once ["ridge"] has been searched, refitted and scored, and
    once both models have been. *)
Definition toy_store_ridge : @store toy_sklearn :=
  @Store toy_sklearn
    (<[1%nat := @OEstimator toy_sklearn (ToyEstimator 1 (Some 13))]>
       (@heap toy_sklearn toy_store))
    (1%nat : @rng toy_sklearn).
Definition toy_store_after : @store toy_sklearn :=
  @Store toy_sklearn
    (<[2%nat := @OEstimator toy_sklearn (ToyEstimator 20 (Some 32))]>
       (@heap toy_sklearn toy_store_ridge))
    (2%nat : @rng toy_sklearn).
Definition toy_param : gmap string (list Z) :=
  list_to_map [("ridge", [1; 10]); ("lasso", [2; 20])].
Definition toy_param_ridge_only : gmap string (list Z) :=
  list_to_map [("ridge", [1; 10])].
Definition toy_X_train : list Z := [1; 2; 3].
Definition toy_y_train : list Z := [2; 4; 6].
Definition toy_X_test : list Z := [4; 5].
Definition toy_y_test : list Z := [13; 14].

(** A project directory with a five-byte file [notes.txt]. *)
Definition world_blob : world :=
  World (list_to_map [(["proj"], Dir); (["proj"; "notes.txt"], File "hello")])
        ["proj"] 4096 [].

(** The same directory with [notes.txt] holding a toy pickle. *)
Definition world_pickle : world :=
  World (list_to_map [(["proj"], Dir); (["proj"; "notes.txt"], File "PKabc")])
        ["proj"] 4096 [].

(** Metrics keyed by an integer, a boolean and [None], with a tuple for a
    value; metrics with a tuple for a key; a project whose
    [artifacts/metrics.json] holds a given text. *)
Definition metrics_mixed : list (pyvalue * pyvalue) :=
  [(PInt 1, PTuple [PInt 3; PInt 4]); (PBool true, PNone);
   (PStr "best", PDict [(PNone, PStr "x")])].
Definition metrics_tuple_key : list (pyvalue * pyvalue) :=
  [(PStr "a", PInt 1); (PTuple [PInt 1; PInt 2], PInt 2)].
Definition world_json (text : string) : world :=
  World (list_to_map [(["proj"], Dir); (["proj"; "artifacts"], Dir);
                      (["proj"; "artifacts"; "metrics.json"], File text)])
        ["proj"] 4096 [].
Definition eval_metrics_path : Path := MkPath false ["artifacts"; "eval"; "metrics.json"].

(** * Properties *)

Ltac io_unfold := unfold mbind, io_bind, bind, mret, io_ret, ret, lift, raise.

Lemma ensure_arg_ok (c : pyclass) (a : annotation) (w : world) :
  isinstance c a = Ok true → ensure_arg c a w = (Ok tt, w).
Proof. intros H. unfold ensure_arg. io_unfold. rewrite H. reflexivity. Qed.

Lemma ensure_return_ok (c : pyclass) (a : annotation) (w : world) :
  isinstance c a = Ok true → ensure_return c a w = (Ok tt, w).
Proof. intros H. unfold ensure_return. io_unfold. rewrite H. reflexivity. Qed.

Lemma ensure_arg_raise (c : pyclass) (a : annotation) (e : exn) (w : world) :
  isinstance c a = Raise e → ensure_arg c a w = (Raise e, w).
Proof. intros H. unfold ensure_arg. io_unfold. rewrite H. reflexivity. Qed.

Lemma ensure_return_raise (c : pyclass) (a : annotation) (e : exn) (w : world) :
  isinstance c a = Raise e → ensure_return c a w = (Raise e, w).
Proof. intros H. unfold ensure_return. io_unfold. rewrite H. reflexivity. Qed.

Lemma round_to_53_bits_small (n : Z) : 0 ≤ n < 2 ^ 53 → round_to_53_bits n = n.
Proof.
  intros [Hlo Hhi]. unfold round_to_53_bits.
  destruct (Z.eq_dec n 0) as [->|Hn]; [reflexivity|].
  assert (Z.log2 n < 53) by (apply Z.log2_lt_pow2; lia).
  destruct (Z.leb_spec (Z.log2 n - 52) 0); [reflexivity | lia].
Qed.

Lemma py_round_nearest (m : Z) : nearest_ties_even m 1024 (py_round (KbFloat m)).
Proof.
  unfold py_round, nearest_ties_even; cbn [kb_num].
  pose proof (Z.div_mod m 1024 ltac:(lia)) as Hdm.
  pose proof (Z.mod_pos_bound m 1024 ltac:(lia)) as Hb.
  set (q := m / 1024) in *. set (r := m mod 1024) in *.
  destruct (Z.ltb_spec r 512).
  { split; [lia|]. intros; lia. }
  destruct (Z.ltb_spec 512 r).
  { split; [lia|]. intros; lia. }
  assert (r = 512) as Hr by lia.
  destruct (Z.even q) eqn:Hev.
  - split; [lia | done].
  - split; [lia|]. intros _. rewrite Z.even_add, Hev. reflexivity.
Qed.

Lemma nearest_ties_even_unique (n k1 k2 : Z) :
  nearest_ties_even n 1024 k1 → nearest_ties_even n 1024 k2 → k1 = k2.
Proof.
  unfold nearest_ties_even. intros [H1 E1] [H2 E2].
  destruct (Z.eq_dec k1 k2) as [|Hne]; [done|exfalso].
  assert (k2 = k1 + 1 ∨ k1 = k2 + 1) as [->| ->] by lia.
  - assert (Z.even k1 = true) as Ha by (apply E1; lia).
    assert (Z.even (k1 + 1) = true) as Hb by (apply E2; lia).
    rewrite Z.even_add, Ha in Hb. discriminate.
  - assert (Z.even k2 = true) as Ha by (apply E2; lia).
    assert (Z.even (k2 + 1) = true) as Hb by (apply E1; lia).
    rewrite Z.even_add, Ha in Hb. discriminate.
Qed.

Lemma get_size_body_file (w : world) (path : Path) (c : string) :
  file_at w (fspath path) c →
  get_size_body path w =
    (Ok ("~ " +:+ py_int_str (py_round (truediv_1024 (Z.of_nat (String.length c))))
         +:+ " KB"), w).
Proof.
  intros (k & Hres & Hnode).
  unfold get_size_body, os_path_getsize. io_unfold.
  rewrite Hres, Hnode. reflexivity.
Qed.

(** Both annotation checks of [get_size] pass: the argument is a [Path] and
    the result a [str]. *)
Lemma get_size_checked (path : Path) (w : world) :
  get_size path w = get_size_body path w.
Proof.
  unfold get_size. io_unfold.
  rewrite ensure_arg_ok by reflexivity.
  destruct (get_size_body path w) as [[r|e] w']; [|reflexivity].
  rewrite ensure_return_ok by reflexivity. reflexivity.
Qed.

(** C7: for an existing file of [n] bytes, [get_size] returns ["~ "], the
    decimal of [round(n / 1024)] and [" KB"], and leaves the world as it
    was.  [round(n / 1024)] is the nearest integer to the binary64 quotient,
    ties to even; for [n < 2^53] the quotient is exact, so the number is the
    integer nearest to [n / 1024] with a tie at [.5] going to the even
    neighbour. *)
Theorem get_size_rounded_kb (w : world) (path : Path) (c : string) :
  file_at w (fspath path) c →
  let n := Z.of_nat (String.length c) in
  get_size path w = (Ok ("~ " +:+ py_int_str (py_round (truediv_1024 n)) +:+ " KB"), w)
  ∧ (n < 2 ^ 53 → nearest_ties_even n 1024 (py_round (truediv_1024 n))).
Proof.
  intros Hf n. split.
  - rewrite get_size_checked. apply get_size_body_file, Hf.
  - intros Hn. unfold truediv_1024.
    rewrite round_to_53_bits_small by (subst n; lia).
    apply py_round_nearest.
Qed.

Lemma get_size_rounded_kb_witness :
  get_size (MkPath false ["blob.bin"]) world_1536 = (Ok "~ 2 KB", world_1536).
Proof.
  refine (proj1 (get_size_rounded_kb world_1536 (MkPath false ["blob.bin"]) bytes_1536 _)).
  exists ["home"; "blob.bin"]. split; vm_compute; reflexivity.
Defined.

(** ** Directory creation and path resolution *)

Lemma extends_refl (t : gmap (list string) node) : extends t t.
Proof. split; auto. Qed.

Lemma extends_trans (t1 t2 t3 : gmap (list string) node) :
  extends t1 t2 → extends t2 t3 → extends t1 t3.
Proof. intros [A B] [C D]. split; auto. Qed.

Lemma node_at_insert_eq (t : gmap (list string) node) (k : list string) :
  node_at (<[k := Dir]> t) k = Some Dir.
Proof. destruct k; [reflexivity|]. cbn. apply lookup_insert_eq. Qed.

Lemma node_at_insert_ne (t : gmap (list string) node) (k k' : list string) (n : node) :
  k ≠ k' → node_at (<[k := n]> t) k' = node_at t k'.
Proof. intros Hne. destruct k'; [reflexivity|]. cbn. by apply lookup_insert_ne. Qed.

Lemma extends_insert_fresh (t : gmap (list string) node) (k : list string) :
  node_at t k = None → extends t (<[k := Dir]> t).
Proof.
  intros Hnone. split.
  - intros k' Hk'. destruct (decide (k = k')) as [->|Hne].
    + apply node_at_insert_eq.
    + by rewrite node_at_insert_ne.
  - intros k' c Hk'. destruct (decide (k = k')) as [->|Hne].
    + congruence.
    + by rewrite node_at_insert_ne.
Qed.

(** What [os.makedirs] leaves behind: the path it was given now resolves to
    a directory, and nothing that was there is lost. *)
Lemma mkdir_p_walk (cs : list string) :
  ∀ (t t1 : gmap (list string) node) (cur : list string),
    node_at t cur = Some Dir →
    mkdir_p t cur cs = Ok t1 →
    extends t t1 ∧ ∃ k, walk t1 cur cs = Ok k ∧ node_at t1 k = Some Dir.
Proof.
  induction cs as [|c cs IH]; intros t t1 cur Hcur Hmk; cbn in Hmk.
  - injection Hmk as <-. split; [apply extends_refl|]. exists cur. by split.
  - destruct (node_at t (step_key cur c)) as [[|content]|] eqn:Hnext.
    + destruct (IH _ _ _ Hnext Hmk) as (Hext & k & Hw & Hk).
      split; [done|]. exists k. split; [|done].
      cbn. rewrite (proj1 Hext _ Hcur). done.
    + discriminate.
    + pose proof (extends_insert_fresh _ _ Hnext) as Hext0.
      destruct (IH _ _ _ (node_at_insert_eq t (step_key cur c)) Hmk)
        as (Hext & k & Hw & Hk).
      pose proof (extends_trans _ _ _ Hext0 Hext) as Hext1.
      split; [done|]. exists k. split; [|done].
      cbn. rewrite (proj1 Hext1 _ Hcur). done.
Qed.

Lemma walk_app (t : gmap (list string) node) (cs : list string) (c : string) :
  ∀ cur k, walk t cur cs = Ok k → node_at t k = Some Dir →
           walk t cur (cs ++ [c]) = Ok (step_key k c).
Proof.
  induction cs as [|c' cs IH]; intros cur k Hw Hk; cbn in *.
  - injection Hw as ->. by rewrite Hk.
  - destruct (node_at t cur) as [[|?]|]; try discriminate. by apply IH.
Qed.

(** A path with a missing directory on its way stays unresolvable until
    someone creates that directory. *)
Lemma resolve_same_tree (w w' : world) (p : string) :
  tree w' = tree w → cwd w' = cwd w → resolve w' p = resolve w p.
Proof. intros Ht Hc. unfold resolve. by rewrite Ht, Hc. Qed.

(** ** [posixpath.dirname] against the components the kernel sees *)

Lemma append_nil_l (s : string) : "" +:+ s = s.
Proof. reflexivity. Qed.

Lemma append_cons (c : ascii) (a b : string) : String c a +:+ b = String c (a +:+ b).
Proof. reflexivity. Qed.

Lemma append_nil_r (s : string) : s +:+ "" = s.
Proof. induction s as [|c s IH]; [done|]. by rewrite append_cons, IH. Qed.

Lemma append_assoc (a b c : string) : (a +:+ b) +:+ c = a +:+ (b +:+ c).
Proof. induction a as [|x a IH]; [done|]. by rewrite !append_cons, IH. Qed.

Ltac str_simpl := rewrite ?append_cons, ?append_nil_l, ?append_nil_r in *.

Lemma is_slash_eq (c : ascii) : is_slash c = true → c = "/"%char.
Proof. unfold is_slash. apply Ascii.eqb_eq. Qed.

Lemma split_slash_nonempty (s : string) : split_slash s ≠ [].
Proof.
  destruct s as [|c s]; cbn; [done|].
  destruct (is_slash c); [done|]. destruct (split_slash s); done.
Qed.

Lemma split_slash_app (a b : string) :
  split_slash (a +:+ String "/" b) = (split_slash a ++ split_slash b)%list.
Proof.
  induction a as [|c a IH]; str_simpl; [reflexivity|].
  cbn. destruct (is_slash c); cbn; [by rewrite IH|].
  rewrite IH. pose proof (split_slash_nonempty a).
  destruct (split_slash a); done.
Qed.

Lemma split_slash_no_slash (s : string) : has_slash s = false → split_slash s = [s].
Proof.
  induction s as [|c s IH]; cbn; [done|].
  intros [Hc Hs]%orb_false_iff. rewrite Hc, IH; done.
Qed.

(** Either the string has no slash, or it splits around its last one. *)
Lemma last_slash_spec (s : string) :
  (upto_last_slash s = "" ∧ after_last_slash s = s ∧ has_slash s = false)
  ∨ (∃ h, upto_last_slash s = h +:+ "/"
          ∧ s = h +:+ String "/" (after_last_slash s)
          ∧ has_slash (after_last_slash s) = false).
Proof.
  induction s as [|c s IH]; [left; done|].
  destruct IH as [(Hu & Ha & Hn)|(h & Hu & Hs & Hn)]; cbn; rewrite Hu.
  - destruct (is_slash c) eqn:Hc.
    + right. exists "". apply is_slash_eq in Hc as ->. done.
    + left. by rewrite Hn.
  - right. exists (String c h). str_simpl.
    destruct h; str_simpl; (split; [done|split; [congruence|done]]).
Qed.

Lemma rstrip_slash_spec (s : string) : ∃ n, s = rstrip_slash s +:+ slashes n.
Proof.
  induction s as [|c s [n IH]]; [by exists O|]. cbn.
  destruct (rstrip_slash s) eqn:Hr.
  - destruct (is_slash c) eqn:Hc.
    + exists (S n). apply is_slash_eq in Hc as ->. str_simpl. cbn. congruence.
    + exists n. str_simpl. congruence.
  - exists n. str_simpl. congruence.
Qed.

Lemma components_slashes_r (s : string) (n : nat) :
  components (s +:+ slashes n) = components s.
Proof.
  induction n as [|n IH] in s |- *; cbn; [by rewrite append_nil_r|].
  replace (s +:+ String "/" (slashes n)) with ((s +:+ "/") +:+ slashes n)
    by (by rewrite append_assoc).
  rewrite IH. unfold components.
  rewrite split_slash_app. cbn. rewrite List.filter_app. cbn.
  by rewrite app_nil_r.
Qed.

Lemma components_rstrip (s : string) : components (rstrip_slash s) = components s.
Proof.
  destruct (rstrip_slash_spec s) as [n Hn].
  rewrite Hn at 2. by rewrite components_slashes_r.
Qed.

Lemma all_slashes_rstrip (s : string) : all_slashes s = false → rstrip_slash s ≠ "".
Proof.
  induction s as [|c s IH]; cbn; [done|].
  destruct (is_slash c) eqn:Hc; cbn.
  - intros Hs. specialize (IH Hs). destruct (rstrip_slash s); done.
  - intros _. destruct (rstrip_slash s); done.
Qed.

Lemma is_absolute_append (a b : string) : a ≠ "" → is_absolute (a +:+ b) = is_absolute a.
Proof. destruct a; done. Qed.

Lemma has_slash_append (a b : string) : has_slash (a +:+ String "/" b) = true.
Proof.
  induction a as [|c a IH]; str_simpl; cbn; [done|].
  rewrite IH. apply orb_true_r.
Qed.

Lemma dirname_empty_iff (s : string) : os_path_dirname s = "" ↔ has_slash s = false.
Proof.
  unfold os_path_dirname.
  destruct (last_slash_spec s) as [(Hu & Ha & Hn)|(h & Hu & Hs & Hn)].
  - rewrite Hu. cbn. done.
  - rewrite Hu. split.
    + intros Hd. exfalso.
      assert (is_empty (h +:+ "/") = false) as He by (by destruct h).
      rewrite He in Hd. cbn in Hd.
      destruct (all_slashes (h +:+ "/")) eqn:Hall; cbn in Hd.
      * by destruct h.
      * by apply all_slashes_rstrip in Hall.
    + intros Hno. exfalso. rewrite Hs, has_slash_append in Hno. done.
Qed.

(** For a path with a directory part, the kernel walks the directory part
    and then the last component. *)
Lemma components_dirname (s : string) :
  os_path_dirname s ≠ "" →
  components s = (components (os_path_dirname s)
                  ++ List.filter real_component [after_last_slash s])%list
  ∧ is_absolute (os_path_dirname s) = is_absolute s.
Proof.
  intros Hd.
  destruct (last_slash_spec s) as [(Hu & Ha & Hn)|(h & Hu & Hs & Hn)].
  { exfalso. apply Hd. by apply dirname_empty_iff. }
  assert ((components (upto_last_slash s)
           ++ List.filter real_component [after_last_slash s])%list
          = components s) as Hcs.
  { rewrite Hu. rewrite Hs at 2. unfold components.
    rewrite !split_slash_app, !List.filter_app.
    rewrite (split_slash_no_slash _ Hn). cbn. by rewrite app_nil_r. }
  assert (is_absolute (upto_last_slash s) = is_absolute s) as Habs.
  { rewrite Hu. rewrite Hs at 1.
    replace (h +:+ String "/" (after_last_slash s))
      with ((h +:+ "/") +:+ after_last_slash s) by (by rewrite append_assoc).
    symmetry. apply is_absolute_append. by destruct h. }
  unfold os_path_dirname in *.
  destruct (negb (is_empty (upto_last_slash s)) && negb (all_slashes (upto_last_slash s)))
    eqn:Hcase.
  - rewrite components_rstrip. split; [done|].
    rewrite <- Habs.
    destruct (rstrip_slash_spec (upto_last_slash s)) as [n Hn'].
    rewrite Hn' at 2. symmetry. by apply is_absolute_append.
  - done.
Qed.

(** ** Writing and reading back a file *)

(** Overwriting what a path names does not disturb the way to it: every
    key the walk passes is a directory, and the path names none. *)
Lemma walk_insert_target (t : gmap (list string) node) (k : list string) (n : node)
    (cs : list string) :
  ∀ cur, walk t cur cs = Ok k → node_at t k ≠ Some Dir →
         walk (<[k := n]> t) cur cs = Ok k.
Proof.
  induction cs as [|c cs IH]; intros cur Hw Hk; cbn in *; [done|].
  destruct (node_at t cur) as [[|?]|] eqn:Hcur; try discriminate.
  assert (k ≠ cur) as Hne by congruence.
  rewrite node_at_insert_ne, Hcur by done. by apply IH.
Qed.

Lemma node_at_insert_file (t : gmap (list string) node) (k : list string) (c : string) :
  node_at t k ≠ Some Dir → node_at (<[k := File c]> t) k = Some (File c).
Proof. destruct k; [done|]. intros _. cbn. apply lookup_insert_eq. Qed.

Lemma open_write_ok (w : world) (p : string) (k : list string) :
  resolve w p = Ok k → node_at (tree w) k ≠ Some Dir →
  open_write p w = (Ok k, set_tree (<[k := File ""]> (tree w)) w).
Proof.
  intros Hr Hk. unfold open_write. rewrite Hr.
  destruct (node_at (tree w) k) as [[|?]|]; done.
Qed.

Lemma open_write_raise (w : world) (p : string) (e : exn) :
  resolve w p = Raise e → open_write p w = (Raise e, w).
Proof. intros Hr. unfold open_write. by rewrite Hr. Qed.

(** *** [create_directories] *)

Lemma walk_extends (t t1 : gmap (list string) node) (cs : list string) :
  extends t t1 → ∀ cur k, walk t cur cs = Ok k → walk t1 cur cs = Ok k.
Proof.
  intros Hext. induction cs as [|c cs IH]; intros cur k Hw; cbn in *; [done|].
  destruct (node_at t cur) as [[|?]|] eqn:Hcur; try discriminate.
  rewrite (proj1 Hext _ Hcur). by apply IH.
Qed.

Lemma walk_start_dir (t : gmap (list string) node) (cs : list string) (cur k : list string) :
  walk t cur cs = Ok k → node_at t k = Some Dir → node_at t cur = Some Dir.
Proof.
  destruct cs as [|c cs]; cbn.
  - by intros [= ->].
  - by destruct (node_at t cur) as [[|?]|].
Qed.

(** Where the directory is already there, [os.makedirs] changes nothing. *)
Lemma mkdir_p_present (t : gmap (list string) node) (cs : list string) :
  ∀ cur k, walk t cur cs = Ok k → node_at t k = Some Dir → mkdir_p t cur cs = Ok t.
Proof.
  induction cs as [|c cs IH]; intros cur k Hw Hk; cbn in *; [done|].
  destruct (node_at t cur) as [[|?]|] eqn:Hcur; try discriminate.
  rewrite (walk_start_dir _ _ _ _ Hw Hk). by apply (IH _ k).
Qed.

Lemma dir_at_same (w w' : world) (p : string) :
  tree w' = tree w → cwd w' = cwd w → dir_at w p → dir_at w' p.
Proof.
  intros Ht Hc (k & Hr & Hk). exists k.
  by rewrite (resolve_same_tree _ _ _ Ht Hc), Ht.
Qed.

Lemma dir_at_extends (w w' : world) (p : string) :
  extends (tree w) (tree w') → cwd w' = cwd w → dir_at w p → dir_at w' p.
Proof.
  intros Hext Hc (k & Hr & Hk). exists k. split; [|by apply Hext].
  unfold resolve in *. destruct (is_empty p); [done|].
  rewrite Hc. by apply (walk_extends _ _ _ Hext).
Qed.

Lemma makedirs_dir_at (w w' : world) (p : string) :
  node_at (tree w) (cwd w) = Some Dir →
  os_makedirs_exist_ok p w = (Ok tt, w') →
  dir_at w' p ∧ extends (tree w) (tree w') ∧ cwd w' = cwd w.
Proof.
  intros Hcwd. unfold os_makedirs_exist_ok.
  destruct (is_empty p) eqn:Hemp; [discriminate|].
  destruct (mkdir_p _ _ _) as [t1|e] eqn:Hm; [|discriminate].
  intros [= <-].
  assert (node_at (tree w) (if is_absolute p then [] else cwd w) = Some Dir) as Hstart
    by (by destruct (is_absolute p)).
  destruct (mkdir_p_walk _ _ _ _ Hstart Hm) as (Hext & k & Hw & Hk).
  split; [|done]. exists k. unfold resolve. by rewrite Hemp.
Qed.

Lemma makedirs_present (w : world) (p : string) :
  dir_at w p → os_makedirs_exist_ok p w = (Ok tt, w).
Proof.
  intros (k & Hr & Hk). unfold os_makedirs_exist_ok, resolve in *.
  destruct (is_empty p); [discriminate|].
  rewrite (mkdir_p_present _ _ _ _ Hr Hk). by destruct w.
Qed.

Lemma create_directories_checked (paths : list string) (verbose : bool) (w : world) :
  create_directories paths verbose w = create_directories_body paths verbose w.
Proof. unfold create_directories. io_unfold. by rewrite ensure_arg_ok. Qed.

(** One turn of the loop: the directory is made, and the line is printed
    when [verbose] is set. *)
Lemma create_directories_step (p : string) (rest : list string) (verbose : bool)
    (w w' : world) :
  create_directories_body (p :: rest) verbose w = (Ok tt, w') →
  ∃ w1 w2, os_makedirs_exist_ok p w = (Ok tt, w1)
           ∧ tree w2 = tree w1 ∧ cwd w2 = cwd w1
           ∧ create_directories_body rest verbose w2 = (Ok tt, w').
Proof.
  cbn [create_directories_body]. io_unfold.
  destruct (os_makedirs_exist_ok p w) as [[[]|e] w1]; [|discriminate].
  destruct verbose; cbn; intros Hrest; eexists _, _; (split; [done|]);
    (split; [|split; [|exact Hrest]]); done.
Qed.

Lemma create_directories_present (paths : list string) (verbose : bool) :
  ∀ w, (∀ p, p ∈ paths → dir_at w p) →
       ∃ w', create_directories_body paths verbose w = (Ok tt, w')
             ∧ tree w' = tree w ∧ cwd w' = cwd w.
Proof.
  induction paths as [|p paths IH]; intros w Hall; [by exists w|].
  cbn [create_directories_body]. io_unfold.
  rewrite (makedirs_present w p) by (apply Hall; left).
  destruct verbose; cbn.
  - destruct (IH (add_log (LogRecord PRINTED "Dizin oluşturuldu: " (ArgPath p)) w))
      as (w' & Hrun & Ht & Hc).
    { intros q Hq. apply (dir_at_same w); [done..|]. apply Hall. by right. }
    by exists w'.
  - destruct (IH w) as (w' & Hrun & Ht & Hc).
    { intros q Hq. apply Hall. by right. }
    by exists w'.
Qed.

(** X2: every requested path names a directory once [create_directories]
    has returned, nothing that was there is lost, and calling it again succeeds
    and leaves the tree as it is. *)
Theorem create_directories_idempotent (paths : list string) (verbose : bool)
    (w w' : world) :
  node_at (tree w) (cwd w) = Some Dir →
  create_directories paths verbose w = (Ok tt, w') →
  (∀ p, p ∈ paths → dir_at w' p)
  ∧ extends (tree w) (tree w')
  ∧ ∃ w'', create_directories paths verbose w' = (Ok tt, w'') ∧ tree w'' = tree w'.
Proof.
  rewrite create_directories_checked. intros Hcwd Hrun.
  assert ((∀ p, p ∈ paths → dir_at w' p) ∧ extends (tree w) (tree w') ∧ cwd w' = cwd w)
    as (Hall & Hext & Hc).
  { revert w Hcwd Hrun. induction paths as [|p paths IH]; intros w Hcwd Hrun.
    - injection Hrun as <-. split; [|split; [apply extends_refl|done]].
      intros p Hp. by apply elem_of_nil in Hp.
    - destruct (create_directories_step _ _ _ _ _ Hrun)
        as (w1 & w2 & Hmk & Ht & Hcw & Hrest).
      destruct (makedirs_dir_at _ _ _ Hcwd Hmk) as (Hdir & Hext1 & Hc1).
      destruct (IH w2) as (Hall & Hext2 & Hc2); [|done|].
      { rewrite Ht, Hcw, Hc1. by apply Hext1. }
      rewrite Ht in Hext2. split; [|split].
      + intros q [->|Hq]%elem_of_cons; [|by apply Hall].
        apply (dir_at_extends w2); [by rewrite Ht|done|].
        by apply (dir_at_same w1).
      + by apply (extends_trans _ (tree w1)).
      + by rewrite Hc2, Hcw. }
  split; [done|]. split; [done|].
  rewrite create_directories_checked.
  destruct (create_directories_present paths verbose w' Hall) as (w'' & Hagain & Ht & _).
  by exists w''.
Qed.

Lemma create_directories_idempotent_witness :
  dir_at (snd (create_directories ["artifacts/data/raw"; "artifacts"] true world_proj))
         "artifacts/data/raw".
Proof.
  refine (proj1 (create_directories_idempotent ["artifacts/data/raw"; "artifacts"] true
                   world_proj _ _ _) "artifacts/data/raw" _).
  - reflexivity.
  - vm_compute. reflexivity.
  - left.
Defined.

(** After a write through [open_write] and [write_handle] the path names a
    regular file with the bytes written. *)
Lemma file_at_written (w : world) (p : string) (k : list string) (c : string) (l : list log_record) :
  resolve w p = Ok k → node_at (tree w) k ≠ Some Dir →
  file_at (World (<[k := File c]> (<[k := File ""]> (tree w))) (cwd w) (dir_size w) l) p c.
Proof.
  intros Hr Hk. exists k. unfold resolve in *. cbn.
  destruct (is_empty p); [done|]. rewrite insert_insert_eq. split.
  - by apply walk_insert_target.
  - by apply node_at_insert_file.
Qed.

Lemma read_file_at (w : world) (p c : string) :
  file_at w p c → read_file p w = (Ok c, w).
Proof. intros (k & Hr & Hk). unfold read_file. by rewrite Hr, Hk. Qed.

(** ** Binary artifacts *)

Section ArtifactProperties.
Context `{Pickling}.

Lemma save_object_checked (file_path : Path) (obj : pyobj) (w : world) :
  save_object file_path obj w = save_object_body file_path obj w.
Proof. unfold save_object. io_unfold. by rewrite ensure_arg_ok. Qed.

(** The check of [data: Any] raises before the body runs. *)
Lemma save_bin_annotation (data : pyobj) (path : Path) (w : world) :
  save_bin data path w = (Raise (TypeError any_message), w).
Proof.
  unfold save_bin. io_unfold.
  by rewrite (ensure_arg_raise _ _ (TypeError any_message)).
Qed.

(** The check of the return annotation [any] raises once the body has
    returned; what the body raises passes through. *)
Lemma load_bin_annotation (path : Path) (w : world) :
  load_bin path w =
    match load_bin_body path w with
    | (Ok _, w') => (Raise (TypeError builtin_any_message), w')
    | (Raise e, w') => (Raise e, w')
    end.
Proof.
  unfold load_bin. io_unfold. rewrite ensure_arg_ok by done.
  destruct (load_bin_body path w) as [[data|e] w']; [|done].
  by rewrite (ensure_return_raise _ _ (TypeError builtin_any_message)).
Qed.

Lemma save_bin_body_unresolved (data : pyobj) (path : Path) (w : world) (e : exn) :
  resolve w (fspath path) = Raise e →
  save_bin_body data path w =
    (Raise e,
     add_log (LogRecord ERROR "Binary dosya kaydedilirken hata oluştu: " (ArgExn e)) w).
Proof.
  intros Hr. unfold save_bin_body, try_except. io_unfold.
  by rewrite (open_write_raise _ _ _ Hr).
Qed.

Lemma save_bin_body_ok (data : pyobj) (path : Path) (w : world)
    (k : list string) (b : string) :
  resolve w (fspath path) = Ok k →
  node_at (tree w) k ≠ Some Dir →
  joblib_dumps data = Ok b →
  save_bin_body data path w =
    (Ok tt,
     World (<[k := File b]> (<[k := File ""]> (tree w))) (cwd w) (dir_size w)
           (logs w ++ [LogRecord INFO "Binary dosya şu konumda kaydedildi: "
                                 (ArgPath (fspath path))])).
Proof.
  intros Hr Hk Hd. unfold save_bin_body, try_except. io_unfold.
  rewrite (open_write_ok _ _ _ Hr Hk), Hd. reflexivity.
Qed.

Lemma load_bin_body_ok (path : Path) (w : world) (c : string) (data : pyobj) :
  file_at w (fspath path) c →
  joblib_loads c = Ok data →
  load_bin_body path w =
    (Ok data, add_log (LogRecord INFO "Binary dosya yüklendi: " (ArgPath (fspath path))) w).
Proof.
  intros Hf Hl. unfold load_bin_body. io_unfold.
  rewrite (read_file_at _ _ _ Hf), Hl. reflexivity.
Qed.

(** X14: without the annotation checks the two bodies do round-trip: for
    a path that can be opened for writing and an object that [joblib] dumps
    and loads back, the body of [load_bin] returns the object that the body
    of [save_bin] has just saved. *)
Lemma save_load_bin_bodies (data : pyobj) (path : Path) (w : world)
    (k : list string) (b : string) :
  resolve w (fspath path) = Ok k →
  node_at (tree w) k ≠ Some Dir →
  joblib_dumps data = Ok b →
  joblib_loads b = Ok data →
  ∃ w1 w2, save_bin_body data path w = (Ok tt, w1)
           ∧ load_bin_body path w1 = (Ok data, w2).
Proof.
  intros Hr Hk Hd Hl. eexists _, _. split.
  - by apply save_bin_body_ok.
  - apply load_bin_body_ok with (c := b); [|done].
    by apply file_at_written.
Qed.

(** C5, on the code: [save_bin] raises [TypeError] at the check of its
    [data: Any] annotation and leaves the world untouched, whatever the
    object and the path; [load_bin] never returns a value, since the check
    of its return annotation [any] raises whenever its body returns. *)
Theorem save_bin_load_bin_raise (data : pyobj) (path : Path) (w : world) :
  save_bin data path w = (Raise (TypeError any_message), w)
  ∧ ∀ w1, ∃ e w2, load_bin path w1 = (Raise e, w2).
Proof.
  split; [apply save_bin_annotation|].
  intros w1. rewrite load_bin_annotation.
  destruct (load_bin_body path w1) as [[r|e] w2]; eauto.
Qed.

(** C10: when [file_path] has no directory part, [os.path.dirname] gives
    the empty string, [os.makedirs] refuses it, and [save_object] raises
    before anything is written. *)
Theorem save_object_bare_filename (file_path : Path) (obj : pyobj) (w : world) :
  os_path_dirname (fspath file_path) = "" →
  save_object file_path obj w = (Raise FileNotFoundError, w).
Proof.
  intros Hd. rewrite save_object_checked.
  unfold save_object_body, try_except. io_unfold.
  rewrite Hd. reflexivity.
Qed.

(** With a directory part, [save_object] creates the directories and then
    opens the file in the directory it has just made sure of. *)
Lemma save_object_creates (file_path : Path) (obj : pyobj) (w w1 : world) (b : string) :
  pickle_dumps obj = Ok b →
  node_at (tree w) (cwd w) = Some Dir →
  os_makedirs_exist_ok (os_path_dirname (fspath file_path)) w = (Ok tt, w1) →
  (∀ k, resolve w1 (fspath file_path) = Ok k → node_at (tree w1) k ≠ Some Dir) →
  ∃ w', save_object file_path obj w = (Ok tt, w')
        ∧ file_at w' (fspath file_path) b
        ∧ ∃ d, resolve w' (os_path_dirname (fspath file_path)) = Ok d
               ∧ node_at (tree w') d = Some Dir.
Proof.
  intros Hp Hcwd Hmk Hnd.
  set (p := fspath file_path) in *.
  unfold os_makedirs_exist_ok in Hmk.
  destruct (is_empty (os_path_dirname p)) eqn:Hemp; [discriminate|].
  assert (os_path_dirname p ≠ "") as Hne by (intros E; by rewrite E in Hemp).
  destruct (components_dirname p Hne) as [Hcs Habs].
  set (start := if is_absolute (os_path_dirname p) then [] else cwd w) in *.
  destruct (mkdir_p (tree w) start (components (os_path_dirname p))) as [t1|e] eqn:Hm;
    [|discriminate].
  injection Hmk as <-.
  assert (node_at (tree w) start = Some Dir) as Hstart.
  { subst start. by destruct (is_absolute (os_path_dirname p)). }
  destruct (mkdir_p_walk _ _ _ _ Hstart Hm) as (Hext & d & Hwalk & Hdir).
  assert (p ≠ "") as Hp_ne.
  { intros E. rewrite E in Hne. by apply Hne. }
  assert (is_empty p = false) as Hp_emp by (by destruct p).
  assert (∃ k, resolve (set_tree t1 w) p = Ok k) as [k Hk].
  { unfold resolve. rewrite Hp_emp. cbn. rewrite <- Habs. fold start.
    rewrite Hcs. cbn.
    destruct (real_component (after_last_slash p)).
    - eexists. by apply walk_app.
    - rewrite app_nil_r. by eexists. }
  specialize (Hnd k Hk).
  exists (World (<[k := File b]> (<[k := File ""]> t1)) (cwd w) (dir_size w) (logs w)).
  split; [|split].
  - rewrite save_object_checked.
    unfold save_object_body, try_except, os_makedirs_exist_ok. io_unfold.
    fold p. rewrite Hemp. fold start. rewrite Hm.
    rewrite (open_write_ok _ _ _ Hk Hnd), Hp. reflexivity.
  - apply (file_at_written (set_tree t1 w) p k b (logs w)); done.
  - exists d. unfold resolve. rewrite Hemp. cbn. fold start.
    assert (d ≠ k) as Hdk by (intros ->; done).
    assert (∀ cs cur, walk t1 cur cs = Ok d →
              walk (<[k := File b]> (<[k := File ""]> t1)) cur cs = Ok d) as Hkeep.
    { rewrite insert_insert_eq.
      induction cs as [|c cs IH]; intros cur Hw; cbn in *; [done|].
      destruct (node_at t1 cur) as [[|?]|] eqn:Hc; try discriminate.
      assert (k ≠ cur) as Hkc by (intros ->; cbn in Hnd; congruence).
      rewrite node_at_insert_ne, Hc by done. by apply IH. }
    split; [by apply Hkeep|].
    rewrite insert_insert_eq, node_at_insert_ne; done.
Qed.

End ArtifactProperties.

Lemma save_object_bare_filename_witness :
  @save_object toy_pickling bare_path (Some "abc") world_proj
  = (Raise FileNotFoundError, world_proj).
Proof. apply (@save_object_bare_filename toy_pickling). reflexivity. Defined.



(** ** [read_yaml] *)

Section ReadYamlProperties.
Context `{YamlLoader}.

Lemma read_yaml_checked (path : Path) (w : world) :
  read_yaml path w = read_yaml_body path w.
Proof.
  unfold read_yaml. io_unfold. rewrite ensure_arg_ok by done.
  destruct (read_yaml_body path w) as [[r|e] w']; [|done].
  by rewrite ensure_return_ok.
Qed.

(** What [read_yaml] does with a file that loads to [v]. *)
Lemma read_yaml_loaded (path : Path) (w : world) (c : string) (v : pyvalue) :
  file_at w (fspath path) c →
  yaml_safe_load c = Ok v →
  read_yaml path w =
    (match Box_init v with
     | Ok b => Ok b
     | Raise (BoxValueError _) => Raise (ValueError empty_yaml_message)
     | Raise e => Raise e
     end, w).
Proof.
  intros Hf Hl. rewrite read_yaml_checked.
  unfold read_yaml_body, try_except. io_unfold.
  rewrite (read_file_at _ _ _ Hf), Hl.
  destruct (Box_init v) as [b|[]]; reflexivity.
Qed.

(** C3: a file that exists and whose content loads to nothing makes
    [read_yaml] raise [ValueError]; no mapping is returned and the world is
    left as it was. *)
Theorem read_yaml_empty_file (path : Path) (w : world) (c : string) :
  file_at w (fspath path) c →
  yaml_safe_load c = Ok PNone →
  read_yaml path w = (Raise (ValueError empty_yaml_message), w).
Proof. intros Hf Hl. by rewrite (read_yaml_loaded _ _ _ _ Hf Hl). Qed.

(** X1: a file whose top-level value is a mapping is returned as a box
    with the items of the mapping. *)
Theorem read_yaml_mapping (path : Path) (w : world) (c : string)
    (items : list (pyvalue * pyvalue)) :
  file_at w (fspath path) c →
  yaml_safe_load c = Ok (PDict items) →
  read_yaml path w = (Ok (MkBox items), w).
Proof. intros Hf Hl. by rewrite (read_yaml_loaded _ _ _ _ Hf Hl). Qed.

Lemma unpack_pair_not_box_error (e : pyvalue) (msg : string) :
  unpack_pair e ≠ Raise (BoxValueError msg)
  ∧ unpack_pair e ≠ Raise (ValueError empty_yaml_message).
Proof.
  destruct e as [| | |s|l|l|items]; cbn; try (split; discriminate).
  - destruct s as [|a [|b [|? ?]]]; cbn; split; discriminate.
  - destruct l as [|? [|? [|? ?]]]; cbn; split; discriminate.
  - destruct l as [|? [|? [|? ?]]]; cbn; split; discriminate.
  - destruct items as [|[? ?] [|[? ?] [|? ?]]]; cbn; split; discriminate.
Qed.

Lemma box_from_pairs_not_box_error (l : list pyvalue) :
  ∀ acc msg, box_from_pairs acc l ≠ Raise (BoxValueError msg)
             ∧ box_from_pairs acc l ≠ Raise (ValueError empty_yaml_message).
Proof.
  induction l as [|e l IH]; intros acc msg; cbn; [split; discriminate|].
  pose proof (unpack_pair_not_box_error e msg) as [Hu1 Hu2].
  destruct (unpack_pair e) as [[k v]|x]; [|split; congruence].
  destruct (hashable k); [apply IH|split; discriminate].
Qed.

(** C8, amended: when the top-level value of the file is a scalar,
    [read_yaml] raises the [ValueError] of the empty-file case.  When it is
    a sequence, [read_yaml] does not: the elements are read as key/value
    pairs, the box is returned when that works, and the error of the
    unpacking is raised unchanged when it does not. *)
Theorem read_yaml_non_mapping (path : Path) (w : world) (c : string) (v : pyvalue) :
  file_at w (fspath path) c →
  yaml_safe_load c = Ok v →
  (is_scalar v = true →
   read_yaml path w = (Raise (ValueError empty_yaml_message), w))
  ∧ (∀ l, v = PList l →
          read_yaml path w =
            (match box_from_pairs [] l with
             | Ok items => Ok (MkBox items)
             | Raise e => Raise e
             end, w)
          ∧ fst (read_yaml path w) ≠ Raise (ValueError empty_yaml_message)).
Proof.
  intros Hf Hl. rewrite (read_yaml_loaded _ _ _ _ Hf Hl). split.
  - by destruct v.
  - intros l ->. cbn.
    pose proof (box_from_pairs_not_box_error l []) as Hb.
    destruct (box_from_pairs [] l) as [items|e] eqn:He; [split; done|].
    destruct e; try (split; [reflexivity|discriminate]).
    + split; [reflexivity|]. cbn. intros E. injection E as ->.
      by apply (proj2 (Hb "")).
    + exfalso. by apply (proj1 (Hb msg)).
Qed.
End ReadYamlProperties.

Lemma read_yaml_mapping_witness :
  @read_yaml sample_yaml config_path (world_config "a: 1")
  = (Ok (MkBox [(PStr "a", PInt 1)]), world_config "a: 1").
Proof.
  apply (@read_yaml_mapping sample_yaml config_path (world_config "a: 1") "a: 1").
  - exists ["proj"; "config.yaml"]. split; reflexivity.
  - reflexivity.
Defined.

Lemma read_yaml_empty_file_witness :
  @read_yaml sample_yaml config_path (world_config "")
  = (Raise (ValueError empty_yaml_message), world_config "").
Proof.
  apply (@read_yaml_empty_file sample_yaml config_path (world_config "") "").
  - exists ["proj"; "config.yaml"]. split; reflexivity.
  - reflexivity.
Defined.

(** C8 as stated fails on sequences: a list of scalars makes [read_yaml]
    raise [TypeError], and an empty list or a list of pairs is returned as
    a box. *)
Lemma read_yaml_sequences :
  @read_yaml sample_yaml config_path (world_config "[1, 2, 3]")
  = (Raise (TypeError "cannot unpack non-iterable object"), world_config "[1, 2, 3]")
  ∧ @read_yaml sample_yaml config_path (world_config "[]")
    = (Ok (MkBox []), world_config "[]")
  ∧ @read_yaml sample_yaml config_path (world_config "[[a, 1], [b, 2]]")
    = (Ok (MkBox [(PStr "a", PInt 1); (PStr "b", PInt 2)]),
       world_config "[[a, 1], [b, 2]]").
Proof. vm_compute. done. Qed.

Lemma read_yaml_non_mapping_witness :
  @read_yaml sample_yaml config_path (world_config "42")
  = (Raise (ValueError empty_yaml_message), world_config "42").
Proof.
  refine (proj1 (@read_yaml_non_mapping sample_yaml config_path (world_config "42")
                   "42" (PInt 42) _ _) _).
  - exists ["proj"; "config.yaml"]. split; reflexivity.
  - reflexivity.
  - reflexivity.
Defined.

(** ** [evaluate_model] *)

Ltac eval_unfold :=
  unfold mbind, eval_mbind, eval_bind, mret, eval_mret, eval_ret, eval_lift, eval_raise.

Section EvaluateModelProperties.
Context `{Sklearn}.
Variables (X_train : dataset) (y_train : target) (X_test : dataset) (y_test : target).
Variable param : gmap string param_space.

Abbreviation run_models := (score_models X_train y_train X_test y_test param).
Abbreviation run_one := (score_one X_train y_train X_test y_test).
Abbreviation scored := (chain_scored X_train y_train X_test y_test).

Lemma score_one_inv (st st' : store) (model : loc) (para : param_space) (sc : score) :
  score_one X_train y_train X_test y_test model para st = Ok (sc, st') →
  ∃ e2 r2, scored st model para sc e2 r2
           ∧ st' = Store (<[model := OEstimator e2]> (heap st)) r2.
Proof.
  unfold score_one. intros Hs.
  destruct (heap st !! model) as [[e|?]|] eqn:Hm; try discriminate.
  destruct (search_best_params e para X_train y_train (rng_state st))
    as [[best r1]|?] eqn:Hsearch; try discriminate.
  destruct (set_params e best) as [e1|?] eqn:Hset; try discriminate.
  destruct (fit e1 X_train y_train r1) as [[e2 r2]|?] eqn:Hfit; try discriminate.
  destruct (predict e2 X_test) as [pred|?] eqn:Hpred; try discriminate.
  destruct (r2_score y_test pred) as [sc'|?] eqn:Hsc; try discriminate.
  injection Hs as <- <-. exists e2, r2. split; [|done].
  exists e, best, r1, e1, pred. done.
Qed.

Lemma scored_score_one (st : store) (model : loc) (para : param_space)
    (sc : score) (e2 : estimator) (r2 : rng) :
  scored st model para sc e2 r2 →
  score_one X_train y_train X_test y_test model para st
  = Ok (sc, Store (<[model := OEstimator e2]> (heap st)) r2).
Proof.
  intros (e & best & r1 & e1 & pred & Hm & Hsearch & Hset & Hfit & Hpred & Hsc).
  unfold score_one. by rewrite Hm, Hsearch, Hset, Hfit, Hpred, Hsc.
Qed.

(** One turn of the loop at an index of the dictionary is the lookup of the
    parameter space followed by the search, refit and scoring of that entry's
    model. *)
Lemma evaluate_step_entry (st : store) (models : loc) (items : list (string * loc))
    (report : gmap string score) (i : nat) (name : string) (model : loc) :
  heap st !! models = Some (ODict items) →
  items !! i = Some (name, model) →
  evaluate_step X_train y_train X_test y_test models param report i st =
    match param !! name with
    | None => Raise (KeyError name)
    | Some para =>
        match score_one X_train y_train X_test y_test model para st with
        | Ok (sc, st') => Ok (<[name := sc]> report, st')
        | Raise x => Raise x
        end
    end.
Proof.
  intros Hd Hi.
  assert (items.*2 !! i = Some model) as Hi2 by (by rewrite list_lookup_fmap, Hi).
  assert (items.*1 !! i = Some name) as Hi1 by (by rewrite list_lookup_fmap, Hi).
  unfold evaluate_step, read_dict, list_index, dict_getitem. eval_unfold.
  rewrite Hd. cbn. rewrite Hi2. cbn. rewrite Hd. cbn. rewrite Hi1. cbn.
  destruct (param !! name) as [para|]; [|done].
  unfold randomized_search_fit, call_set_params, call_fit, call_predict,
    read_estimator, write_estimator, with_rng, score_one.
  eval_unfold.
  destruct (heap st !! model) as [[e|?]|] eqn:Hm; try done.
  destruct (search_best_params e para X_train y_train (rng_state st))
    as [[best r1]|?]; cbn; [|done].
  rewrite Hm. cbn.
  destruct (set_params e best) as [e1|?]; cbn; [|done].
  rewrite lookup_insert_eq. cbn.
  destruct (fit e1 X_train y_train r1) as [[e2 r2]|?]; cbn; [|done].
  rewrite lookup_insert_eq. cbn.
  destruct (predict e2 X_test) as [pred|?]; cbn; [|done].
  destruct (r2_score y_test pred) as [sc|?]; cbn; [|done].
  assert (model ≠ models) as Hne by congruence.
  rewrite !lookup_insert_ne, Hd by done. cbn. rewrite Hi1. cbn.
  by rewrite insert_insert_eq.
Qed.


(** The search, refit and scoring of a model write to that model only; in
    particular they leave every dictionary where it is. *)
Lemma score_one_dict (st st' : store) (model : loc) (para : param_space) (sc : score)
    (m : loc) (d : list (string * loc)) :
  run_one model para st = Ok (sc, st') →
  heap st !! m = Some (ODict d) → heap st' !! m = Some (ODict d).
Proof.
  intros (e2 & r2 & (e & ? & ? & ? & ? & Hm & _) & ->)%score_one_inv Hd. cbn.
  rewrite lookup_insert_ne; [done|congruence].
Qed.

Lemma score_one_frame (st st' : store) (model : loc) (para : param_space) (sc : score)
    (l : loc) :
  run_one model para st = Ok (sc, st') → l ≠ model → heap st' !! l = heap st !! l.
Proof.
  intros (e2 & r2 & _ & ->)%score_one_inv Hne. cbn. by rewrite lookup_insert_ne.
Qed.

(** The loop over the indices of the dictionary visits its entries in
    order. *)
Lemma evaluate_loop_score_models (models : loc) (todo : list (string * loc)) :
  ∀ (seen : list (string * loc)) (report : gmap string score) (st : store),
    heap st !! models = Some (ODict (seen ++ todo)) →
    evaluate_loop X_train y_train X_test y_test models param report
                  (seq (length seen) (length todo)) st
    = run_models todo report st.
Proof.
  induction todo as [|[name model] todo IH]; intros seen report st Hd; [done|].
  cbn [length seq evaluate_loop score_models]. eval_unfold.
  rewrite (evaluate_step_entry st models _ report (length seen) name model Hd)
    by (by apply list_lookup_middle).
  destruct (param !! name) as [para|]; [|done].
  destruct (run_one model para st) as [[sc st1]|x] eqn:Hone; [|done].
  specialize (IH (seen ++ [(name, model)]) (<[name := sc]> report) st1).
  rewrite length_app, Nat.add_1_r, <- app_assoc in IH. apply IH.
  by apply (score_one_dict _ _ _ _ _ _ _ Hone).
Qed.

Lemma evaluate_model_score_models (models : loc) (items : list (string * loc))
    (st : store) :
  heap st !! models = Some (ODict items) →
  evaluate_model X_train y_train X_test y_test models param st
  = run_models items ∅ st.
Proof.
  intros Hd. unfold evaluate_model, read_dict. eval_unfold. rewrite Hd.
  rewrite (evaluate_loop_score_models models items [] ∅ st Hd).
  by destruct (run_models items ∅ st).
Qed.

Lemma score_models_app (a b : list (string * loc)) :
  ∀ (report : gmap string score) (st : store),
    run_models (a ++ b) report st =
      match run_models a report st with
      | Ok (r, s) => run_models b r s
      | Raise x => Raise x
      end.
Proof.
  induction a as [|[name model] a IH]; intros report st; [done|].
  cbn. destruct (param !! name) as [para|]; [|done].
  destruct (run_one model para st) as [[sc st1]|x]; [|done]. apply IH.
Qed.

Lemma score_models_dom (items : list (string * loc)) :
  ∀ (report report' : gmap string score) (st st' : store),
    run_models items report st = Ok (report', st') →
    dom report' = dom report ∪ list_to_set items.*1.
Proof.
  induction items as [|[name model] items IH]; intros report report' st st' Hr; cbn in *.
  - injection Hr as <- <-. set_solver.
  - destruct (param !! name) as [para|]; [|done].
    destruct (run_one model para st) as [[sc st1]|x]; [|done].
    rewrite (IH _ _ _ _ Hr), dom_insert_L. set_solver.
Qed.

Lemma score_models_other_keys (items : list (string * loc)) :
  ∀ (report report' : gmap string score) (st st' : store) (k : string),
    run_models items report st = Ok (report', st') →
    k ∉ items.*1 → report' !! k = report !! k.
Proof.
  induction items as [|[name model] items IH]; intros report report' st st' k Hr Hk;
    cbn in *.
  - by injection Hr as <- <-.
  - destruct (param !! name) as [para|]; [|done].
    destruct (run_one model para st) as [[sc st1]|x]; [|done].
    apply not_elem_of_cons in Hk as [Hne Hk].
    rewrite (IH _ _ _ _ _ Hr Hk). by rewrite lookup_insert_ne.
Qed.

Lemma score_models_frame (items : list (string * loc)) :
  ∀ (report report' : gmap string score) (st st' : store) (l : loc),
    run_models items report st = Ok (report', st') →
    l ∉ items.*2 → heap st' !! l = heap st !! l.
Proof.
  induction items as [|[name model] items IH]; intros report report' st st' l Hr Hl;
    cbn in *.
  - by injection Hr as <- <-.
  - destruct (param !! name) as [para|]; [|done].
    destruct (run_one model para st) as [[sc st1]|x] eqn:Hone; [|done].
    apply not_elem_of_cons in Hl as [Hne Hl].
    rewrite (IH _ _ _ _ _ Hr Hl). by apply (score_one_frame _ _ _ _ _ _ Hone).
Qed.

Lemma score_models_dict (items : list (string * loc)) :
  ∀ (report report' : gmap string score) (st st' : store) (m : loc) d,
    run_models items report st = Ok (report', st') →
    heap st !! m = Some (ODict d) → heap st' !! m = Some (ODict d).
Proof.
  induction items as [|[name model] items IH]; intros report report' st st' m d Hr Hd;
    cbn in *.
  - by injection Hr as <- <-.
  - destruct (param !! name) as [para|]; [|done].
    destruct (run_one model para st) as [[sc st1]|x] eqn:Hone; [|done].
    apply (IH _ _ _ _ _ _ Hr). by apply (score_one_dict _ _ _ _ _ _ _ Hone).
Qed.

(** What a successful run did at one of its entries. *)
Lemma score_models_entry (pre post : list (string * loc)) (name : string) (model : loc)
    (report report' : gmap string score) (st st' : store) :
  run_models (pre ++ (name, model) :: post) report st = Ok (report', st') →
  ∃ rep0 st0 para sc e2 r2,
    run_models pre report st = Ok (rep0, st0)
    ∧ param !! name = Some para
    ∧ scored st0 model para sc e2 r2
    ∧ run_models post (<[name := sc]> rep0)
        (Store (<[model := OEstimator e2]> (heap st0)) r2) = Ok (report', st').
Proof.
  rewrite score_models_app.
  destruct (run_models pre report st) as [[rep0 st0]|x]; [|done].
  cbn. destruct (param !! name) as [para|]; [|done].
  destruct (run_one model para st0) as [[sc st1]|x] eqn:Hone; [|done].
  apply score_one_inv in Hone as (e2 & r2 & Hsc & ->).
  intros Hpost. by exists rep0, st0, para, sc, e2, r2.
Qed.

(** An entry without a parameter space stops the run, at the latest when
    the run reaches it. *)
Lemma score_models_missing_key (items : list (string * loc)) (name : string) :
  ∀ (report : gmap string score) (st : store),
    name ∈ items.*1 → param !! name = None →
    ∃ e, run_models items report st = Raise e.
Proof.
  induction items as [|[name' model] items IH]; intros report st Hin Hnone; cbn in *.
  - by apply elem_of_nil in Hin.
  - destruct (param !! name') as [para|] eqn:Hp; [|by eexists].
    destruct (run_one model para st) as [[sc st1]|x]; [|by eexists].
    apply IH; [|done]. apply elem_of_cons in Hin as [->|Hin]; [congruence|done].
Qed.

(** The last entry that holds a given object. *)
Lemma last_entry_of (items : list (string * loc)) (model : loc) :
  model ∈ items.*2 →
  ∃ pre name post, items = pre ++ (name, model) :: post ∧ model ∉ post.*2.
Proof.
  induction items as [|[name' model'] items IH]; cbn; intros Hin.
  - by apply elem_of_nil in Hin.
  - destruct (decide (model ∈ items.*2)) as [Hlater|Hnot].
    + destruct (IH Hlater) as (pre & name & post & -> & Hpost).
      by exists ((name', model') :: pre), name, post.
    + apply elem_of_cons in Hin as [->|Hin]; [|done].
      by exists [], name', items.
Qed.

(** C1: when [param] has an entry for every key of [models],
    [evaluate_model] is the procedure of the specification: the entries of
    the dictionary are taken in order, and for each the search, the refit
    and the scoring are run in the state the earlier entries left.  The
    keys of a returned report are exactly the keys of [models], and the
    value under each name is the score of that model computed this way.
    The call returns a report whenever search, refit and scoring succeed
    for each model in the state in which the loop reaches it. *)
Theorem evaluate_model_report (st : store) (models : loc) (items : list (string * loc)) :
  heap st !! models = Some (ODict items) →
  NoDup items.*1 →
  (∀ name, name ∈ items.*1 → is_Some (param !! name)) →
  evaluate_model X_train y_train X_test y_test models param st = run_models items ∅ st
  ∧ (∀ report st',
       evaluate_model X_train y_train X_test y_test models param st = Ok (report, st') →
       dom report = list_to_set items.*1
       ∧ ∀ pre name model post,
           items = pre ++ (name, model) :: post →
           ∃ rep0 st0 para sc e2 r2,
             run_models pre ∅ st = Ok (rep0, st0)
             ∧ param !! name = Some para
             ∧ scored st0 model para sc e2 r2
             ∧ report !! name = Some sc)
  ∧ ((∀ pre name model post rep0 st0 para,
        items = pre ++ (name, model) :: post →
        run_models pre ∅ st = Ok (rep0, st0) →
        param !! name = Some para →
        ∃ sc e2 r2, scored st0 model para sc e2 r2) →
     ∃ report st',
       evaluate_model X_train y_train X_test y_test models param st = Ok (report, st')).
Proof.
  intros Hd Hnodup Hparam.
  rewrite (evaluate_model_score_models models items st Hd).
  split; [done|]. split.
  - intros report st' Hrun. split.
    + rewrite (score_models_dom _ _ _ _ _ Hrun), dom_empty_L. set_solver.
    + intros pre name model post ->.
      destruct (score_models_entry _ _ _ _ _ _ _ _ Hrun)
        as (rep0 & st0 & para & sc & e2 & r2 & Hpre & Hp & Hsc & Hpost).
      exists rep0, st0, para, sc, e2, r2. repeat split; try done.
      rewrite (score_models_other_keys _ _ _ _ _ name Hpost).
      * apply lookup_insert_eq.
      * rewrite fmap_app, fmap_cons in Hnodup. cbn in Hnodup.
        apply NoDup_app in Hnodup as (_ & _ & Hnodup).
        by apply NoDup_cons in Hnodup as [? _].
  - clear Hd Hnodup. revert Hparam.
    induction items as [|[name model] pre IH] using rev_ind; intros Hparam Hall.
    + by exists ∅, st.
    + destruct IH as (rep0 & st0 & Hpre).
      { intros n Hn. apply Hparam. rewrite fmap_app. set_solver. }
      { intros pre' n m post r0 s0 pa Heq. apply (Hall pre' n m (post ++ [(name, model)])).
        by rewrite Heq, <- app_assoc. }
      destruct (Hparam name) as [para Hp].
      { rewrite fmap_app. set_solver. }
      destruct (Hall pre name model [] rep0 st0 para eq_refl Hpre Hp)
        as (sc & e2 & r2 & Hsc).
      rewrite score_models_app, Hpre. cbn. rewrite Hp.
      rewrite (scored_score_one _ _ _ _ _ _ Hsc). by eexists _, _.
Qed.

(** C6, amended: a key of [models] without an entry in [param] leaves
    [evaluate_model] without a report, in every state: the call raises.
    When the loop reaches the model under that key, the earlier entries
    having been scored, what it raises is the [KeyError] of the lookup of
    that model's parameter space. *)
Theorem evaluate_model_missing_key (st : store) (models : loc)
    (items : list (string * loc)) (name : string) :
  heap st !! models = Some (ODict items) →
  name ∈ items.*1 →
  param !! name = None →
  (∃ e, evaluate_model X_train y_train X_test y_test models param st = Raise e)
  ∧ (∀ pre model post rep0 st0,
       items = pre ++ (name, model) :: post →
       run_models pre ∅ st = Ok (rep0, st0) →
       evaluate_model X_train y_train X_test y_test models param st
       = Raise (KeyError name)).
Proof.
  intros Hd Hin Hnone.
  rewrite (evaluate_model_score_models models items st Hd). split.
  - by apply (score_models_missing_key items name).
  - intros pre model post rep0 st0 -> Hpre.
    rewrite score_models_app, Hpre. cbn. by rewrite Hnone.
Qed.

(** C9: a successful call leaves the [models] dictionary as it was and
    changes no object outside it.  Every model object of the dictionary has
    been changed in place: for the last entry that holds it, the search ran
    on it in the state the loop had reached, its parameters were set to the
    best ones found, and it was refitted on the training data; that refitted
    estimator is what the object holds afterwards. *)
Theorem evaluate_model_mutates_models (st st' : store) (models : loc)
    (items : list (string * loc)) (report : gmap string score) :
  heap st !! models = Some (ODict items) →
  evaluate_model X_train y_train X_test y_test models param st = Ok (report, st') →
  heap st' !! models = Some (ODict items)
  ∧ (∀ name model, (name, model) ∈ items →
       ∃ pre name' post rep0 st0 para sc e2 r2,
         items = pre ++ (name', model) :: post
         ∧ (model ∉ post.*2)
         ∧ run_models pre ∅ st = Ok (rep0, st0)
         ∧ param !! name' = Some para
         ∧ scored st0 model para sc e2 r2
         ∧ heap st' !! model = Some (OEstimator e2))
  ∧ (∀ l, l ∉ items.*2 → heap st' !! l = heap st !! l).
Proof.
  intros Hd. rewrite (evaluate_model_score_models models items st Hd). intros Hrun.
  split; [by apply (score_models_dict _ _ _ _ _ _ _ Hrun)|]. split.
  - intros name model Hin.
    destruct (last_entry_of items model) as (pre & name' & post & Heq & Hlast).
    { apply list_elem_of_fmap. by exists (name, model). }
    subst items.
    destruct (score_models_entry _ _ _ _ _ _ _ _ Hrun)
      as (rep0 & st0 & para & sc & e2 & r2 & Hpre & Hp & Hsc & Hpost).
    exists pre, name', post, rep0, st0, para, sc, e2, r2. repeat split; try done.
    rewrite (score_models_frame _ _ _ _ _ model Hpost Hlast). cbn.
    apply lookup_insert_eq.
  - intros l Hl. by apply (score_models_frame _ _ _ _ _ l Hrun).
Qed.
End EvaluateModelProperties.

(** The toy models of [toy_store], searched, refitted and scored. *)
Lemma evaluate_model_report_witness :
  @evaluate_model toy_sklearn toy_X_train toy_y_train toy_X_test toy_y_test
    0%nat toy_param toy_store
  = @score_models toy_sklearn toy_X_train toy_y_train toy_X_test toy_y_test
      toy_param toy_items ∅ toy_store.
Proof.
  refine (proj1 (@evaluate_model_report toy_sklearn toy_X_train toy_y_train
                   toy_X_test toy_y_test toy_param toy_store 0%nat toy_items _ _ _)).
  - reflexivity.
  - unfold toy_items. cbn.
    repeat (apply NoDup_cons; split; [set_solver|]). apply NoDup_nil_2.
  - intros name Hin.
    assert (name = "ridge" ∨ name = "lasso") as [-> | ->]
      by (unfold toy_items in Hin; set_solver);
      eexists; reflexivity.
Defined.

(** C6 as stated fails when an earlier model stops the loop first: with
    two training rows the three-fold search of ["ridge"] raises
    [ValueError], and the lookup for ["lasso"], which has no parameter space,
    is never reached. *)
Lemma evaluate_model_earlier_failure :
  toy_param_ridge_only !! "lasso" = None
  ∧ @evaluate_model toy_sklearn [1; 2] [2; 4] toy_X_test toy_y_test
      0%nat toy_param_ridge_only toy_store
    = Raise (ValueError
        "Cannot have number of splits n_splits=3 greater than the number of samples").
Proof. split; vm_compute; reflexivity. Qed.

Lemma evaluate_model_missing_key_witness :
  @evaluate_model toy_sklearn toy_X_train toy_y_train toy_X_test toy_y_test
    0%nat toy_param_ridge_only toy_store
  = Raise (KeyError "lasso").
Proof.
  refine (proj2 (@evaluate_model_missing_key toy_sklearn toy_X_train toy_y_train
                   toy_X_test toy_y_test toy_param_ridge_only toy_store 0%nat
                   toy_items "lasso" _ _ _)
            [("ridge", 1%nat)] 2%nat []
            {["ridge" := -1]} toy_store_ridge _ _).
  - reflexivity.
  - unfold toy_items. set_solver.
  - vm_compute. reflexivity.
  - reflexivity.
  - vm_compute. reflexivity.
Defined.

Lemma evaluate_model_mutates_models_witness :
  @heap toy_sklearn toy_store_after !! 0%nat = Some (@ODict toy_sklearn toy_items)
  ∧ @heap toy_sklearn toy_store_after !! 1%nat
    = Some (@OEstimator toy_sklearn (ToyEstimator 1 (Some 13))).
Proof.
  split; [|reflexivity].
  refine (proj1 (@evaluate_model_mutates_models toy_sklearn toy_X_train toy_y_train
                   toy_X_test toy_y_test toy_param toy_store toy_store_after 0%nat
                   toy_items (list_to_map [("ridge", -1); ("lasso", -685)]) _ _)).
  - reflexivity.
  - vm_compute. reflexivity.
Defined.

(** ** The JSON encoder and decoder *)

Lemma pyvalue_nested_ind (P : pyvalue → Prop) :
  P PNone → (∀ b, P (PBool b)) → (∀ z, P (PInt z)) → (∀ s, P (PStr s)) →
  (∀ l, Forall P l → P (PList l)) →
  (∀ l, Forall P l → P (PTuple l)) →
  (∀ items, Forall (λ kv : pyvalue * pyvalue, P kv.2) items → P (PDict items)) →
  ∀ v, P v.
Proof.
  intros HNone HBool HInt HStr HList HTuple HDict.
  fix IH 1. intros [| b | z | s | l | l | items].
  - exact HNone.
  - apply HBool.
  - apply HInt.
  - apply HStr.
  - apply HList. induction l as [|x l IHl]; constructor; [apply IH | exact IHl].
  - apply HTuple. induction l as [|x l IHl]; constructor; [apply IH | exact IHl].
  - apply HDict. induction items as [|[k x] items IHl]; constructor; [apply IH | exact IHl].
Qed.

Lemma skip_ws_spaces (n : nat) (t : string) : skip_ws (spaces_onto n t) = skip_ws t.
Proof. induction n as [|n IH]; [done|]. exact IH. Qed.

Lemma skip_ws_newline_indent (indent level : nat) (t : string) :
  skip_ws (newline_indent indent level t) = skip_ws t.
Proof. unfold newline_indent. cbn. apply skip_ws_spaces. Qed.

Lemma skip_ws_head (c : ascii) (t : string) :
  is_ws c = false → skip_ws (String c t) = String c t.
Proof. intros Hc. cbn. by rewrite Hc. Qed.

(** *** Strings *)

Lemma scan_string_escape_char (c : ascii) (t : string) :
  scan_string (escape_char c t) = prepend c (scan_string t).
Proof. destruct c as [[] [] [] [] [] [] [] []]; reflexivity. Qed.

Lemma scan_string_escape (s rest : string) :
  scan_string (escape_onto s (String quote rest)) = Ok (s, rest).
Proof.
  induction s as [|c s IH]; [done|].
  cbn [escape_onto]. rewrite scan_string_escape_char, IH. done.
Qed.

(** *** Integers *)

Lemma scan_digits_stop (s : string) :
  not_digit_head s = true → scan_digits s = (EmptyString, s).
Proof. destruct s as [|c s]; [done|]. cbn. by intros ->%negb_true_iff. Qed.

Lemma scan_digits_uint (d : Decimal.uint) (rest : string) :
  not_digit_head rest = true →
  scan_digits (NilEmpty.string_of_uint d +:+ rest) = (NilEmpty.string_of_uint d, rest).
Proof.
  intros Hrest.
  induction d as [|d IH|d IH|d IH|d IH|d IH|d IH|d IH|d IH|d IH|d IH];
    cbn [NilEmpty.string_of_uint]; rewrite ?append_nil_l, ?append_cons;
    [by apply scan_digits_stop|..]; cbn; by rewrite IH.
Qed.

Lemma to_uint_not_D0 (p : positive) (d : Decimal.uint) : Pos.to_uint p ≠ Decimal.D0 d.
Proof.
  intros Hp.
  assert (Decimal.unorm (Pos.to_uint p) = Pos.to_uint p) as Hnorm.
  { rewrite <- DecimalPos.Unsigned.to_of, DecimalPos.Unsigned.of_to. reflexivity. }
  rewrite Hp, DecimalFacts.unorm_D0 in Hnorm.
  destruct d as [|d|d|d|d|d|d|d|d|d|d];
    [by apply (DecimalPos.Unsigned.to_uint_nonzero p)|..];
    (match type of Hnorm with
     | Decimal.unorm ?u = _ =>
         pose proof (DecimalFacts.nb_digits_unorm u ltac:(discriminate)) as Hlen
     end; rewrite Hnorm in Hlen; cbn in Hlen; lia).
Qed.

Lemma of_uint_to_uint (p : positive) : Z.of_uint (Pos.to_uint p) = Z.pos p.
Proof. unfold Z.of_uint. by rewrite DecimalPos.Unsigned.of_to. Qed.

(** The text of a positive number: digits, the first of them not zero. *)
Lemma pos_text (p : positive) (rest : string) :
  not_digit_head rest = true →
  ∃ c t, NilEmpty.string_of_uint (Pos.to_uint p) = String c t
         ∧ is_digit c = true ∧ Ascii.eqb c "0" = false
         ∧ scan_digits (String c t +:+ rest) = (String c t, rest)
         ∧ NilZero.uint_of_string (String c t) = Some (Pos.to_uint p).
Proof.
  intros Hrest.
  pose proof (scan_digits_uint (Pos.to_uint p) rest Hrest) as Hscan.
  pose proof (NilZero.usu (Pos.to_uint p) (DecimalPos.Unsigned.to_uint_nonnil p)) as Husu.
  unfold NilZero.string_of_uint in Husu.
  pose proof (to_uint_not_D0 p) as Hhead.
  pose proof (DecimalPos.Unsigned.to_uint_nonnil p) as Hnil.
  destruct (Pos.to_uint p) as [|d|d|d|d|d|d|d|d|d|d] eqn:Hu;
    try done; try (by exfalso; eapply Hhead);
    cbn [NilEmpty.string_of_uint] in *; eexists _, _; done.
Qed.

Lemma scan_number_int (z : Z) (rest : string) :
  number_follows rest = true →
  scan_number (py_int_str z +:+ rest) = Ok (z, rest).
Proof.
  intros [Hd Hf%negb_true_iff]%andb_true_iff.
  unfold py_int_str. destruct z as [|p|p]; cbn [Z.to_int NilZero.string_of_int].
  - change (NilZero.string_of_uint (Decimal.D0 Decimal.Nil)) with "0".
    rewrite append_cons, append_nil_l. unfold scan_number. cbn. by rewrite Hf.
  - destruct (pos_text p rest Hd) as (c & t & Htext & Hdig & Hzero & Hscan & Hval).
    assert (NilZero.string_of_uint (Pos.to_uint p) = String c t) as ->.
    { unfold NilZero.string_of_uint. rewrite <- Htext.
      by destruct (Pos.to_uint p) eqn:E; [destruct (DecimalPos.Unsigned.to_uint_nonnil p)|..]. }
    unfold scan_number. rewrite append_cons.
    assert (Ascii.eqb c "-" = false) as ->.
    { destruct (Ascii.eqb_spec c "-") as [->|]; done. }
    rewrite Hzero, <- append_cons, Hscan, Hval, Hf.
    by rewrite of_uint_to_uint.
  - destruct (pos_text p rest Hd) as (c & t & Htext & Hdig & Hzero & Hscan & Hval).
    assert (NilZero.string_of_uint (Pos.to_uint p) = String c t) as ->.
    { unfold NilZero.string_of_uint. rewrite <- Htext.
      by destruct (Pos.to_uint p) eqn:E; [destruct (DecimalPos.Unsigned.to_uint_nonnil p)|..]. }
    unfold scan_number. rewrite (append_cons "-").
    change (Ascii.eqb "-" "-") with true. cbv beta iota.
    rewrite append_cons, Hzero, <- append_cons, Hscan, Hval, Hf.
    by rewrite of_uint_to_uint.
Qed.

Lemma number_head_branches (c : ascii) :
  number_head c = true →
  Ascii.eqb c quote = false ∧ Ascii.eqb c "{" = false ∧ Ascii.eqb c "[" = false
  ∧ Ascii.eqb c "n" = false ∧ Ascii.eqb c "t" = false ∧ Ascii.eqb c "f" = false
  ∧ is_ws c = false.
Proof. destruct c as [[] [] [] [] [] [] [] []]; cbn; intros; done. Qed.

Lemma py_int_str_head (z : Z) :
  ∃ c t, py_int_str z = String c t ∧ number_head c = true.
Proof.
  unfold py_int_str. destruct z as [|p|p]; cbn [Z.to_int NilZero.string_of_int].
  - by eexists _, _.
  - destruct (pos_text p "" eq_refl) as (c & t & Htext & Hdig & _).
    exists c, t. split.
    + unfold NilZero.string_of_uint. rewrite <- Htext.
      by destruct (Pos.to_uint p) eqn:E; [destruct (DecimalPos.Unsigned.to_uint_nonnil p)|..].
    + unfold number_head. by rewrite Hdig, orb_true_r.
  - by eexists _, _.
Qed.

(** *** Values *)

Lemma number_head_value_head (c : ascii) : number_head c = true → value_head c = true.
Proof. destruct c as [[] [] [] [] [] [] [] []]; cbn; intros; done. Qed.

Lemma render_head (indent level : nat) (v : pyvalue) (tail : string) :
  ∃ c t, render indent level v tail = String c t ∧ value_head c = true.
Proof.
  destruct v as [|[]|z|s|[|x l]|[|x l]|[|kv items]]; cbn [render];
    rewrite ?append_cons; try (by eexists _, _).
  destruct (py_int_str_head z) as (c & t & -> & Hc).
  rewrite append_cons. exists c, (t +:+ tail). split; [done|].
  by apply number_head_value_head.
Qed.

Lemma value_head_not_ws (c : ascii) : value_head c = true → is_ws c = false.
Proof. unfold value_head. destruct (is_ws c); done. Qed.

Lemma skip_ws_render (indent level : nat) (v : pyvalue) (tail : string) :
  skip_ws (render indent level v tail) = render indent level v tail.
Proof.
  destruct (render_head indent level v tail) as (c & t & -> & Hc).
  by apply skip_ws_head, value_head_not_ws.
Qed.

Lemma terminator_number_follows (rest : string) :
  terminator rest = true → number_follows rest = true.
Proof.
  destruct rest as [|c rest]; [done|]. cbn.
  destruct c as [[] [] [] [] [] [] [] []]; cbn; done.
Qed.

Lemma json_parse_number (fuel : nat) (z : Z) (rest : string) :
  terminator rest = true →
  json_parse (S fuel) (py_int_str z +:+ rest) = Ok (PInt z, rest).
Proof.
  intros Hrest.
  pose proof (scan_number_int z rest (terminator_number_follows _ Hrest)) as Hscan.
  destruct (py_int_str_head z) as (c & t & Htext & Hc).
  rewrite Htext in *. rewrite append_cons in *.
  destruct (number_head_branches c Hc) as (H1 & H2 & H3 & H4 & H5 & H6 & _).
  cbn [json_parse]. rewrite H1, H2, H3, H4, H5, H6.
  unfold number_head in Hc. rewrite Hc, Hscan. done.
Qed.

Lemma key_eqb_str (k : pyvalue) (key : string) :
  json_key_text k ≠ key → key_eqb k (PStr key) = false.
Proof.
  destruct k as [| | |s| | |]; try done. cbn.
  intros Hne. by apply String.eqb_neq.
Qed.

Lemma dict_setitem_fresh (acc : list (pyvalue * pyvalue)) (key : string) (v : pyvalue) :
  key ∉ key_texts acc →
  dict_setitem acc (PStr key) v = acc ++ [(PStr key, v)].
Proof.
  induction acc as [|[k' v'] acc IH]; [done|]. cbn.
  intros [Hne Hin]%not_elem_of_cons.
  rewrite key_eqb_str by done. by rewrite IH.
Qed.

Lemma terminator_close (indent level : nat) (t : string) :
  terminator (newline_indent indent level t) = true.
Proof. done. Qed.

Lemma sum_cons (a : nat) (l : list nat) : list_sum (a :: l) = (a + list_sum l)%nat.
Proof. done. Qed.

Lemma skip_ws_render_sequence {A} (one : A → string → string) (sep : string → string)
    (x : A) (l : list A) (close : string) :
  (∀ a t, skip_ws (one a t) = one a t) →
  skip_ws (render_sequence one sep (x :: l) close) = render_sequence one sep (x :: l) close.
Proof. intros Hone. cbn [render_sequence]. apply Hone. Qed.

Lemma render_sequence_cons2 {A} (one : A → string → string) (sep : string → string)
    (x y : A) (l : list A) (close : string) :
  render_sequence one sep (x :: y :: l) close
  = one x (String "," (sep (render_sequence one sep (y :: l) close))).
Proof. done. Qed.

Lemma parse_elements_sequence (indent level : nat) (l : list pyvalue) :
  Forall decodes l →
  forallb json_plain l = true →
  l ≠ [] →
  ∀ (fuel : nat) (acc : list pyvalue) (rest : string),
    (list_sum (map (λ x, S (weight x)) l) ≤ fuel)%nat →
    parse_elements fuel
      (render_sequence (render indent (S level)) (newline_indent indent (S level)) l
         (newline_indent indent level (String "]" rest))) acc
    = Ok (PList (acc ++ l), rest).
Proof.
  induction l as [|x l IH]; [done|].
  intros Hall Hplain _ fuel acc rest Hfuel.
  apply Forall_cons in Hall as [Hx Hall].
  cbn [forallb] in Hplain. apply andb_true_iff in Hplain as [Hpx Hpl].
  cbn [map] in Hfuel. rewrite sum_cons in Hfuel.
  destruct fuel as [|fuel]; [lia|].
  destruct l as [|y l].
  - cbn [render_sequence parse_elements].
    rewrite (Hx Hpx fuel indent (S level)) by (done || lia).
    rewrite skip_ws_newline_indent. cbn. done.
  - rewrite render_sequence_cons2. cbn [parse_elements].
    rewrite (Hx Hpx fuel indent (S level)) by (done || lia).
    rewrite (skip_ws_head ","%char) by done.
    change (Ascii.eqb "," "]") with false. change (Ascii.eqb "," ",") with true.
    cbv beta iota.
    rewrite skip_ws_newline_indent.
    rewrite skip_ws_render_sequence by (intros; apply skip_ws_render).
    rewrite (IH Hall Hpl ltac:(done) fuel (acc ++ [x]) rest ltac:(lia)).
    by rewrite <- app_assoc.
Qed.

Lemma skip_ws_render_member (indent level : nat) (kv : pyvalue * pyvalue) (t : string) :
  skip_ws (render_member (render indent level) kv t)
  = render_member (render indent level) kv t.
Proof. done. Qed.

Lemma parse_members_sequence (indent level : nat) (items : list (pyvalue * pyvalue)) :
  Forall (λ kv : pyvalue * pyvalue, decodes kv.2) items →
  forallb (plain_entry json_plain) items = true →
  items ≠ [] →
  ∀ (fuel : nat) (acc : list (pyvalue * pyvalue)) (rest : string),
    NoDup (key_texts (acc ++ items)) →
    (list_sum (map (λ kv : pyvalue * pyvalue, S (weight kv.2)) items) ≤ fuel)%nat →
    parse_members fuel
      (render_sequence (render_member (render indent (S level)))
         (newline_indent indent (S level)) items
         (newline_indent indent level (String "}" rest))) acc
    = Ok (PDict (acc ++ items), rest).
Proof.
  induction items as [|[k v] items IH]; [done|].
  intros Hall Hplain _ fuel acc rest Hnodup Hfuel.
  apply Forall_cons in Hall as [Hv Hall]. cbn [snd] in Hv.
  cbn [forallb] in Hplain. apply andb_true_iff in Hplain as [Hpx Hpl].
  unfold plain_entry in Hpx. cbn [fst snd] in Hpx.
  destruct k as [| | |key| | |]; try discriminate.
  cbn [map] in Hfuel. rewrite sum_cons in Hfuel. cbn [snd] in Hfuel.
  destruct fuel as [|fuel]; [lia|].
  assert (dict_setitem acc (PStr key) v = acc ++ [(PStr key, v)]) as Hset.
  { apply dict_setitem_fresh. unfold key_texts in Hnodup.
    rewrite map_app in Hnodup. apply NoDup_app in Hnodup as (_ & Hdisj & _).
    intros Hin. apply (Hdisj key Hin). cbn. left. }
  assert (acc ++ (PStr key, v) :: items = (acc ++ [(PStr key, v)]) ++ items) as Hassoc
    by (by rewrite <- app_assoc).
  destruct items as [|y items].
  - cbn [render_sequence parse_members]. unfold render_member at 1, render_string.
    cbn [fst snd json_key_text json_key].
    change (Ascii.eqb quote quote) with true. cbv beta iota.
    rewrite scan_string_escape.
    rewrite (skip_ws_head ":"%char) by done.
    change (Ascii.eqb ":" ":") with true. cbv beta iota.
    change (skip_ws (String " " ?t)) with (skip_ws t).
    rewrite skip_ws_render.
    rewrite (Hv Hpx fuel indent (S level)) by (done || lia).
    rewrite skip_ws_newline_indent, Hset. cbn. done.
  - rewrite render_sequence_cons2. cbn [parse_members].
    unfold render_member at 1, render_string.
    cbn [fst snd json_key_text json_key].
    change (Ascii.eqb quote quote) with true. cbv beta iota.
    rewrite scan_string_escape.
    rewrite (skip_ws_head ":"%char) by done.
    change (Ascii.eqb ":" ":") with true. cbv beta iota.
    change (skip_ws (String " " ?t)) with (skip_ws t).
    rewrite skip_ws_render.
    rewrite (Hv Hpx fuel indent (S level)) by (done || lia).
    rewrite (skip_ws_head ","%char) by done.
    change (Ascii.eqb "," "}") with false. change (Ascii.eqb "," ",") with true.
    cbv beta iota zeta.
    rewrite skip_ws_newline_indent.
    rewrite skip_ws_render_sequence by (intros; apply skip_ws_render_member).
    rewrite Hset.
    rewrite (IH Hall Hpl ltac:(done) fuel (acc ++ [(PStr key, v)]) rest);
      [by rewrite <- app_assoc| by rewrite <- Hassoc | lia].
Qed.

Lemma strip_prefix_append (word rest : string) : strip_prefix word (word +:+ rest) = Some rest.
Proof.
  induction word as [|c word IH]; [by destruct rest|].
  rewrite append_cons. cbn. by rewrite Ascii.eqb_refl.
Qed.

(** Every plain document is read back from its text. *)
Lemma decodes_all (v : pyvalue) : decodes v.
Proof.
  induction v as [|b|z|s|l IH|l IH|items IH] using pyvalue_nested_ind;
    intros Hplain fuel indent level rest Hfuel Hrest;
    (destruct fuel as [|fuel]; [cbn in Hfuel; lia|]).
  - cbn [render]. change "null" with (String "n" "ull"). rewrite append_cons.
    cbn [json_parse]. change (Ascii.eqb "n" quote) with false.
    change (Ascii.eqb "n" "{") with false. change (Ascii.eqb "n" "[") with false.
    change (Ascii.eqb "n" "n") with true. cbv beta iota.
    by rewrite strip_prefix_append.
  - destruct b; cbn [render].
    + change "true" with (String "t" "rue"). rewrite append_cons.
      cbn [json_parse]. change (Ascii.eqb "t" quote) with false.
      change (Ascii.eqb "t" "{") with false. change (Ascii.eqb "t" "[") with false.
      change (Ascii.eqb "t" "n") with false. change (Ascii.eqb "t" "t") with true.
      cbv beta iota. by rewrite strip_prefix_append.
    + change "false" with (String "f" "alse"). rewrite append_cons.
      cbn [json_parse]. change (Ascii.eqb "f" quote) with false.
      change (Ascii.eqb "f" "{") with false. change (Ascii.eqb "f" "[") with false.
      change (Ascii.eqb "f" "n") with false. change (Ascii.eqb "f" "t") with false.
      change (Ascii.eqb "f" "f") with true.
      cbv beta iota. by rewrite strip_prefix_append.
  - cbn [render]. by apply json_parse_number.
  - cbn [render]. unfold render_string. cbn [json_parse].
    change (Ascii.eqb quote quote) with true. cbv beta iota.
    by rewrite scan_string_escape.
  - cbn [json_plain] in Hplain. destruct l as [|x l].
    + cbn [render]. reflexivity.
    + cbn [render json_parse].
      change (Ascii.eqb "[" quote) with false. change (Ascii.eqb "[" "{") with false.
      change (Ascii.eqb "[" "[") with true. cbv beta iota.
      rewrite skip_ws_newline_indent.
      rewrite skip_ws_render_sequence by (intros; apply skip_ws_render).
      pose proof (parse_elements_sequence indent level (x :: l) IH Hplain ltac:(done)
                    fuel [] rest ltac:(cbn [weight] in Hfuel; lia)) as Hseq.
      destruct (render_head indent (S level) x
                  (match l with
                   | [] => newline_indent indent level (String "]" rest)
                   | _ => String "," (newline_indent indent (S level)
                            (render_sequence (render indent (S level))
                               (newline_indent indent (S level)) l
                               (newline_indent indent level (String "]" rest))))
                   end)) as (c & t & Hhead & Hc).
      change (render_sequence (render indent (S level)) (newline_indent indent (S level))
                (x :: l) (newline_indent indent level (String "]" rest)))
        with (render indent (S level) x
                (match l with
                 | [] => newline_indent indent level (String "]" rest)
                 | _ => String "," (newline_indent indent (S level)
                          (render_sequence (render indent (S level))
                             (newline_indent indent (S level)) l
                             (newline_indent indent level (String "]" rest))))
                 end)) in *.
      rewrite Hhead in *.
      assert (Ascii.eqb c "]" = false) as ->.
      { unfold value_head in Hc. by destruct (is_ws c), (Ascii.eqb c "]"). }
      exact Hseq.
  - discriminate.
  - cbn [json_plain] in Hplain. apply andb_true_iff in Hplain as [Hentries Hnodup].
    apply bool_decide_eq_true in Hnodup.
    destruct items as [|x items].
    + cbn [render]. reflexivity.
    + cbn [render json_parse].
      change (Ascii.eqb "{" quote) with false. change (Ascii.eqb "{" "{") with true.
      cbv beta iota.
      rewrite skip_ws_newline_indent.
      rewrite skip_ws_render_sequence by (intros; apply skip_ws_render_member).
      pose proof (parse_members_sequence indent level (x :: items) IH Hentries ltac:(done)
                    fuel [] rest Hnodup ltac:(cbn [weight] in Hfuel; lia)) as Hseq.
      cbn [render_sequence] in *. unfold render_member, render_string in *.
      change (Ascii.eqb quote "}") with false. exact Hseq.
Qed.

(** *** The text is long enough to pay for its own decoding *)

Lemma length_append (a b : string) :
  String.length (a +:+ b) = (String.length a + String.length b)%nat.
Proof. induction a as [|c a IH]; [done|]. rewrite append_cons. cbn. by rewrite IH. Qed.

Lemma length_spaces_onto (n : nat) (t : string) :
  (String.length t ≤ String.length (spaces_onto n t))%nat.
Proof. induction n as [|n IH]; cbn [spaces_onto String.length]; lia. Qed.

Lemma length_newline_indent (indent level : nat) (t : string) :
  (S (String.length t) ≤ String.length (newline_indent indent level t))%nat.
Proof.
  unfold newline_indent. cbn [String.length].
  pose proof (length_spaces_onto (indent * level) t). lia.
Qed.

Lemma length_escape_char (c : ascii) (t : string) :
  (String.length t ≤ String.length (escape_char c t))%nat.
Proof. unfold escape_char. repeat case_match; cbn [String.length]; lia. Qed.

Lemma length_escape_onto (s t : string) :
  (String.length t ≤ String.length (escape_onto s t))%nat.
Proof.
  induction s as [|c s IH]; cbn [escape_onto]; [done|].
  pose proof (length_escape_char c (escape_onto s t)). lia.
Qed.

Lemma length_render_string (s t : string) :
  (2 + String.length t ≤ String.length (render_string s t))%nat.
Proof.
  unfold render_string. cbn [String.length].
  pose proof (length_escape_onto s (String quote t)) as Hl. cbn in Hl. lia.
Qed.

Lemma length_render_sequence {A} (one : A → string → string) (sep : string → string)
    (w : A → nat) (l : list A) (close : string) :
  Forall (λ x, ∀ t, (w x + String.length t ≤ String.length (one x t))%nat) l →
  (∀ t, (S (String.length t) ≤ String.length (sep t))%nat) →
  (list_sum (map (λ x, S (w x)) l) + String.length close
   ≤ String.length (render_sequence one sep l close) + 1)%nat.
Proof.
  intros Hall Hsep. induction l as [|x l IH]; [cbn; lia|].
  apply Forall_cons in Hall as [Hx Hall]. specialize (IH Hall).
  cbn [map]. rewrite sum_cons. cbn [render_sequence].
  destruct l as [|y l].
  - specialize (Hx close). cbn. lia.
  - specialize (Hx (String "," (sep (render_sequence one sep (y :: l) close)))).
    specialize (Hsep (render_sequence one sep (y :: l) close)).
    cbn [String.length] in Hx. lia.
Qed.

Lemma length_render (v : pyvalue) :
  ∀ (indent level : nat) (tail : string),
    (weight v + String.length tail ≤ String.length (render indent level v tail))%nat.
Proof.
  induction v as [|b|z|s|l IH|l IH|items IH] using pyvalue_nested_ind;
    intros indent level tail; cbn [render weight].
  - rewrite length_append. cbn. lia.
  - destruct b; rewrite length_append; cbn; lia.
  - rewrite length_append. destruct (py_int_str_head z) as (c & t & -> & _). cbn. lia.
  - pose proof (length_render_string s tail). lia.
  - destruct l as [|x l]; [rewrite length_append; cbn; lia|].
    cbn [String.length].
    pose proof (length_newline_indent indent (S level)
                  (render_sequence (render indent (S level))
                     (newline_indent indent (S level)) (x :: l)
                     (newline_indent indent level (String "]" tail)))) as H1.
    pose proof (length_render_sequence (render indent (S level))
                  (newline_indent indent (S level)) weight (x :: l)
                  (newline_indent indent level (String "]" tail))) as H2.
    pose proof (length_newline_indent indent level (String "]" tail)) as H3.
    cbn [String.length] in H3.
    assert (Forall (λ x, ∀ t, (weight x + String.length t
                               ≤ String.length (render indent (S level) x t))%nat) (x :: l))
      as Hall by (eapply Forall_impl; [exact IH|]; cbn; auto).
    specialize (H2 Hall (length_newline_indent indent (S level))). lia.
  - destruct l as [|x l]; [rewrite length_append; cbn; lia|].
    cbn [String.length].
    pose proof (length_newline_indent indent (S level)
                  (render_sequence (render indent (S level))
                     (newline_indent indent (S level)) (x :: l)
                     (newline_indent indent level (String "]" tail)))) as H1.
    pose proof (length_render_sequence (render indent (S level))
                  (newline_indent indent (S level)) weight (x :: l)
                  (newline_indent indent level (String "]" tail))) as H2.
    pose proof (length_newline_indent indent level (String "]" tail)) as H3.
    cbn [String.length] in H3.
    assert (Forall (λ x, ∀ t, (weight x + String.length t
                               ≤ String.length (render indent (S level) x t))%nat) (x :: l))
      as Hall by (eapply Forall_impl; [exact IH|]; cbn; auto).
    specialize (H2 Hall (length_newline_indent indent (S level))). lia.
  - destruct items as [|x items]; [rewrite length_append; cbn; lia|].
    cbn [String.length].
    pose proof (length_newline_indent indent (S level)
                  (render_sequence (render_member (render indent (S level)))
                     (newline_indent indent (S level)) (x :: items)
                     (newline_indent indent level (String "}" tail)))) as H1.
    pose proof (length_render_sequence (render_member (render indent (S level)))
                  (newline_indent indent (S level))
                  (λ kv : pyvalue * pyvalue, weight kv.2) (x :: items)
                  (newline_indent indent level (String "}" tail))) as H2.
    pose proof (length_newline_indent indent level (String "}" tail)) as H3.
    cbn [String.length] in H3.
    assert (Forall (λ kv : pyvalue * pyvalue, ∀ t,
                      (weight kv.2 + String.length t
                       ≤ String.length (render_member (render indent (S level)) kv t))%nat)
                   (x :: items)) as Hall.
    { eapply Forall_impl; [exact IH|]. intros kv Hkv t. cbv beta in *.
      unfold render_member.
      pose proof (length_render_string (json_key_text kv.1)
                    (String ":" (String " " (render indent (S level) kv.2 t)))) as Hs.
      cbn [String.length] in Hs. specialize (Hkv indent (S level) t). lia. }
    specialize (H2 Hall (length_newline_indent indent (S level))). lia.
Qed.

Lemma json_check_plain (v : pyvalue) : json_plain v = true → json_check v = Ok tt.
Proof.
  induction v as [|b|z|s|l IH|l IH|items IH] using pyvalue_nested_ind; try done.
  - cbn [json_plain json_check]. intros Hplain.
    induction l as [|x l IHl]; [done|].
    apply Forall_cons in IH as [Hx IH]. cbn [forallb] in Hplain.
    apply andb_true_iff in Hplain as [Hpx Hpl].
    rewrite (Hx Hpx). by apply IHl.
  - cbn [json_plain json_check]. intros [Hplain _]%andb_true_iff.
    induction items as [|[k x] items IHl]; [done|].
    apply Forall_cons in IH as [Hx IH]. cbn [forallb] in Hplain.
    apply andb_true_iff in Hplain as [Hpx Hpl].
    unfold plain_entry in Hpx. cbn [fst snd] in *.
    destruct k; try discriminate. cbn [json_key].
    rewrite (Hx Hpx). by apply IHl.
Qed.

(** [json.loads(json.dumps(v, indent=n))] is [v], for every plain [v] and
    every [n]. *)
Lemma json_loads_dumps (indent : nat) (v : pyvalue) :
  json_plain v = true →
  json_dumps indent v = Ok (render indent 0 v "")
  ∧ json_loads (render indent 0 v "") = Ok v.
Proof.
  intros Hplain. split.
  - unfold json_dumps. by rewrite json_check_plain.
  - unfold json_loads. rewrite skip_ws_render.
    rewrite (decodes_all v Hplain); [done| |done].
    pose proof (length_render v indent 0 ""). cbn in *. lia.
Qed.

(** ** [save_json] and [load_json] *)

Lemma save_json_checked (path : Path) (items : list (pyvalue * pyvalue)) (w : world) :
  save_json path (PDict items) w = save_json_body path (PDict items) w.
Proof. unfold save_json. io_unfold. by rewrite !ensure_arg_ok. Qed.

Lemma load_json_checked (path : Path) (w : world) :
  load_json path w = load_json_body path w.
Proof.
  unfold load_json. io_unfold. rewrite ensure_arg_ok by done.
  destruct (load_json_body path w) as [[r|e] w']; [|done].
  by rewrite ensure_return_ok.
Qed.

(** The first entry of a dictionary is on a line of its own behind exactly
    [indent] spaces. *)
Lemma render_dict_first_line (indent : nat) (key : string) (v : pyvalue)
    (rest : list (pyvalue * pyvalue)) :
  ∃ tail, render indent 0 (PDict ((PStr key, v) :: rest)) ""
          = String "{" (String newline (spaces_onto indent (String quote tail))).
Proof.
  cbn [render render_sequence]. unfold newline_indent, render_member, render_string.
  rewrite Nat.mul_1_r. by eexists.
Qed.




(** * Further properties

    What the helpers do at the edges and how they compose. *)

(** ** [get_size]: rounding *)

Lemma py_round_mono (a b : Z) : a ≤ b → py_round (KbFloat a) ≤ py_round (KbFloat b).
Proof.
  intros Hab. unfold py_round; cbn [kb_num].
  pose proof (Z.div_mod a 1024 ltac:(lia)) as Ha.
  pose proof (Z.mod_pos_bound a 1024 ltac:(lia)) as Hra.
  pose proof (Z.div_mod b 1024 ltac:(lia)) as Hb.
  pose proof (Z.mod_pos_bound b 1024 ltac:(lia)) as Hrb.
  set (qa := a / 1024) in *. set (ra := a mod 1024) in *.
  set (qb := b / 1024) in *. set (rb := b mod 1024) in *.
  assert (qa ≤ qb) as Hq by lia.
  destruct (Z.eq_dec qa qb) as [E|NE].
  - rewrite <- E in *. assert (ra ≤ rb) by lia.
    repeat match goal with |- context [?x <? ?y] => destruct (Z.ltb_spec x y) end;
      destruct (Z.even qa); lia.
  - assert (qa + 1 ≤ qb) by lia.
    repeat match goal with |- context [?x <? ?y] => destruct (Z.ltb_spec x y) end;
      destruct (Z.even qa); destruct (Z.even qb); lia.
Qed.

Lemma py_round_nonneg (a : Z) : 0 ≤ a → 0 ≤ py_round (KbFloat a).
Proof. intros Ha. apply (py_round_mono 0 a Ha). Qed.

(** Above [2^53]: the rounded value lies between the powers of two around
    the number. *)
Lemma round_to_53_bits_bounds (n : Z) :
  52 < Z.log2 n →
  2 ^ Z.log2 n ≤ round_to_53_bits n ≤ 2 ^ (Z.log2 n + 1).
Proof.
  intros Hl. unfold round_to_53_bits.
  assert (0 < n) as Hn by (destruct n; cbn in Hl; lia).
  destruct (Z.log2_spec n Hn) as [Hlo Hhi].
  set (l := Z.log2 n) in *. set (s := l - 52).
  destruct (Z.leb_spec s 0); [lia|].
  rewrite Z.shiftr_div_pow2, !Z.shiftl_mul_pow2, Z.land_ones by lia.
  assert (2 ^ l = 2 ^ 52 * 2 ^ s) as El by (rewrite <- Z.pow_add_r by lia; f_equal; lia).
  assert (2 ^ Z.succ l = 2 ^ 53 * 2 ^ s) as El1 by (rewrite <- Z.pow_add_r by lia; f_equal; lia).
  replace (l + 1) with (Z.succ l) by lia.
  assert (0 < 2 ^ s) as Hs by (apply Z.pow_pos_nonneg; lia).
  pose proof (Z.div_mod n (2 ^ s) ltac:(lia)) as Hdm.
  pose proof (Z.mod_pos_bound n (2 ^ s) Hs) as Hr.
  set (q := n / 2 ^ s) in *. set (r := n mod 2 ^ s) in *.
  assert (2 ^ 52 ≤ q) as Hq1 by nia.
  assert (q < 2 ^ 53) as Hq2 by nia.
  rewrite El, El1.
  repeat match goal with |- context [?x <? ?y] => destruct (Z.ltb_spec x y) end;
    destruct (Z.even q); nia.
Qed.

Lemma round_to_53_bits_mono (a b : Z) :
  0 ≤ a ≤ b → round_to_53_bits a ≤ round_to_53_bits b.
Proof.
  intros [Ha Hab].
  pose proof (Z.log2_le_mono a b Hab) as Hl.
  destruct (Z_le_gt_dec (Z.log2 b) 52) as [Hb52|Hb52].
  { unfold round_to_53_bits.
    destruct (Z.leb_spec (Z.log2 a - 52) 0); [|lia].
    destruct (Z.leb_spec (Z.log2 b - 52) 0); lia. }
  pose proof (round_to_53_bits_bounds b ltac:(lia)) as [Hblo Hbhi].
  destruct (Z_le_gt_dec (Z.log2 a) 52) as [Ha52|Ha52].
  { assert (round_to_53_bits a = a) as ->.
    { unfold round_to_53_bits. destruct (Z.leb_spec (Z.log2 a - 52) 0); [done|lia]. }
    assert (0 < b) as Hbpos by (destruct b; cbn in Hb52; lia).
    destruct (Z.log2_spec b Hbpos) as [Hlo Hhi].
    assert (a < 2 ^ 53).
    { destruct (Z.eq_dec a 0) as [->|]; [lia|].
      apply Z.log2_lt_pow2; lia. }
    assert (2 ^ 53 ≤ 2 ^ Z.log2 b) by (apply Z.pow_le_mono_r; lia).
    lia. }
  pose proof (round_to_53_bits_bounds a ltac:(lia)) as [Halo Hahi].
  destruct (Z.eq_dec (Z.log2 a) (Z.log2 b)) as [E|NE].
  - unfold round_to_53_bits. rewrite E.
    set (s := Z.log2 b - 52).
    destruct (Z.leb_spec s 0); [lia|].
    rewrite !Z.shiftr_div_pow2, !Z.shiftl_mul_pow2, !Z.land_ones by lia.
    assert (0 < 2 ^ s) as Hs by (apply Z.pow_pos_nonneg; lia).
    pose proof (Z.div_mod a (2 ^ s) ltac:(lia)) as Hda.
    pose proof (Z.mod_pos_bound a (2 ^ s) Hs) as Hra.
    pose proof (Z.div_mod b (2 ^ s) ltac:(lia)) as Hdb.
    pose proof (Z.mod_pos_bound b (2 ^ s) Hs) as Hrb.
    set (qa := a / 2 ^ s) in *. set (ra := a mod 2 ^ s) in *.
    set (qb := b / 2 ^ s) in *. set (rb := b mod 2 ^ s) in *.
    assert (qa ≤ qb) as Hq by nia.
    apply Z.mul_le_mono_nonneg_r; [lia|].
    destruct (Z.eq_dec qa qb) as [Eq|NEq].
    + rewrite <- Eq in *. assert (ra ≤ rb) by nia.
      repeat match goal with |- context [?x <? ?y] => destruct (Z.ltb_spec x y) end;
        destruct (Z.even qa); lia.
    + repeat match goal with |- context [?x <? ?y] => destruct (Z.ltb_spec x y) end;
        destruct (Z.even qa); destruct (Z.even qb); lia.
  - assert (2 ^ (Z.log2 a + 1) ≤ 2 ^ Z.log2 b) by (apply Z.pow_le_mono_r; lia).
    lia.
Qed.

Lemma kb_of_mono (n m : nat) : (n ≤ m)%nat → 0 ≤ kb_of n ≤ kb_of m.
Proof.
  intros Hnm. unfold kb_of, truediv_1024. split.
  - apply (py_round_mono 0). apply (round_to_53_bits_mono 0). lia.
  - apply py_round_mono, round_to_53_bits_mono. lia.
Qed.

(** The decimal text of the size can be read back from the result. *)
Lemma size_text_number (k : Z) (s : string) :
  py_int_str k +:+ " KB" = s +:+ " KB" → scan_number (s +:+ " KB") = Ok (k, " KB").
Proof. intros <-. by apply scan_number_int. Qed.

(** X3: [get_size] reports ["~ 0 KB"] exactly for the files of at most 512
    bytes: half a kilobyte is a tie, and the tie goes to the even number
    zero. *)
Theorem get_size_zero_kb (w : world) (path : Path) (c : string) :
  file_at w (fspath path) c →
  fst (get_size path w) = Ok "~ 0 KB" ↔ (String.length c ≤ 512)%nat.
Proof.
  intros Hf. rewrite get_size_checked, (get_size_body_file _ _ _ Hf). cbn [fst].
  fold (kb_of (String.length c)). split.
  - intros [= Htext].
    apply (size_text_number _ "0") in Htext.
    assert (scan_number ("0" +:+ " KB") = Ok (0, " KB")) as E by (vm_compute; reflexivity).
    rewrite E in Htext. injection Htext as Hk.
    destruct (le_gt_dec (String.length c) 512) as [|Hgt]; [done|exfalso].
    pose proof (kb_of_mono 513 (String.length c) ltac:(lia)) as [_ Hm].
    rewrite <- Hk in Hm. vm_compute in Hm. by apply Hm.
  - intros Hle.
    pose proof (kb_of_mono (String.length c) 512 Hle) as [Hlo Hhi].
    change (kb_of 512) with 0 in Hhi.
    assert (kb_of (String.length c) = 0) as -> by lia. reflexivity.
Qed.

(** X4: a file that is not smaller is not reported smaller, whatever the
    two sizes are. *)
Theorem get_size_monotone (w1 w2 : world) (p1 p2 : Path) (c1 c2 : string) :
  file_at w1 (fspath p1) c1 →
  file_at w2 (fspath p2) c2 →
  (String.length c1 ≤ String.length c2)%nat →
  ∃ k1 k2,
    get_size p1 w1 = (Ok ("~ " +:+ py_int_str k1 +:+ " KB"), w1)
    ∧ get_size p2 w2 = (Ok ("~ " +:+ py_int_str k2 +:+ " KB"), w2)
    ∧ 0 ≤ k1 ≤ k2.
Proof.
  intros Hf1 Hf2 Hle.
  exists (kb_of (String.length c1)), (kb_of (String.length c2)).
  rewrite !get_size_checked.
  rewrite (get_size_body_file _ _ _ Hf1), (get_size_body_file _ _ _ Hf2).
  split; [done|]. split; [done|]. by apply kb_of_mono.
Qed.

Lemma get_size_zero_kb_witness :
  fst (get_size (MkPath false ["notes.txt"]) world_blob) = Ok "~ 0 KB".
Proof.
  refine (proj2 (get_size_zero_kb world_blob (MkPath false ["notes.txt"]) "hello" _) _).
  - exists ["proj"; "notes.txt"]. split; reflexivity.
  - cbn. lia.
Defined.

Lemma get_size_monotone_witness :
  ∃ k1 k2,
    get_size (MkPath false ["notes.txt"]) world_blob
    = (Ok ("~ " +:+ py_int_str k1 +:+ " KB"), world_blob)
    ∧ get_size (MkPath false ["blob.bin"]) world_1536
      = (Ok ("~ " +:+ py_int_str k2 +:+ " KB"), world_1536)
    ∧ 0 ≤ k1 ≤ k2.
Proof.
  apply (get_size_monotone world_blob world_1536 _ _ "hello" bytes_1536).
  - exists ["proj"; "notes.txt"]. split; reflexivity.
  - exists ["home"; "blob.bin"]. split; vm_compute; reflexivity.
  - vm_compute. lia.
Defined.

(** ** The readers: [get_size], [read_yaml], [load_json], [load_bin] *)

Lemma os_path_getsize_missing (w : world) (p : string) :
  missing_at w p → os_path_getsize p w = (Raise FileNotFoundError, w).
Proof.
  unfold os_path_getsize. intros [Hr|(k & Hr & Hk)]; rewrite Hr; [done|]. by rewrite Hk.
Qed.

Lemma read_file_missing (w : world) (p : string) :
  missing_at w p → read_file p w = (Raise FileNotFoundError, w).
Proof.
  unfold read_file. intros [Hr|(k & Hr & Hk)]; rewrite Hr; [done|]. by rewrite Hk.
Qed.

Lemma os_path_getsize_world (w : world) (p : string) : snd (os_path_getsize p w) = w.
Proof.
  unfold os_path_getsize. destruct (resolve w p) as [k|e]; [|done].
  by destruct (node_at (tree w) k) as [[|c]|].
Qed.

Lemma read_file_world (w : world) (p : string) : snd (read_file p w) = w.
Proof.
  unfold read_file. destruct (resolve w p) as [k|e]; [|done].
  by destruct (node_at (tree w) k) as [[|c]|].
Qed.

Section Readers.
Context `{Pickling} `{YamlLoader}.

(** X5: on a path that names nothing, each of the four readers raises
    [FileNotFoundError] and leaves the world as it was; none of them returns
    a default. *)
Theorem readers_missing_path (path : Path) (w : world) :
  missing_at w (fspath path) →
  get_size path w = (Raise FileNotFoundError, w)
  ∧ read_yaml path w = (Raise FileNotFoundError, w)
  ∧ load_json path w = (Raise FileNotFoundError, w)
  ∧ load_bin path w = (Raise FileNotFoundError, w).
Proof.
  intros Hm. repeat split.
  - rewrite get_size_checked. unfold get_size_body. io_unfold.
    by rewrite (os_path_getsize_missing _ _ Hm).
  - rewrite read_yaml_checked. unfold read_yaml_body, try_except. io_unfold.
    by rewrite (read_file_missing _ _ Hm).
  - rewrite load_json_checked. unfold load_json_body. io_unfold.
    by rewrite (read_file_missing _ _ Hm).
  - rewrite load_bin_annotation. unfold load_bin_body. io_unfold.
    by rewrite (read_file_missing _ _ Hm).
Qed.

(** X6: whatever the path and the outcome, [get_size] and [read_yaml]
    leave the world as it was, and [load_json] and [load_bin] leave the
    directory tree as it was. *)
Theorem readers_leave_files (path : Path) (w : world) :
  snd (get_size path w) = w
  ∧ snd (read_yaml path w) = w
  ∧ (tree (snd (load_json path w)) = tree w ∧ cwd (snd (load_json path w)) = cwd w)
  ∧ (tree (snd (load_bin path w)) = tree w ∧ cwd (snd (load_bin path w)) = cwd w).
Proof.
  repeat split.
  - rewrite get_size_checked. unfold get_size_body. io_unfold.
    pose proof (os_path_getsize_world w (fspath path)) as Hw.
    by destruct (os_path_getsize (fspath path) w) as [[n|e] w'].
  - rewrite read_yaml_checked. unfold read_yaml_body, try_except. io_unfold.
    pose proof (read_file_world w (fspath path)) as Hw.
    destruct (read_file (fspath path) w) as [[c|e] w']; cbn in Hw; subst w'.
    + destruct (yaml_safe_load c) as [v|e]; [|by destruct e].
      destruct (Box_init v) as [b|e]; [done|by destruct e].
    + by destruct e.
  - rewrite load_json_checked. unfold load_json_body. io_unfold.
    pose proof (read_file_world w (fspath path)) as Hw.
    destruct (read_file (fspath path) w) as [[c|e] w']; cbn in Hw; subst w'; [|done].
    destruct (json_loads c) as [v|e]; [|done]. cbn.
    by destruct (Box_init v).
  - rewrite load_json_checked. unfold load_json_body. io_unfold.
    pose proof (read_file_world w (fspath path)) as Hw.
    destruct (read_file (fspath path) w) as [[c|e] w']; cbn in Hw; subst w'; [|done].
    destruct (json_loads c) as [v|e]; [|done]. cbn.
    by destruct (Box_init v).
  - rewrite load_bin_annotation. unfold load_bin_body. io_unfold.
    pose proof (read_file_world w (fspath path)) as Hw.
    destruct (read_file (fspath path) w) as [[c|e] w']; cbn in Hw; subst w'; [|done].
    by destruct (joblib_loads c) as [v|e].
  - rewrite load_bin_annotation. unfold load_bin_body. io_unfold.
    pose proof (read_file_world w (fspath path)) as Hw.
    destruct (read_file (fspath path) w) as [[c|e] w']; cbn in Hw; subst w'; [|done].
    by destruct (joblib_loads c) as [v|e].
Qed.
End Readers.

Lemma readers_missing_path_witness :
  get_size (MkPath false ["model.pkl"]) world_blob = (Raise FileNotFoundError, world_blob)
  ∧ @read_yaml sample_yaml (MkPath false ["conf"; "config.yaml"]) world_blob
    = (Raise FileNotFoundError, world_blob).
Proof.
  split.
  - refine (proj1 (@readers_missing_path toy_pickling sample_yaml
                     (MkPath false ["model.pkl"]) world_blob _)).
    right. exists ["proj"; "model.pkl"]. split; reflexivity.
  - refine (proj1 (proj2 (@readers_missing_path toy_pickling sample_yaml
                     (MkPath false ["conf"; "config.yaml"]) world_blob _))).
    left. reflexivity.
Defined.

(** ** [create_directories]: composition, printing, failure *)

Lemma create_directories_body_app (a b : list string) (verbose : bool) :
  ∀ w, create_directories_body (a ++ b) verbose w =
       match create_directories_body a verbose w with
       | (Ok _, w1) => create_directories_body b verbose w1
       | (Raise e, w1) => (Raise e, w1)
       end.
Proof.
  induction a as [|p a IH]; intros w; [done|].
  cbn [app create_directories_body]. io_unfold.
  destruct (os_makedirs_exist_ok p w) as [[[]|e] w1]; [|done].
  destruct verbose; cbn; apply IH.
Qed.

(** X7: creating the directories of a concatenated list is creating those
    of the first list and then, if that went through, those of the second;
    if the first part raises, that is the outcome. *)
Theorem create_directories_app (a b : list string) (verbose : bool) (w : world) :
  create_directories (a ++ b) verbose w =
    match create_directories a verbose w with
    | (Ok _, w1) => create_directories b verbose w1
    | (Raise e, w1) => (Raise e, w1)
    end.
Proof.
  rewrite (create_directories_checked (a ++ b)), (create_directories_checked a).
  rewrite create_directories_body_app.
  destruct (create_directories_body a verbose w) as [[[]|e] w1]; [|done].
  symmetry. apply create_directories_checked.
Qed.

(** [os.makedirs] looks at the tree and the working directory only, and
    leaves the log alone. *)
Lemma makedirs_same_files (p : string) (w v : world) :
  tree v = tree w → cwd v = cwd w →
  fst (os_makedirs_exist_ok p v) = fst (os_makedirs_exist_ok p w)
  ∧ tree (snd (os_makedirs_exist_ok p v)) = tree (snd (os_makedirs_exist_ok p w))
  ∧ cwd (snd (os_makedirs_exist_ok p v)) = cwd (snd (os_makedirs_exist_ok p w))
  ∧ logs (snd (os_makedirs_exist_ok p v)) = logs v.
Proof.
  intros Ht Hc. unfold os_makedirs_exist_ok. rewrite Ht, Hc.
  destruct (is_empty p); [done|].
  by destruct (mkdir_p _ _ _).
Qed.

Lemma create_directories_body_quiet (paths : list string) :
  ∀ w v, tree v = tree w → cwd v = cwd w →
    fst (create_directories_body paths true v) = fst (create_directories_body paths false w)
    ∧ tree (snd (create_directories_body paths true v))
      = tree (snd (create_directories_body paths false w))
    ∧ logs (snd (create_directories_body paths false w)) = logs w
    ∧ ∃ n, logs (snd (create_directories_body paths true v))
           = logs v ++ printed_lines (take n paths)
           ∧ (fst (create_directories_body paths true v) = Ok tt → n = length paths).
Proof.
  induction paths as [|p paths IH]; intros w v Ht Hc.
  - cbn. repeat split; try done. exists O. by rewrite app_nil_r.
  - cbn [create_directories_body]. io_unfold.
    destruct (makedirs_same_files p w v Ht Hc) as (Hf & Ht1 & Hc1 & Hl1).
    destruct (makedirs_same_files p w w eq_refl eq_refl) as (_ & _ & _ & Hl0).
    destruct (os_makedirs_exist_ok p v) as [[[]|e] v1],
             (os_makedirs_exist_ok p w) as [[[]|e'] w1]; cbn in *; try discriminate.
    + destruct (IH w1 (add_log (LogRecord PRINTED "Dizin oluşturuldu: " (ArgPath p)) v1))
        as (Hf' & Ht' & Hl' & n & Hn & Hlen); [done..|].
      split; [done|]. split; [done|]. split; [congruence|].
      exists (S n). cbn [take printed_lines map]. split.
      * rewrite Hn. cbn. rewrite Hl1, <- app_assoc. done.
      * intros Hok. by rewrite (Hlen Hok).
    + repeat split; try done. exists O. cbn. by rewrite app_nil_r.
Qed.

(** X8: [verbose] decides what is printed and nothing else.  With and
    without it the outcome and the directory tree are the same; without it
    nothing is printed; with it one line is printed for each path that was
    made, in the order of the list, and for every path when the call
    returns. *)
Theorem create_directories_verbose (paths : list string) (w : world) :
  fst (create_directories paths true w) = fst (create_directories paths false w)
  ∧ tree (snd (create_directories paths true w))
    = tree (snd (create_directories paths false w))
  ∧ logs (snd (create_directories paths false w)) = logs w
  ∧ ∃ n, logs (snd (create_directories paths true w)) = logs w ++ printed_lines (take n paths)
         ∧ (fst (create_directories paths true w) = Ok tt → n = length paths).
Proof.
  rewrite !create_directories_checked.
  by apply create_directories_body_quiet.
Qed.

(** What a successful run has made. *)
Lemma create_directories_made (paths : list string) (verbose : bool) :
  ∀ w w', node_at (tree w) (cwd w) = Some Dir →
    create_directories_body paths verbose w = (Ok tt, w') →
    (∀ p, p ∈ paths → dir_at w' p) ∧ extends (tree w) (tree w') ∧ cwd w' = cwd w.
Proof.
  induction paths as [|p paths IH]; intros w w' Hcwd Hrun.
  - injection Hrun as <-. split; [|split; [apply extends_refl|done]].
    intros p Hp. by apply elem_of_nil in Hp.
  - destruct (create_directories_step _ _ _ _ _ Hrun)
      as (w1 & w2 & Hmk & Ht & Hcw & Hrest).
    destruct (makedirs_dir_at _ _ _ Hcwd Hmk) as (Hdir & Hext1 & Hc1).
    destruct (IH w2 w') as (Hall & Hext2 & Hc2); [|done|].
    { rewrite Ht, Hcw, Hc1. by apply Hext1. }
    rewrite Ht in Hext2. split; [|split].
    + intros q [->|Hq]%elem_of_cons; [|by apply Hall].
      apply (dir_at_extends w2); [by rewrite Ht|done|].
      by apply (dir_at_same w1).
    + by apply (extends_trans _ (tree w1)).
    + by rewrite Hc2, Hcw.
Qed.

(** Where the walk of the kernel meets a regular file, so does
    [os.makedirs], before it has made anything. *)
Lemma mkdir_p_blocked (t : gmap (list string) node) (cs : list string) :
  ∀ cur, node_at t cur = Some Dir →
    (walk t cur cs = Raise NotADirectoryError
     ∨ ∃ k c, walk t cur cs = Ok k ∧ node_at t k = Some (File c)) →
    mkdir_p t cur cs = Raise FileExistsError
    ∨ mkdir_p t cur cs = Raise NotADirectoryError.
Proof.
  induction cs as [|c cs IH]; intros cur Hcur Hw.
  - cbn in Hw. destruct Hw as [|(k & c & [= <-] & Hk)]; congruence.
  - cbn [walk mkdir_p] in *. rewrite Hcur in Hw.
    destruct (node_at t (step_key cur c)) as [[|content]|] eqn:Hnext.
    + by apply IH.
    + destruct cs; [by left|by right].
    + exfalso. destruct cs as [|c' cs]; cbn in Hw.
      * destruct Hw as [|(k & x & [= <-] & Hk)]; congruence.
      * rewrite Hnext in Hw. destruct Hw as [|(k & x & ? & _)]; congruence.
Qed.

Lemma makedirs_blocked (w : world) (p : string) :
  node_at (tree w) (cwd w) = Some Dir →
  blocked_by_file w p →
  os_makedirs_exist_ok p w = (Raise FileExistsError, w)
  ∨ os_makedirs_exist_ok p w = (Raise NotADirectoryError, w).
Proof.
  intros Hcwd Hb. unfold os_makedirs_exist_ok.
  assert (is_empty p = false ∧
          (walk (tree w) (if is_absolute p then [] else cwd w) (components p)
           = Raise NotADirectoryError
           ∨ ∃ k c, walk (tree w) (if is_absolute p then [] else cwd w) (components p) = Ok k
                    ∧ node_at (tree w) k = Some (File c))) as [-> Hw].
  { unfold blocked_by_file, file_at, resolve in Hb.
    destruct (is_empty p); [destruct Hb as [(c & k & ? & _)|]; done|].
    split; [done|]. destruct Hb as [(c & k & Hr & Hk)|Hr]; [right|left]; eauto. }
  assert (node_at (tree w) (if is_absolute p then [] else cwd w) = Some Dir) as Hstart
    by (by destruct (is_absolute p)).
  destruct (mkdir_p_blocked _ _ _ Hstart Hw) as [-> | ->]; auto.
Qed.

(** X9: a path that names a regular file, or passes through one, stops
    [create_directories]: it raises [FileExistsError] or
    [NotADirectoryError], the directories of the paths before it are there
    and stay, and the paths after it are never looked at. *)
Theorem create_directories_stops_at_file (pre post : list string) (p : string)
    (verbose : bool) (w w1 : world) :
  node_at (tree w) (cwd w) = Some Dir →
  create_directories pre verbose w = (Ok tt, w1) →
  blocked_by_file w1 p →
  (∃ e, create_directories (pre ++ p :: post) verbose w = (Raise e, w1)
        ∧ (e = FileExistsError ∨ e = NotADirectoryError))
  ∧ ∀ q, q ∈ pre → dir_at w1 q.
Proof.
  rewrite !create_directories_checked. intros Hcwd Hpre Hb.
  destruct (create_directories_made _ _ _ _ Hcwd Hpre) as (Hall & Hext & Hc).
  split; [|done].
  rewrite create_directories_body_app, Hpre.
  cbn [create_directories_body]. io_unfold.
  assert (node_at (tree w1) (cwd w1) = Some Dir) as Hcwd1
    by (rewrite Hc; by apply Hext).
  destruct (makedirs_blocked w1 p Hcwd1 Hb) as [-> | ->]; eauto.
Qed.

Lemma create_directories_stops_at_file_witness :
  ∃ e, create_directories ["artifacts"; "notes.txt"; "reports"] true world_blob
       = (Raise e, snd (create_directories ["artifacts"] true world_blob))
       ∧ (e = FileExistsError ∨ e = NotADirectoryError).
Proof.
  refine (proj1 (create_directories_stops_at_file ["artifacts"] ["reports"] "notes.txt" true
                   world_blob (snd (create_directories ["artifacts"] true world_blob)) _ _ _)).
  - reflexivity.
  - vm_compute. reflexivity.
  - left. exists "hello", ["proj"; "notes.txt"]. split; vm_compute; reflexivity.
Defined.

(** ** Writing a file: what is kept *)

(** Writing a regular file where no directory is leaves every walk of the
    kernel as it was. *)
Lemma walk_insert_file (t : gmap (list string) node) (k : list string) (n : node)
    (cs : list string) :
  node_at t k ≠ Some Dir →
  ∀ cur k', walk t cur cs = Ok k' → walk (<[k := n]> t) cur cs = Ok k'.
Proof.
  intros Hk. induction cs as [|c cs IH]; intros cur k' Hw; cbn in *; [done|].
  destruct (node_at t cur) as [[|?]|] eqn:Hcur; try discriminate.
  assert (k ≠ cur) as Hne by congruence.
  rewrite node_at_insert_ne, Hcur by done. by apply IH.
Qed.

Lemma resolve_write (w : world) (k : list string) (c : string) (l : list log_record)
    (q : string) (k' : list string) :
  node_at (tree w) k ≠ Some Dir →
  resolve w q = Ok k' →
  resolve (World (<[k := File c]> (tree w)) (cwd w) (dir_size w) l) q = Ok k'.
Proof.
  intros Hk. unfold resolve. cbn. destruct (is_empty q); [done|]. by apply walk_insert_file.
Qed.

(** What a write to the key [k] keeps: the directories, and the files the
    key does not name. *)
Lemma dir_at_write (w : world) (k : list string) (c : string) (l : list log_record)
    (q : string) :
  node_at (tree w) k ≠ Some Dir →
  dir_at w q → dir_at (World (<[k := File c]> (tree w)) (cwd w) (dir_size w) l) q.
Proof.
  intros Hk (k' & Hr & Hd). exists k'. split; [by apply resolve_write|].
  cbn. rewrite node_at_insert_ne; [done|congruence].
Qed.

Lemma file_at_write (w : world) (k : list string) (c : string) (l : list log_record)
    (p q : string) (x : string) :
  node_at (tree w) k ≠ Some Dir →
  resolve w p = Ok k →
  file_at w q x →
  let w' := World (<[k := File c]> (tree w)) (cwd w) (dir_size w) l in
  file_at w' q x ∨ resolve w' q = resolve w' p.
Proof.
  intros Hk Hp (k' & Hr & Hf) w'.
  pose proof (resolve_write w k c l q k' Hk Hr) as Hq.
  pose proof (resolve_write w k c l p k Hk Hp) as Hp'.
  destruct (decide (k = k')) as [<-|Hne].
  - right. subst w'. by rewrite Hq, Hp'.
  - left. exists k'. split; [done|]. cbn. by rewrite node_at_insert_ne.
Qed.

Lemma file_at_extends (w w' : world) (p c : string) :
  extends (tree w) (tree w') → cwd w' = cwd w → file_at w p c → file_at w' p c.
Proof.
  intros Hext Hc (k & Hr & Hk). exists k. split; [|by apply Hext].
  unfold resolve in *. destruct (is_empty p); [done|].
  rewrite Hc. by apply (walk_extends _ _ _ Hext).
Qed.

Lemma open_write_inv (w w2 : world) (p : string) (k : list string) :
  open_write p w = (Ok k, w2) →
  resolve w p = Ok k ∧ node_at (tree w) k ≠ Some Dir
  ∧ w2 = set_tree (<[k := File ""]> (tree w)) w.
Proof.
  unfold open_write. destruct (resolve w p) as [k'|e]; [|discriminate].
  destruct (node_at (tree w) k') as [[|c]|] eqn:Hn; [discriminate|..];
    intros [= <- <-]; repeat split; congruence.
Qed.

Section SaveObject.
Context `{Pickling}.

(** The steps of [save_object], one after the other. *)
Lemma save_object_steps (file_path : Path) (obj : pyobj) (w : world) :
  save_object file_path obj w =
    match os_makedirs_exist_ok (os_path_dirname (fspath file_path)) w with
    | (Raise e, w1) => (Raise e, w1)
    | (Ok _, w1) =>
        match open_write (fspath file_path) w1 with
        | (Raise e, w2) => (Raise e, w2)
        | (Ok k, w2) =>
            match pickle_dumps obj with
            | Raise e => (Raise e, w2)
            | Ok b => (Ok tt, set_tree (<[k := File b]> (tree w2)) w2)
            end
        end
    end.
Proof.
  rewrite save_object_checked. unfold save_object_body, try_except. io_unfold.
  destruct (os_makedirs_exist_ok _ w) as [[[]|e] w1]; [|done].
  destruct (open_write _ w1) as [[k|e] w2]; [|done].
  by destruct (pickle_dumps obj).
Qed.

(** The state in which [save_object] writes: the directories are there,
    nothing has been lost, and the path names no directory. *)
Lemma save_object_opened (file_path : Path) (w w1 w2 : world) (k : list string) :
  node_at (tree w) (cwd w) = Some Dir →
  os_makedirs_exist_ok (os_path_dirname (fspath file_path)) w = (Ok tt, w1) →
  open_write (fspath file_path) w1 = (Ok k, w2) →
  ∀ (c : string),
    let w' := set_tree (<[k := File c]> (tree w2)) w2 in
    file_at w' (fspath file_path) c
    ∧ dir_at w' (os_path_dirname (fspath file_path))
    ∧ (∀ q, dir_at w q → dir_at w' q)
    ∧ (∀ q x, file_at w q x →
              file_at w' q x ∨ resolve w' q = resolve w' (fspath file_path))
    ∧ cwd w' = cwd w ∧ logs w' = logs w ∧ dir_size w' = dir_size w.
Proof.
  intros Hcwd Hmk Hopen c.
  destruct (makedirs_dir_at _ _ _ Hcwd Hmk) as (Hdir & Hext & Hc).
  assert (logs w1 = logs w ∧ dir_size w1 = dir_size w) as [Hl Hs].
  { unfold os_makedirs_exist_ok in Hmk. destruct (is_empty _); [discriminate|].
    destruct (mkdir_p _ _ _); [|discriminate]. by injection Hmk as <-. }
  destruct (open_write_inv _ _ _ _ Hopen) as (Hr & Hk & ->).
  cbn zeta. unfold set_tree. cbn [tree cwd dir_size logs]. rewrite insert_insert_eq.
  split; [|split; [|split; [|split]]].
  - pose proof (file_at_written w1 (fspath file_path) k c (logs w1) Hr Hk) as Hf.
    by rewrite insert_insert_eq in Hf.
  - by apply dir_at_write.
  - intros q Hq. apply dir_at_write; [done|]. by apply (dir_at_extends w).
  - intros q x Hq. apply file_at_write; [done..|]. by apply (file_at_extends w).
  - done.
Qed.
End SaveObject.

Section SaveObjectProperties.
Context `{Pickling}.

Lemma save_object_ok_inv (file_path : Path) (obj : pyobj) (w w' : world) :
  save_object file_path obj w = (Ok tt, w') →
  ∃ w1 w2 k b,
    os_makedirs_exist_ok (os_path_dirname (fspath file_path)) w = (Ok tt, w1)
    ∧ open_write (fspath file_path) w1 = (Ok k, w2)
    ∧ pickle_dumps obj = Ok b
    ∧ w' = set_tree (<[k := File b]> (tree w2)) w2.
Proof.
  rewrite save_object_steps.
  destruct (os_makedirs_exist_ok _ w) as [[[]|e] w1] eqn:Hmk; [|discriminate].
  destruct (open_write _ w1) as [[k|e] w2] eqn:Hopen; [|discriminate].
  destruct (pickle_dumps obj) as [b|e] eqn:Hb; [|discriminate].
  intros [= <-]. by exists w1, w2, k, b.
Qed.

(** X10: when [save_object] returns, the path names a regular file
    holding the pickle of the object and its directory is there; every
    directory that was there still is, every other file has kept its
    content, and nothing was logged. *)
Theorem save_object_writes_one_file (file_path : Path) (obj : pyobj) (w w' : world) :
  node_at (tree w) (cwd w) = Some Dir →
  save_object file_path obj w = (Ok tt, w') →
  (∃ b, pickle_dumps obj = Ok b ∧ file_at w' (fspath file_path) b)
  ∧ dir_at w' (os_path_dirname (fspath file_path))
  ∧ (∀ q, dir_at w q → dir_at w' q)
  ∧ (∀ q x, file_at w q x →
            file_at w' q x ∨ resolve w' q = resolve w' (fspath file_path))
  ∧ logs w' = logs w.
Proof.
  intros Hcwd (w1 & w2 & k & b & Hmk & Hopen & Hb & ->)%save_object_ok_inv.
  destruct (save_object_opened file_path w w1 w2 k Hcwd Hmk Hopen b)
    as (Hf & Hd & Hdirs & Hfiles & _ & Hl & _).
  split; [by exists b|]. done.
Qed.

(** X11: after a [save_object] that returned, a second one to the same
    path returns too and the file then holds the pickle of the second
    object; saving the same bytes again leaves the directory tree as it
    is. *)
Theorem save_object_again (file_path : Path) (obj obj2 : pyobj) (w w1 : world)
    (b2 : string) :
  node_at (tree w) (cwd w) = Some Dir →
  save_object file_path obj w = (Ok tt, w1) →
  pickle_dumps obj2 = Ok b2 →
  ∃ w2, save_object file_path obj2 w1 = (Ok tt, w2)
        ∧ file_at w2 (fspath file_path) b2
        ∧ (pickle_dumps obj = Ok b2 → tree w2 = tree w1).
Proof.
  intros Hcwd (v1 & v2 & k & b & Hmk & Hopen & Hb & ->)%save_object_ok_inv Hb2.
  destruct (save_object_opened file_path w v1 v2 k Hcwd Hmk Hopen b)
    as (Hf & Hd & Hdirs & _ & Hc & _).
  set (w1 := set_tree (<[k := File b]> (tree v2)) v2) in *.
  destruct Hf as (k1 & Hr1 & Hn1).
  assert (node_at (tree w1) k1 ≠ Some Dir) as Hnd by congruence.
  rewrite save_object_steps, (makedirs_present w1 _ Hd).
  rewrite (open_write_ok w1 _ k1 Hr1 Hnd), Hb2.
  eexists. split; [done|]. split.
  - unfold set_tree. cbn [tree cwd dir_size logs].
    by apply file_at_written.
  - intros Hsame. assert (b2 = b) as -> by congruence.
    cbn. rewrite !insert_insert_eq. apply map_eq. intros i.
    destruct (decide (k1 = i)) as [<-|Hne].
    + rewrite lookup_insert_eq. destruct k1; [done|]. symmetry. exact Hn1.
    + by rewrite lookup_insert_ne.
Qed.

(** X12: [save_object] is not atomic.  Where saving an object that can be
    pickled returns, saving one that cannot raises the error of the pickler,
    and by then the directories have been made and the path names a
    file. *)
Theorem save_object_unpicklable (file_path : Path) (good bad : pyobj) (e : exn)
    (w w1 : world) :
  node_at (tree w) (cwd w) = Some Dir →
  save_object file_path good w = (Ok tt, w1) →
  pickle_dumps bad = Raise e →
  ∃ w', save_object file_path bad w = (Raise e, w')
        ∧ dir_at w' (os_path_dirname (fspath file_path))
        ∧ (∃ c, file_at w' (fspath file_path) c)
        ∧ (∀ q, dir_at w q → dir_at w' q).
Proof.
  intros Hcwd (v1 & v2 & k & b & Hmk & Hopen & Hb & ->)%save_object_ok_inv Hbad.
  rewrite save_object_steps, Hmk, Hopen, Hbad.
  exists v2. split; [done|].
  destruct (save_object_opened file_path w v1 v2 k Hcwd Hmk Hopen "")
    as (Hf & Hd & Hdirs & _).
  destruct (open_write_inv _ _ _ _ Hopen) as (Hr & Hk & ->).
  assert (set_tree (<[k := File ""]> (tree (set_tree (<[k := File ""]> (tree v1)) v1)))
            (set_tree (<[k := File ""]> (tree v1)) v1)
          = set_tree (<[k := File ""]> (tree v1)) v1) as E.
  { unfold set_tree. cbn. by rewrite insert_insert_eq. }
  cbn zeta in *. rewrite E in *.
  split; [done|]. split; [by exists ""|done].
Qed.
End SaveObjectProperties.

Lemma save_object_writes_one_file_witness :
  dir_at (snd (@save_object toy_pickling deep_path (Some "abc") world_proj))
         (os_path_dirname (fspath deep_path)).
Proof.
  refine (proj1 (proj2 (@save_object_writes_one_file toy_pickling deep_path (Some "abc")
                          world_proj _ _ _))).
  - reflexivity.
  - vm_compute. reflexivity.
Defined.

Lemma save_object_again_witness :
  ∃ w2, @save_object toy_pickling deep_path (Some "xyz")
          (snd (@save_object toy_pickling deep_path (Some "abc") world_proj)) = (Ok tt, w2)
        ∧ file_at w2 (fspath deep_path) "PKxyz".
Proof.
  destruct (@save_object_again toy_pickling deep_path (Some "abc") (Some "xyz") world_proj
              (snd (@save_object toy_pickling deep_path (Some "abc") world_proj)) "PKxyz")
    as (w2 & Hs & Hf & _).
  - reflexivity.
  - vm_compute. reflexivity.
  - reflexivity.
  - by exists w2.
Defined.

Lemma save_object_unpicklable_witness :
  ∃ w', @save_object toy_pickling deep_path None world_proj
        = (Raise (PicklingError "cannot pickle object"), w')
        ∧ dir_at w' (os_path_dirname (fspath deep_path)).
Proof.
  destruct (@save_object_unpicklable toy_pickling deep_path (Some "abc") None
              (PicklingError "cannot pickle object") world_proj
              (snd (@save_object toy_pickling deep_path (Some "abc") world_proj)))
    as (w' & Hs & Hd & _).
  - reflexivity.
  - vm_compute. reflexivity.
  - reflexivity.
  - by exists w'.
Defined.

(** ** [load_bin] and [read_yaml]: what is raised *)

Section LoadBinProperties.
Context `{Pickling}.

(** X13: on a file that [joblib] loads, [load_bin] logs that the file was
    loaded and then raises the [TypeError] of its return annotation; on a
    file that [joblib] cannot load it raises what [joblib] raised and logs
    nothing. *)
Theorem load_bin_existing_file (path : Path) (w : world) (c : string) :
  file_at w (fspath path) c →
  (∀ data, joblib_loads c = Ok data →
     load_bin path w =
       (Raise (TypeError builtin_any_message),
        add_log (LogRecord INFO "Binary dosya yüklendi: " (ArgPath (fspath path))) w))
  ∧ (∀ e, joblib_loads c = Raise e → load_bin path w = (Raise e, w)).
Proof.
  intros Hf. split.
  - intros data Hl. by rewrite load_bin_annotation, (load_bin_body_ok _ _ _ _ Hf Hl).
  - intros e Hl. rewrite load_bin_annotation. unfold load_bin_body. io_unfold.
    by rewrite (read_file_at _ _ _ Hf), Hl.
Qed.
End LoadBinProperties.

Section ReadYamlErrors.
Context `{YamlLoader}.

(** X15: what the YAML reader raises on the text of an existing file
    leaves [read_yaml] unchanged and with the world as it was: only the
    [BoxValueError] of the box is turned into the [ValueError] of the empty
    file. *)
Theorem read_yaml_parser_error (path : Path) (w : world) (c : string) (e : exn) :
  file_at w (fspath path) c →
  yaml_safe_load c = Raise e →
  (∀ msg, e ≠ BoxValueError msg) →
  read_yaml path w = (Raise e, w).
Proof.
  intros Hf Hl Hne. rewrite read_yaml_checked.
  unfold read_yaml_body, try_except. io_unfold.
  rewrite (read_file_at _ _ _ Hf), Hl.
  destruct e; try done. by destruct (Hne msg).
Qed.
End ReadYamlErrors.

Lemma save_load_bin_bodies_witness :
  ∃ w1 w2, @save_bin_body toy_pickling (Some "abc") bare_path world_proj = (Ok tt, w1)
           ∧ @load_bin_body toy_pickling bare_path w1 = (Ok (Some "abc"), w2).
Proof.
  apply (@save_load_bin_bodies toy_pickling (Some "abc") bare_path world_proj
           ["proj"; "model.pkl"] "PKabc").
  - reflexivity.
  - vm_compute. discriminate.
  - reflexivity.
  - reflexivity.
Defined.

Lemma load_bin_existing_file_witness :
  @load_bin toy_pickling (MkPath false ["notes.txt"]) world_pickle
  = (Raise (TypeError builtin_any_message),
     add_log (LogRecord INFO "Binary dosya yüklendi: " (ArgPath "notes.txt")) world_pickle).
Proof.
  refine (proj1 (@load_bin_existing_file toy_pickling (MkPath false ["notes.txt"]) _ "PKabc" _)
            (Some "abc") _).
  - exists ["proj"; "notes.txt"]. split; reflexivity.
  - reflexivity.
Defined.

Lemma read_yaml_parser_error_witness :
  @read_yaml sample_yaml config_path (world_config "a: [")
  = (Raise (YAMLError "not one of the sample documents"), world_config "a: [").
Proof.
  apply (@read_yaml_parser_error sample_yaml config_path (world_config "a: [") "a: [").
  - exists ["proj"; "config.yaml"]. split; reflexivity.
  - reflexivity.
  - discriminate.
Defined.

(** ** [save_json] and [load_json]: coercion, failure, overwriting *)

Lemma render_sequence_map {A B} (f : B → string → string) (f' : A → string → string)
    (g : A → B) (sep : string → string) (l : list A) (close : string) :
  Forall (λ x, ∀ t, f (g x) t = f' x t) l →
  render_sequence f sep (map g l) close = render_sequence f' sep l close.
Proof.
  induction 1 as [|x l Hx Hl IH]; [done|].
  cbn [map render_sequence]. rewrite Hx.
  destruct l as [|y l]; [done|]. cbn [map] in *. by rewrite IH.
Qed.

Lemma render_json_normal (v : pyvalue) :
  ∀ indent level tail,
    render indent level (json_normal v) tail = render indent level v tail.
Proof.
  induction v as [|b|z|s|l IH|l IH|items IH] using pyvalue_nested_ind;
    intros indent level tail; try done.
  - destruct l as [|x l]; [done|].
    cbn [json_normal render map].
    change (json_normal x :: map json_normal l) with (map json_normal (x :: l)).
    rewrite (render_sequence_map _ (render indent (S level))); [done|].
    eapply Forall_impl; [exact IH|]. intros y Hy t. apply Hy.
  - destruct l as [|x l]; [done|].
    cbn [json_normal render map].
    change (json_normal x :: map json_normal l) with (map json_normal (x :: l)).
    rewrite (render_sequence_map _ (render indent (S level))); [done|].
    eapply Forall_impl; [exact IH|]. intros y Hy t. apply Hy.
  - destruct items as [|kv items]; [done|].
    cbn [json_normal render map].
    set (g := λ kv : pyvalue * pyvalue, (PStr (json_key_text kv.1), json_normal kv.2)).
    change ((PStr (json_key_text kv.1), json_normal kv.2) :: map g items)
      with (map g (kv :: items)).
    rewrite (render_sequence_map _ (render_member (render indent (S level)))); [done|].
    eapply Forall_impl; [exact IH|]. intros y Hy t.
    unfold render_member, g. cbn [fst snd json_key_text json_key]. by rewrite Hy.
Qed.

Lemma json_normal_plain (v : pyvalue) : json_plain v = true → json_normal v = v.
Proof.
  induction v as [|b|z|s|l IH|l IH|items IH] using pyvalue_nested_ind; try done.
  - cbn [json_plain json_normal]. intros Hp. f_equal.
    induction l as [|x l IHl]; [done|].
    apply Forall_cons in IH as [Hx IH]. cbn [forallb] in Hp.
    apply andb_true_iff in Hp as [Hpx Hpl].
    cbn [map]. by rewrite (Hx Hpx), (IHl IH Hpl).
  - cbn [json_plain json_normal]. intros [Hp _]%andb_true_iff. f_equal.
    induction items as [|[k x] items IHl]; [done|].
    apply Forall_cons in IH as [Hx IH]. cbn [forallb] in Hp.
    apply andb_true_iff in Hp as [Hpx Hpl].
    unfold plain_entry in Hpx. cbn [fst snd] in *.
    destruct k; try discriminate.
    cbn [map fst snd json_key_text json_key]. by rewrite (Hx Hpx), (IHl IH Hpl).
Qed.

(** The encoder raises nothing but [TypeError]. *)
Lemma json_check_type_error (v : pyvalue) (e : exn) :
  json_check v = Raise e → ∃ msg, e = TypeError msg.
Proof.
  induction v as [|b|z|s|l IH|l IH|items IH] using pyvalue_nested_ind; try done.
  - cbn [json_check]. induction l as [|x l IHl]; [done|].
    apply Forall_cons in IH as [Hx IH].
    destruct (json_check x) as [|e'] eqn:Hc.
    + by apply IHl.
    + intros [= <-]. by apply Hx.
  - cbn [json_check]. induction l as [|x l IHl]; [done|].
    apply Forall_cons in IH as [Hx IH].
    destruct (json_check x) as [|e'] eqn:Hc.
    + by apply IHl.
    + intros [= <-]. by apply Hx.
  - cbn [json_check]. induction items as [|[k x] items IHl]; [done|].
    apply Forall_cons in IH as [Hx IH]. cbn [fst snd] in *.
    destruct (json_key k) as [s|e'] eqn:Hk.
    + destruct (json_check x) as [|e''] eqn:Hc.
      * by apply IHl.
      * intros [= <-]. by apply Hx.
    + intros [= <-]. destruct k as [| [] | | | | |]; cbn in Hk; try discriminate;
        injection Hk as <-; by eexists.
Qed.

Lemma json_dumps_checked (indent : nat) (v : pyvalue) :
  json_check v = Ok tt → json_dumps indent v = Ok (render indent 0 v "").
Proof. intros Hc. unfold json_dumps. by rewrite Hc. Qed.

(** Decoding what the encoder wrote. *)
Lemma json_loads_render (indent : nat) (v : pyvalue) :
  keys_stay_apart v = true →
  json_loads (render indent 0 v "") = Ok (json_normal v).
Proof.
  intros Hp. rewrite <- render_json_normal.
  by apply json_loads_dumps.
Qed.

(** The two calls, step by step. *)
Lemma save_json_steps (path : Path) (items : list (pyvalue * pyvalue)) (w : world) :
  save_json path (PDict items) w =
    match open_write (fspath path) w with
    | (Raise e, w1) => (Raise e, w1)
    | (Ok k, w1) =>
        match json_dumps 4 (PDict items) with
        | Raise e => (Raise e, w1)
        | Ok text =>
            (Ok tt, add_log (saved_record path) (set_tree (<[k := File text]> (tree w1)) w1))
        end
    end.
Proof.
  rewrite save_json_checked. unfold save_json_body. io_unfold.
  destruct (open_write _ w) as [[k|e] w1]; [|done].
  by destruct (json_dumps 4 (PDict items)).
Qed.

Lemma load_json_steps (path : Path) (w : world) (c : string) :
  file_at w (fspath path) c →
  load_json path w =
    match json_loads c with
    | Raise e => (Raise e, w)
    | Ok v => (match Box_init v with Ok b => Ok b | Raise e => Raise e end,
               add_log (loaded_record path) w)
    end.
Proof.
  intros Hf. rewrite load_json_checked. unfold load_json_body. io_unfold.
  rewrite (read_file_at _ _ _ Hf).
  destruct (json_loads c) as [v|e]; [|done]. cbn.
  by destruct (Box_init v).
Qed.

Lemma save_json_written (path : Path) (items : list (pyvalue * pyvalue)) (w : world)
    (k : list string) (text : string) :
  resolve w (fspath path) = Ok k →
  node_at (tree w) k ≠ Some Dir →
  json_dumps 4 (PDict items) = Ok text →
  save_json path (PDict items) w =
    (Ok tt, World (<[k := File text]> (<[k := File ""]> (tree w))) (cwd w) (dir_size w)
                  (logs w ++ [saved_record path])).
Proof.
  intros Hr Hk Hd. by rewrite save_json_steps, (open_write_ok _ _ _ Hr Hk), Hd.
Qed.



Lemma save_json_ok_dict (path : Path) (data : pyvalue) (w w' : world) :
  save_json path data w = (Ok tt, w') → ∃ items, data = PDict items.
Proof.
  unfold save_json. io_unfold. rewrite ensure_arg_ok by done.
  destruct data as [| | | | | |items]; [discriminate..|]. by exists items.
Qed.

(** X17: when [save_json] returns, its argument was a dictionary and the
    path names a regular file holding the text of the encoder with
    [indent=4]; no directory was made or lost, every other file has kept
    its content, and one record was logged. *)
Theorem save_json_writes_one_file (path : Path) (data : pyvalue) (w w' : world) :
  save_json path data w = (Ok tt, w') →
  (∃ items, data = PDict items
            ∧ file_at w' (fspath path) (render 4 0 (PDict items) ""))
  ∧ (∀ q, dir_at w q ↔ dir_at w' q)
  ∧ (∀ q x, file_at w q x →
            file_at w' q x ∨ resolve w' q = resolve w' (fspath path))
  ∧ logs w' = logs w ++ [saved_record path].
Proof.
  intros Hrun.
  destruct (save_json_ok_dict _ _ _ _ Hrun) as [items ->].
  rewrite save_json_steps in Hrun.
  destruct (open_write (fspath path) w) as [[k|e] w1] eqn:Hopen; [|discriminate].
  destruct (open_write_inv _ _ _ _ Hopen) as (Hr & Hk & ->).
  unfold json_dumps in Hrun.
  destruct (json_check (PDict items)) as [[]|e]; [|discriminate].
  injection Hrun as <-.
  unfold add_log, set_tree. cbn [tree cwd dir_size logs]. rewrite insert_insert_eq.
  split; [|split; [|split]].
  - exists items. split; [done|].
    pose proof (file_at_written w (fspath path) k (render 4 0 (PDict items) "")
                  (logs w ++ [saved_record path]) Hr Hk) as Hf.
    by rewrite insert_insert_eq in Hf.
  - intros q. split; [by apply dir_at_write|].
    intros (k' & Hq & Hd). cbn in Hd.
    assert (k ≠ k') as Hne.
    { intros <-. rewrite node_at_insert_file in Hd by done. discriminate. }
    rewrite node_at_insert_ne in Hd by done.
    exists k'. split; [|done].
    unfold resolve in *. cbn in Hq. destruct (is_empty q); [done|].
    revert Hq. generalize (if is_absolute q then [] else cwd w).
    induction (components q) as [|c cs IH]; intros cur Hw; cbn in *; [done|].
    destruct (decide (k = cur)) as [<-|Hkc].
    + rewrite node_at_insert_file in Hw by done. discriminate.
    + rewrite node_at_insert_ne in Hw by done.
      destruct (node_at (tree w) cur) as [[|?]|]; try done. by apply IH.
  - intros q x Hq. by apply file_at_write.
  - done.
Qed.

Lemma save_json_writes_one_file_witness :
  file_at (snd (save_json metrics_path (PDict metrics) (world_json "{}")))
          (fspath metrics_path) (render 4 0 (PDict metrics) "").
Proof.
  destruct (save_json_writes_one_file metrics_path (PDict metrics) (world_json "{}")
              (snd (save_json metrics_path (PDict metrics) (world_json "{}"))))
    as ((items & Hi & Hf) & _).
  - vm_compute. reflexivity.
  - injection Hi as <-. exact Hf.
Defined.

(** X18: anything but a dictionary is refused by the annotation check
    before the file is opened: [save_json] raises [EnsureError] and the
    world is as it was. *)
Theorem save_json_rejects_non_dict (path : Path) (data : pyvalue) (w : world) :
  (∀ items, data ≠ PDict items) →
  ∃ msg, save_json path data w = (Raise (EnsureError msg), w).
Proof.
  intros Hnd. unfold save_json. io_unfold. rewrite ensure_arg_ok by done.
  destruct data; try (by eexists). by destruct (Hnd items).
Qed.

Lemma save_json_rejects_non_dict_witness :
  ∃ msg, save_json metrics_path (PList [PInt 1; PInt 2]) world_proj
         = (Raise (EnsureError msg), world_proj).
Proof. apply save_json_rejects_non_dict. discriminate. Defined.

(** X19: [save_json] is not atomic.  When the encoder refuses the
    dictionary, the [TypeError] it raises leaves [save_json] after the file
    has been opened: the path names a file, and nothing is logged. *)
Theorem save_json_unwritable_key (path : Path) (items : list (pyvalue * pyvalue))
    (w : world) (k : list string) (e : exn) :
  resolve w (fspath path) = Ok k →
  node_at (tree w) k ≠ Some Dir →
  json_check (PDict items) = Raise e →
  ∃ w', save_json path (PDict items) w = (Raise e, w')
        ∧ (∃ msg, e = TypeError msg)
        ∧ (∃ c, file_at w' (fspath path) c)
        ∧ logs w' = logs w.
Proof.
  intros Hr Hk Hc.
  rewrite save_json_steps, (open_write_ok _ _ _ Hr Hk).
  unfold json_dumps. rewrite Hc. eexists. split; [done|].
  split; [by apply (json_check_type_error _ _ Hc)|]. split; [|done].
  exists "". pose proof (file_at_written w (fspath path) k "" (logs w) Hr Hk) as Hf.
  by rewrite insert_insert_eq in Hf.
Qed.

Lemma save_json_unwritable_key_witness :
  ∃ w', save_json metrics_path (PDict metrics_tuple_key) world_proj
        = (Raise (TypeError "keys must be str, int, float, bool or None"), w')
        ∧ (∃ c, file_at w' (fspath metrics_path) c).
Proof.
  destruct (save_json_unwritable_key metrics_path metrics_tuple_key world_proj
              ["proj"; "artifacts"; "metrics.json"]
              (TypeError "keys must be str, int, float, bool or None"))
    as (w' & Hs & _ & Hf & _).
  - reflexivity.
  - vm_compute. discriminate.
  - vm_compute. reflexivity.
  - by exists w'.
Defined.





(** X22: on a file whose document is [null], a boolean, a number or a
    string, [load_json] logs that the file was loaded and then raises the
    [BoxValueError] of the box, which it does not translate. *)
Theorem load_json_scalar_document (path : Path) (w : world) (c : string) (v : pyvalue) :
  file_at w (fspath path) c →
  json_loads c = Ok v →
  is_scalar v = true →
  ∃ msg, load_json path w = (Raise (BoxValueError msg), add_log (loaded_record path) w).
Proof.
  intros Hf Hl Hs. rewrite (load_json_steps _ _ _ Hf), Hl.
  destruct v; try discriminate; by eexists.
Qed.

Lemma load_json_scalar_document_witness :
  ∃ msg, load_json metrics_path (world_json "null")
         = (Raise (BoxValueError msg), add_log (loaded_record metrics_path) (world_json "null")).
Proof.
  apply (load_json_scalar_document metrics_path (world_json "null") "null" PNone).
  - exists ["proj"; "artifacts"; "metrics.json"]. split; reflexivity.
  - vm_compute. reflexivity.
  - reflexivity.
Defined.



(** ** [evaluate_model]: parameter spaces and failures *)

Section EvaluateModelEdges.
Context `{Sklearn}.
Variables (X_train : dataset) (y_train : target) (X_test : dataset) (y_test : target).

Lemma score_models_same_spaces (param param' : gmap string param_space)
    (items : list (string * loc)) :
  (∀ name, name ∈ items.*1 → param !! name = param' !! name) →
  ∀ report st,
    score_models X_train y_train X_test y_test param items report st
    = score_models X_train y_train X_test y_test param' items report st.
Proof.
  induction items as [|[name model] items IH]; intros Hsame report st; [done|].
  cbn [score_models]. rewrite <- (Hsame name) by (cbn; left).
  destruct (param !! name) as [para|]; [|done].
  destruct (score_one _ _ _ _ model para st) as [[sc st1]|x]; [|done].
  apply IH. intros n Hn. apply Hsame. cbn. by right.
Qed.

(** X24: the entries of [param] under names that are not keys of
    [models] play no part: two parameter dictionaries that agree on the
    keys of [models] give the same outcome and the same final state. *)
Theorem evaluate_model_unused_spaces (param param' : gmap string param_space)
    (st : store) (models : loc) (items : list (string * loc)) :
  heap st !! models = Some (ODict items) →
  (∀ name, name ∈ items.*1 → param !! name = param' !! name) →
  evaluate_model X_train y_train X_test y_test models param st
  = evaluate_model X_train y_train X_test y_test models param' st.
Proof.
  intros Hd Hsame.
  rewrite !(evaluate_model_score_models _ _ _ _ _ models items st Hd).
  by apply score_models_same_spaces.
Qed.

(** X25: the first model whose search, refit or scoring raises decides
    what [evaluate_model] raises: the exception leaves it as it was raised,
    and the models after that one are not reached. *)
Theorem evaluate_model_first_failure (param : gmap string param_space)
    (st st0 : store) (models : loc) (pre post : list (string * loc))
    (name : string) (model : loc) (rep0 : gmap string score) (para : param_space)
    (e : exn) :
  heap st !! models = Some (ODict (pre ++ (name, model) :: post)) →
  score_models X_train y_train X_test y_test param pre ∅ st = Ok (rep0, st0) →
  param !! name = Some para →
  score_one X_train y_train X_test y_test model para st0 = Raise e →
  evaluate_model X_train y_train X_test y_test models param st = Raise e.
Proof.
  intros Hd Hpre Hp Hone.
  rewrite (evaluate_model_score_models _ _ _ _ _ models _ st Hd).
  rewrite score_models_app, Hpre. cbn [score_models]. by rewrite Hp, Hone.
Qed.
End EvaluateModelEdges.

Lemma evaluate_model_unused_spaces_witness :
  @evaluate_model toy_sklearn toy_X_train toy_y_train toy_X_test toy_y_test
    0%nat toy_param toy_store
  = @evaluate_model toy_sklearn toy_X_train toy_y_train toy_X_test toy_y_test
      0%nat (<["tree" := [5; 6]]> toy_param) toy_store.
Proof.
  apply (@evaluate_model_unused_spaces toy_sklearn toy_X_train toy_y_train
           toy_X_test toy_y_test toy_param (<["tree" := [5; 6]]> toy_param)
           toy_store 0%nat toy_items).
  - reflexivity.
  - intros name Hin.
    assert (name = "ridge" ∨ name = "lasso") as [-> | ->]
      by (unfold toy_items in Hin; set_solver);
      reflexivity.
Defined.

Lemma evaluate_model_first_failure_witness :
  @evaluate_model toy_sklearn toy_X_train toy_y_train toy_X_test toy_y_test
    0%nat (<["lasso" := []]> toy_param) toy_store
  = Raise (ValueError "empty parameter grid").
Proof.
  apply (@evaluate_model_first_failure toy_sklearn toy_X_train toy_y_train
           toy_X_test toy_y_test (<["lasso" := []]> toy_param) toy_store toy_store_ridge
           0%nat [("ridge", 1%nat)] [] "lasso" 2%nat {["ridge" := -1]} []).
  - reflexivity.
  - vm_compute. reflexivity.
  - reflexivity.
  - vm_compute. reflexivity.
Defined.

(** ** [create_directories] and then [save_json] *)

Lemma split_slash_join (x : string) (xs : list string) :
  forallb plain_name (x :: xs) = true →
  split_slash (join_slash (x :: xs)) = x :: xs.
Proof.
  revert x. induction xs as [|y xs IH]; intros x Hp; cbn [forallb] in Hp.
  - apply andb_true_iff in Hp as [Hx _]. unfold plain_name in Hx.
    apply andb_true_iff in Hx as [[_ Hs%negb_true_iff]%andb_true_iff _].
    cbn. by apply split_slash_no_slash.
  - apply andb_true_iff in Hp as [Hx Hrest].
    unfold plain_name in Hx.
    apply andb_true_iff in Hx as [[_ Hs%negb_true_iff]%andb_true_iff _].
    unfold join_slash in *.
    change (String.concat "/" (x :: y :: xs))
      with (x +:+ String "/" (String.concat "/" (y :: xs))).
    rewrite split_slash_app, (split_slash_no_slash _ Hs), (IH y Hrest). done.
Qed.

Lemma filter_plain (ps : list string) :
  forallb plain_name ps = true → List.filter real_component ps = ps.
Proof.
  induction ps as [|x ps IH]; [done|]. cbn [forallb List.filter].
  intros [Hx Hps]%andb_true_iff. unfold plain_name in Hx.
  apply andb_true_iff in Hx as [[-> _]%andb_true_iff _]. by rewrite IH.
Qed.

(** The string of a path with plain parts is walked part by part. *)
Lemma components_fspath (a : bool) (ps : list string) :
  forallb plain_name ps = true →
  components (fspath (MkPath a ps)) = ps
  ∧ is_absolute (fspath (MkPath a ps)) = a
  ∧ is_empty (fspath (MkPath a ps)) = false.
Proof.
  intros Hp. unfold fspath, components. cbn [parts anchor].
  destruct ps as [|x xs]; [by destruct a|].
  pose proof (split_slash_join x xs Hp) as Hs.
  pose proof (filter_plain _ Hp) as Hf.
  assert (∃ c t, x = String c t ∧ is_slash c = false) as (c & t & -> & Hc).
  { cbn [forallb] in Hp. apply andb_true_iff in Hp as [Hx _]. unfold plain_name in Hx.
    apply andb_true_iff in Hx as [[Hr Hns%negb_true_iff]%andb_true_iff _].
    destruct x as [|c t]; [done|]. exists c, t. split; [done|].
    cbn in Hns. by apply orb_false_iff in Hns as [? _]. }
  destruct a.
  - change ("/" +:+ join_slash (String c t :: xs))
      with (String "/" (join_slash (String c t :: xs))).
    change (split_slash (String "/" (join_slash (String c t :: xs))))
      with ("" :: split_slash (join_slash (String c t :: xs))).
    rewrite Hs.
    change (List.filter real_component ("" :: String c t :: xs))
      with (List.filter real_component (String c t :: xs)).
    by rewrite Hf.
  - rewrite append_nil_l, Hs, Hf. split; [done|].
    unfold join_slash. destruct xs as [|y xs]; cbn [String.concat]; by rewrite ?append_cons.
Qed.

(** Below a directory that is there, a plain name resolves to the entry of
    that name. *)
Lemma resolve_child (w : world) (a : bool) (ps : list string) (name : string) :
  forallb plain_name ps = true → plain_name name = true →
  dir_at w (fspath (MkPath a ps)) →
  ∃ k, resolve w (fspath (MkPath a ps)) = Ok k
       ∧ resolve w (fspath (MkPath a (ps ++ [name]))) = Ok (k ++ [name]).
Proof.
  intros Hps Hname (k & Hr & Hk). exists k. split; [done|].
  assert (forallb plain_name (ps ++ [name]) = true) as Hall.
  { rewrite forallb_app, Hps. cbn. by rewrite Hname. }
  destruct (components_fspath a ps Hps) as (Hc & Ha & He).
  destruct (components_fspath a (ps ++ [name]) Hall) as (Hc' & Ha' & He').
  unfold resolve in *. rewrite He in Hr. rewrite He', Ha', Hc'. rewrite Ha, Hc in Hr.
  rewrite (walk_app _ _ _ _ _ Hr Hk). unfold step_key.
  unfold plain_name in Hname. apply andb_true_iff in Hname as [_ Hdd%negb_true_iff].
  by rewrite Hdd.
Qed.


